(** * CaloGAN training script ([models/train.py]): a shallow embedding

    The script trains a conditional GAN with Keras and Horovod.  The parts
    embedded here are the label-noise helper [bit_flip], the per-epoch
    routine [train_gan], the checkpoint discovery [getLastEpoch], the resume
    blocks that restore optimizer states and weights (with the optional
    cross-worker weight averaging) and the epoch loop at the end of the
    script.

    Conventions.
    - Python [int] is [Z]; [range n] is [seq 0 (Z.to_nat n)].
    - A finite float is the rational it denotes ([Qc]).  The arithmetic of
      the cross-worker averaging (lines 678-683 and 695-700) is float32
      arithmetic, every operation rounded to nearest, ties to even.  The
      loss values are taken as the models report them and their means are
      not rounded.  Infinities and NaN are not represented.
    - The Keras models, the random generator, the glob matcher and the
      Horovod broadcast are collaborators of the script: they are taken as
      functions in a record, the script's own control flow around them is
      written out.
    - Effects (model state, files, random draws, the log of collaborator
      calls, exceptions) go through the monad [M]. *)

From Stdlib Require Import ZArith QArith Qcanon Qround Qabs Qpower String Ascii List Lia Lqa
  Permutation.
From stdpp Require Import base numbers list gmap strings pretty.
Import ListNotations.

Local Open Scope Z_scope.

(** ** Exceptions and results *)

Inductive exn : Type :=
| UnboundLocalError (name : string)
| IndexError
| ValueError
| ZeroDivisionError
| OverflowError
| OSError (path : string)
| Exception (msg : string).

Inductive result (A : Type) : Type :=
| Ok (a : A)
| Raise (e : exn).
Arguments Ok {A} a.
Arguments Raise {A} e.

(** ** bit_flip (lines 40-45) *)

(** [1 * np.logical_not(v)] on one integer entry. *)
Definition logical_not (v : Z) : Z := if v =? 0 then 1 else 0.

(** [selection = u < prob], entry by entry. *)
Definition selection (u : list Qc) (prob : Qc) : list bool :=
  map (fun d => bool_decide (d < prob)%Qc) u.

(** [x[sel]]: the entries of [x] under a boolean mask, in order. *)
Fixpoint masked_select (x : list Z) (sel : list bool) : list Z :=
  match x, sel with
  | v :: x', b :: sel' =>
      if b then v :: masked_select x' sel' else masked_select x' sel'
  | _, _ => []
  end.

(** [x[sel] = new]: the masked positions of [x] take the entries of [new],
    in order; the other positions keep theirs. *)
Fixpoint masked_assign (x : list Z) (sel : list bool) (new : list Z) : list Z :=
  match x, sel with
  | v :: x', b :: sel' =>
      if b then
        match new with
        | n :: new' => n :: masked_assign x' sel' new'
        | [] => v :: masked_assign x' sel' []
        end
      else v :: masked_assign x' sel' new
  | _, _ => x
  end.

(** Lines 43-44 on the values of the copied array, [u] being the array drawn
    by [np.random.uniform(0, 1, x.shape)]. *)
Definition bit_flip_values (x : list Z) (u : list Qc) (prob : Qc) : list Z :=
  let sel := selection u prob in
  masked_assign x sel (map logical_not (masked_select x sel)).

(** Arrays are mutable objects.  A heap maps array references to contents;
    the caller's [x] is a reference. *)
Definition loc := positive.
Abbreviation heap := (gmap loc (list Z)).

(** [np.array(x)]: a new array object holding a copy of the data of [x]. *)
Definition np_array (h : heap) (x : loc) : option (heap * loc) :=
  match h !! x with
  | Some v => let l := fresh (dom h) in Some (<[l := v]> h, l)
  | None => None
  end.

(** [x[selection] = 1 * np.logical_not(x[selection])] on the array at [l]. *)
Definition flip_in_place (h : heap) (l : loc) (sel : list bool) : option heap :=
  match h !! l with
  | Some v =>
      Some (<[l := masked_assign v sel (map logical_not (masked_select v sel))]> h)
  | None => None
  end.

(** [bit_flip] with its aliasing: line 42 rebinds the local name [x] to the
    copy, lines 43-44 write into that copy, line 45 returns it.  The result
    is the heap after the call and the reference returned. *)
Definition bit_flip_heap (h : heap) (x : loc) (u : list Qc) (prob : Qc)
  : option (heap * loc) :=
  match np_array h x with
  | Some (h1, x1) =>
      match flip_in_place h1 x1 (selection u prob) with
      | Some h2 => Some (h2, x1)
      | None => None
      end
  | None => None
  end.

(** ** Data of the training script *)

(** Arrays handed to the Keras models.  An image batch, a noise batch and an
    energy batch of shape (n, 1) keep one row per event, the row flattened. *)
Inductive ndarray : Type :=
| Float1 (v : list Qc)
| Float2 (rows : list (list Qc))
| Int1 (v : list Z).

(** What [get_weights] returns: a list of tensors.  A tensor is kept as the
    list of its slices along axis 0 (what iterating over it yields), each
    slice flattened. *)
Definition tensor : Type := list (list Qc).
Definition Weights : Type := list tensor.

(** The state kept inside Keras: weights of the two networks and the states
    of the three optimizers. *)
Record Models : Type := mkModels {
  generator_weights : Weights;
  discriminator_weights : Weights;
  generator_optimizer : Weights;
  discriminator_optimizer : Weights;
  combined_optimizer : Weights
}.

(** Calls received by the model collaborators, with their arguments. *)
Inductive call : Type :=
| GeneratorPredict (x : list ndarray)
| DiscriminatorTrainOnBatch (x y sample_weight : list ndarray)
| CombinedTrainOnBatch (x y sample_weight : list ndarray).

(** A checkpoint file.  The directory is a list, in the order in which
    [glob] enumerates it. *)
Record File : Type := mkFile {
  path : string;
  ctime : Z;
  content : Weights
}.

(** Module-level variables assigned at lines 470-471. *)
Module Globals.
Record t : Type := mk {
  last_epoch_gen_loss : option Qc;
  last_epoch_disc_loss : option Qc
}.
Definition initial : t :=
  {| last_epoch_gen_loss := None; last_epoch_disc_loss := None |}.
End Globals.

Record World : Type := mkWorld {
  models : Models;
  files : list File;
  clock : Z;
  rng : nat;
  globals : Globals.t
}.

(** The collaborators of the script. *)
Record Collaborators : Type := mkCollaborators {
  (* generator.predict *)
  predict : Models -> list ndarray -> list ndarray;
  (* discriminator.train_on_batch and combined.train_on_batch: one optimizer
     step, returning the loss values *)
  discriminator_step :
    Models -> list ndarray -> list ndarray -> list ndarray -> Models * list Qc;
  combined_step :
    Models -> list ndarray -> list ndarray -> list ndarray -> Models * list Qc;
  (* the Horovod callbacks run by on_train_begin *)
  on_train_begin : Models -> Models;
  (* whether a path matches a glob pattern *)
  fnmatch : string -> string -> bool;
  (* the random generator: the value of the n-th scalar draw, read as a
     standard normal, as a uniform on [0, 1), as an integer below a bound *)
  normal_draw : nat -> Qc;
  uniform_draw : nat -> Qc;
  randint_draw : nat -> Z -> Z
}.

(** Command line, Horovod topology and the loaded dataset. *)
Record Config : Type := mkConfig {
  nb_epochs : Z;
  batch_size : Z;
  latent_size : Z;
  nb_classes : Z;
  maintain_gen_loss_below : Qc;
  train_gen_per_epoch : Z;
  weights_averaging_coeff : Qc;
  load_model : bool;
  save_model : bool;
  load_weights : bool;
  process0 : bool;
  no_delete : bool;
  save_all_epochs : bool;
  g_pfx : string;
  d_pfx : string;
  c_pfx : string;
  hvd_rank : Z;
  hvd_size : Z;
  first : list (list Qc);
  second : list (list Qc);
  third : list (list Qc);
  y : list Z;
  energy : list (list Qc)
}.

(** ** The effect monad *)

Record outcome (A : Type) : Type := mkOutcome {
  log : list call;
  world : World;
  res : result A
}.
Arguments mkOutcome {A} log world res.
Arguments log {A} o.
Arguments world {A} o.
Arguments res {A} o.

Definition M (A : Type) : Type := World -> outcome A.

Definition ret {A} (a : A) : M A :=
  fun w => mkOutcome [] w (Ok a).

Definition raise {A} (e : exn) : M A :=
  fun w => mkOutcome [] w (Raise e).

Definition bind {A B} (m : M A) (k : A -> M B) : M B :=
  fun w =>
    let o := m w in
    match res o with
    | Ok a =>
        let o' := k a (world o) in
        mkOutcome (log o ++ log o') (world o') (res o')
    | Raise e => mkOutcome (log o) (world o) (Raise e)
    end.

Declare Scope M_scope.
Delimit Scope M_scope with M.
Notation "x <- m ;; k" := (bind m (fun x => k))
  (at level 100, m at next level, right associativity) : M_scope.
Notation "m ;;; k" := (bind m (fun _ => k))
  (at level 100, right associativity) : M_scope.
Local Open Scope M_scope.

Definition get_world : M World := fun w => mkOutcome [] w (Ok w).
Definition put_world (w : World) : M unit := fun _ => mkOutcome [] w (Ok tt).
Definition emit (c : call) : M unit := fun w => mkOutcome [c] w (Ok tt).
Definition lift {A} (r : result A) : M A := fun w => mkOutcome [] w r.

(** [for x in xs: s = body(x, s)] *)
Fixpoint for_each {A S} (xs : list A) (body : A -> S -> M S) (s : S) : M S :=
  match xs with
  | [] => ret s
  | x :: xs' => s' <- body x s ;; for_each xs' body s'
  end.

(** [range(n)] *)
Definition range (n : Z) : list Z := map Z.of_nat (seq 0 (Z.to_nat n)).

(** ** Floating-point numbers *)

(** A binary format: the number of bits of the significand and the exponent
    of the smallest positive number.  Keras holds the weights as float32
    arrays (its default float type, which the script does not change); a
    Python float is a float64. *)
Record float_format : Type := mkFormat {
  precision : Z;
  emin : Z
}.
Definition binary32 : float_format := {| precision := 24; emin := -149 |}.
Definition binary64 : float_format := {| precision := 53; emin := -1074 |}.

(** The integer part of the binary logarithm of a positive rational. *)
Definition Qlog2 (q : Q) : Z :=
  if Qle_bool 1 q then Z.log2 (Qfloor q) else - Z.log2_up (Qceiling (/ q)).

(** The nearest integer, the even one of two that are equally near. *)
Definition Qround_even (q : Q) : Z :=
  let n := Qfloor q in
  match (q - inject_Z n ?= 1 # 2)%Q with
  | Lt => n
  | Gt => n + 1
  | Eq => if Z.even n then n else n + 1
  end.

(** The exponent of the unit in the last place of the floats around [q]:
    [precision] bits below the leading bit, and never below [emin]
    (gradual underflow). *)
Definition ulp_exponent (fmt : float_format) (q : Q) : Z :=
  Z.max (Qlog2 (Qabs q) - (precision fmt - 1)) (emin fmt).

(** Rounding to nearest, ties to even. *)
Definition round_Q (fmt : float_format) (q : Q) : Q :=
  if Qeq_bool q 0 then 0%Q
  else
    let e := ulp_exponent fmt q in
    (inject_Z (Qround_even (q / 2 ^ e)) * 2 ^ e)%Q.

Definition round_float (fmt : float_format) (x : Qc) : Qc := Q2Qc (round_Q fmt x).

(** [np.float32(x)] and [float(x)] *)
Definition float32 : Qc -> Qc := round_float binary32.
Definition float64 : Qc -> Qc := round_float binary64.

(** ** numpy helpers *)

Definition np_ones (n : Z) : list Qc := repeat 1%Qc (Z.to_nat n).
Definition np_zeros (n : Z) : list Qc := repeat 0%Qc (Z.to_nat n).

(** [c * v] for a scalar [c] *)
Definition scale (c : Qc) (v : list Qc) : list Qc := map (Qcmult c) v.

(** [a[lo:hi]] for [0 <= lo <= hi]; the slice is clipped to the array. *)
Definition slice {A} (a : list A) (lo hi : Z) : list A :=
  firstn (Z.to_nat (hi - lo)) (skipn (Z.to_nat lo) a).

Definition min_length {A} (ls : list (list A)) : nat :=
  match ls with
  | [] => 0%nat
  | l :: ls' => foldr (fun l' m => Nat.min (length l') m) (length l) ls'
  end.

(** [zip] applied to the unpacked [ls]: the i-th tuple holds the i-th entry
    of every list; there are as many tuples as the shortest list has
    entries. *)
Definition zip_star {A} (ls : list (list A)) : list (list A) :=
  map (fun i => omap (fun l => l !! i) ls) (seq 0 (min_length ls)).

Definition sum_Qc (v : list Qc) : Qc := foldr Qcplus 0%Qc v.

Definition Qc_of_nat (n : nat) : Qc := Q2Qc (inject_Z (Z.of_nat n)).

(** [np.mean(np.array(rows), axis=0)] for loss vectors of one length, the
    values taken as rationals. *)
Definition mean_axis0 (rows : list (list Qc)) : list Qc :=
  map (fun col => (sum_Qc col / Qc_of_nat (length rows))%Qc) (zip_star rows).

(** The sum of a float32 array along an axis: numpy starts from zero and
    adds the entries in order, every sum rounded.  (That is the order of
    the sum down a stack of rows, and of the sum of up to seven scalars;
    longer arrays of scalars are summed in blocks.) *)
Definition float32_sum (v : list Qc) : Qc :=
  fold_left (fun s x => float32 (s + x)%Qc) v 0%Qc.

(** [np.array(weights_).mean(axis=0)] at lines 680 and 697, for float32
    rows of one shape, one row per worker: the sum down every column,
    divided by the number of rows. *)
Definition float32_mean_axis0 (rows : list (list Qc)) : list Qc :=
  map (fun col => float32 (float32_sum col / float32 (Qc_of_nat (length rows)))%Qc)
      (zip_star rows).

(** [c*a + (1.0-c)*b] at lines 683 and 700 on entries of float32 arrays,
    for a Python float [c]: the difference [1.0-c] is a float64, both
    factors are cast to the type of the arrays, the products and the sum
    are rounded.  (The scalar slices of a tensor of one axis are blended
    in double precision by numpy 1 and cast to float32 by Keras; for
    [c = 1] that is [a] as well.) *)
Definition float32_blend (c a b : Qc) : Qc :=
  float32 (float32 (float32 c * a) + float32 (float32 (float64 (1 - c)) * b))%Qc.

(** Values of [np.mean(..., axis=0)] in [train_gan]: the mean of an empty
    list is the scalar nan, otherwise a vector. *)
Inductive npvalue : Type :=
| NaN
| Vector (v : list Qc).

(** [np.mean(np.array(losses), axis=0)] for a list of loss vectors. *)
Definition np_mean_losses (losses : list (list Qc)) : npvalue :=
  match losses with
  | [] => NaN
  | _ => Vector (mean_axis0 losses)
  end.

Definition vector_of (v : npvalue) : option (list Qc) :=
  match v with
  | NaN => None
  | Vector l => Some l
  end.

(** [np.mean(values, axis=0)] for the per-step means: every step appends a
    value of the same kind, so the list holds vectors only or nan only; nan
    entries give nan. *)
Definition np_mean_values (values : list npvalue) : npvalue :=
  match mapM vector_of values with
  | Some rows => np_mean_losses rows
  | None => NaN
  end.

(** [v[0]]: indexing the scalar nan or an empty vector raises IndexError. *)
Definition item0 (v : npvalue) : result Qc :=
  match v with
  | Vector (a :: _) => Ok a
  | _ => Raise IndexError
  end.

(** Local variables of one call of [train_gan] that outlive a loop
    iteration.  [real_batch_loss] and [fake_batch_loss] are unbound until
    the gated block has run once. *)
Module Locals.
Record t : Type := mk {
  real_batch_loss : option (list Qc);
  fake_batch_loss : option (list Qc);
  epoch_gen_loss : list npvalue;
  epoch_disc_loss : list (list Qc);
  last_epoch_disc_loss : option Qc;
  last_epoch_gen_lss : option Qc
}.
Definition initial : t :=
  {| real_batch_loss := None; fake_batch_loss := None;
     epoch_gen_loss := []; epoch_disc_loss := [];
     last_epoch_disc_loss := None; last_epoch_gen_lss := None |}.
End Locals.

Definition set_models (w : World) (m : Models) : World :=
  mkWorld m (files w) (clock w) (rng w) (globals w).
Definition set_files (w : World) (fs : list File) : World :=
  mkWorld (models w) fs (clock w) (rng w) (globals w).
Definition advance_rng (w : World) (n : nat) : World :=
  mkWorld (models w) (files w) (clock w) (rng w + n)%nat (globals w).


(** ** Strings: digits, formatting *)

(** [ch in '0123456789'] *)
Definition is_digit (ch : ascii) : bool :=
  existsb (Ascii.eqb ch) (list_ascii_of_string "0123456789").

(** [''.join((ch if ch in '0123456789' else ' ') for ch in s)] *)
Fixpoint blank_non_digits (s : string) : string :=
  match s with
  | EmptyString => EmptyString
  | String ch s' =>
      String (if is_digit ch then ch else " "%char) (blank_non_digits s')
  end.

(** The white space of [str.split()] among the characters below 128: the
    space, the codes 9 to 13 and the separators 28 to 31. *)
Definition is_space (ch : ascii) : bool :=
  let n := nat_of_ascii ch in
  (n =? 32)%nat || ((9 <=? n)%nat && (n <=? 13)%nat)
  || ((28 <=? n)%nat && (n <=? 31)%nat).

(** [s.split()]: the maximal runs without white space; [cur] is the run
    being read, reversed. *)
Fixpoint split_go (s : string) (cur : list ascii) : list string :=
  match s with
  | EmptyString =>
      match cur with
      | [] => []
      | _ => [string_of_list_ascii (rev cur)]
      end
  | String ch s' =>
      if is_space ch then
        match cur with
        | [] => split_go s' []
        | _ => string_of_list_ascii (rev cur) :: split_go s' []
        end
      else split_go s' (ch :: cur)
  end.

Definition split (s : string) : list string := split_go s [].

Definition digit_value (ch : ascii) : Z := Z.of_nat (nat_of_ascii ch) - 48.

(** The number written by a string of decimal digits. *)
Definition Z_of_digits (s : string) : Z :=
  fold_left (fun acc ch => 10 * acc + digit_value ch) (list_ascii_of_string s) 0.

(** The first maximal run of digits of a string, if it has a digit. *)
Fixpoint take_digits (s : string) : string :=
  match s with
  | EmptyString => EmptyString
  | String ch s' => if is_digit ch then String ch (take_digits s') else EmptyString
  end.

Fixpoint first_digit_run (s : string) : option string :=
  match s with
  | EmptyString => None
  | String ch s' =>
      if is_digit ch then Some (String ch (take_digits s')) else first_digit_run s'
  end.

(** Python floats that [getLastEpoch] can meet: a double holding an
    integer, or infinity. *)
Inductive pyfloat : Type :=
| Finite (z : Z)
| Infinity.

(** The double nearest to a natural number (ties to even); numbers that
    round to [2^1024] or more give infinity. *)
Definition round_to_double (n : Z) : pyfloat :=
  let k := Z.log2 n in
  if k <? 53 then Finite n
  else
    let e := k - 52 in
    let q := Z.shiftr n e in
    let r := n - Z.shiftl q e in
    let half := Z.shiftl 1 (e - 1) in
    let q' := if (half <? r) || ((r =? half) && Z.odd q) then q + 1 else q in
    let v := Z.shiftl q' e in
    if 2 ^ 1024 <=? v then Infinity else Finite v.

(** [float(i)] for a token made of digits. *)
Definition float_of_digits (i : string) : pyfloat := round_to_double (Z_of_digits i).

(** [int(x)] *)
Definition int_of_float (x : pyfloat) : result Z :=
  match x with
  | Finite z => Ok z
  | Infinity => Raise OverflowError
  end.

(** ['{:0Wd}'.format(z)]: decimal, zero-padded to [width] characters, the
    sign counted in the width. *)
Definition zero_pad (width : nat) (s : string) : string :=
  string_of_list_ascii (repeat "0"%char (width - String.length s)) +:+ s.

Definition format_d (width : nat) (z : Z) : string :=
  if z <? 0 then "-" +:+ zero_pad (width - 1) (pretty (Z.abs z))
  else zero_pad width (pretty z).

(** [max(first :: rest, key=key)]: the first entry whose key is maximal. *)
Fixpoint max_by_key {A} (key : A -> Z) (best : A) (rest : list A) : A :=
  match rest with
  | [] => best
  | x :: rest' =>
      if key best <? key x then max_by_key key x rest'
      else max_by_key key best rest'
  end.

Section Script.
Context (K : Collaborators) (cfg : Config).

(** *** Random draws *)

(** [np.random.normal(0, 1, (rows, cols))] *)
Definition np_random_normal (rows cols : Z) : M (list (list Qc)) :=
  if (rows <? 0) || (cols <? 0) then raise ValueError
  else fun w =>
    let r := Z.to_nat rows in
    let c := Z.to_nat cols in
    mkOutcome [] (advance_rng w (r * c))
      (Ok (map (fun i => map (normal_draw K) (seq (rng w + i * c) c)) (seq 0 r))).

(** [np.random.uniform(low, high, n)]: [low + (high - low) * u] with [u]
    drawn from [0, 1). *)
Definition np_random_uniform (low high : Qc) (n : Z) : M (list Qc) :=
  if n <? 0 then raise ValueError
  else fun w =>
    mkOutcome [] (advance_rng w (Z.to_nat n))
      (Ok (map (fun i => (low + (high - low) * uniform_draw K i)%Qc)
               (seq (rng w) (Z.to_nat n)))).

(** [np.random.uniform(low, high, (n, 1))] *)
Definition np_random_uniform_column (low high : Qc) (n : Z) : M (list (list Qc)) :=
  u <- np_random_uniform low high n ;; ret (map (fun v => [v]) u).

(** [np.random.randint(0, high, n)] *)
Definition np_random_randint (high : Z) (n : Z) : M (list Z) :=
  if (high <=? 0) || (n <? 0) then raise ValueError
  else fun w =>
    mkOutcome [] (advance_rng w (Z.to_nat n))
      (Ok (map (fun i => randint_draw K i high) (seq (rng w) (Z.to_nat n)))).

(** [bit_flip(x, prob)] as the training loop sees it: the argument is not
    written to (see [bit_flip_heap]), the result holds the flipped copy. *)
Definition bit_flip (x : list Z) (prob : Qc) : M (list Z) :=
  u <- np_random_uniform 0%Qc 1%Qc (Z.of_nat (length x)) ;;
  ret (bit_flip_values x u prob).

(** *** Calls on the models *)

Definition generator_predict (x : list ndarray) : M (list ndarray) :=
  fun w => mkOutcome [GeneratorPredict x] w (Ok (predict K (models w) x)).

Definition discriminator_train_on_batch (x y sample_weight : list ndarray)
  : M (list Qc) :=
  fun w =>
    let r := discriminator_step K (models w) x y sample_weight in
    mkOutcome [DiscriminatorTrainOnBatch x y sample_weight]
              (set_models w (fst r)) (Ok (snd r)).

Definition combined_train_on_batch (x y sample_weight : list ndarray)
  : M (list Qc) :=
  fun w =>
    let r := combined_step K (models w) x y sample_weight in
    mkOutcome [CombinedTrainOnBatch x y sample_weight]
              (set_models w (fst r)) (Ok (snd r)).

(** *** train_gan (lines 473-579) *)

(** [nb_classes > 1]: the ACGAN case *)
Definition acgan : bool := 1 <? nb_classes cfg.

(** The condition of line 525 on the value of [last_epoch_gen_loss]:
    [(x is None) or (x < maintain_gen_loss_below) or (epoch < 10)]. *)
Definition gate_open (last_epoch_gen_loss : option Qc) (epoch : Z) : bool :=
  match last_epoch_gen_loss with
  | None => true
  | Some l => bool_decide (l < maintain_gen_loss_below cfg)%Qc || (epoch <? 10)
  end.

(** Reading the module-level variables. *)
Definition get_globals : M Globals.t :=
  fun w => mkOutcome [] w (Ok (globals w)).

(** One pass of the inner loop of lines 554-570. *)
Definition generator_update (trick : list Qc) (loss_weights : list ndarray)
           (gen_losses : list (list Qc)) : M (list (list Qc)) :=
  noise <- np_random_normal (batch_size cfg) (latent_size cfg) ;;
  sampled_energies <- np_random_uniform_column 1%Qc (Q2Qc 100) (batch_size cfg) ;;
  let combined_inputs := [Float2 noise; Float2 sampled_energies] in
  let combined_outputs := [Float1 trick; Float2 sampled_energies] in
  io <- (if acgan then
           sampled_labels <- np_random_randint (nb_classes cfg) (batch_size cfg) ;;
           ret (combined_inputs ++ [Int1 sampled_labels],
                combined_outputs ++ [Int1 sampled_labels])
         else ret (combined_inputs, combined_outputs)) ;;
  l <- combined_train_on_batch (fst io) (snd io) loss_weights ;;
  ret (gen_losses ++ [l]).

(** The body of the loop over batches (lines 490-572). *)
Definition train_step (epoch index : Z) (loc : Locals.t) : M Locals.t :=
  let bs := batch_size cfg in
  noise <- np_random_normal bs (latent_size cfg) ;;
  let image_batch_1 := slice (first cfg) (index * bs) ((index + 1) * bs) in
  let image_batch_2 := slice (second cfg) (index * bs) ((index + 1) * bs) in
  let image_batch_3 := slice (third cfg) (index * bs) ((index + 1) * bs) in
  let label_batch := slice (y cfg) (index * bs) ((index + 1) * bs) in
  let energy_batch := slice (energy cfg) (index * bs) ((index + 1) * bs) in
  sampled_labels <- np_random_randint (nb_classes cfg) bs ;;
  sampled_energies <- np_random_uniform_column 1%Qc (Q2Qc 100) bs ;;
  let generator_inputs :=
    [Float2 noise; Float2 sampled_energies]
      ++ (if acgan then [Int1 sampled_labels] else []) in
  generated_images <- generator_predict generator_inputs ;;
  let disc_outputs_real := [Float1 (np_ones bs); Float2 energy_batch] in
  let disc_outputs_fake := [Float1 (np_zeros bs); Float2 sampled_energies] in
  let loss_weights :=
    [Float1 (np_ones bs); Float1 (scale (Q2Qc 0.05) (np_ones bs))] in
  targets <- (if acgan then
                flipped <- bit_flip sampled_labels (Q2Qc 0.3) ;;
                ret (disc_outputs_real ++ [Int1 label_batch],
                     disc_outputs_fake ++ [Int1 flipped],
                     loss_weights ++ [Float1 (scale (Q2Qc 0.2) (np_ones bs))])
              else ret (disc_outputs_real, disc_outputs_fake, loss_weights)) ;;
  let disc_outputs_real := fst (fst targets) in
  let disc_outputs_fake := snd (fst targets) in
  let loss_weights := snd targets in
  g <- get_globals ;;
  loc <- (if gate_open (Globals.last_epoch_gen_loss g) epoch then
            real_batch_loss <- discriminator_train_on_batch
              [Float2 image_batch_1; Float2 image_batch_2; Float2 image_batch_3;
               Float2 energy_batch]
              disc_outputs_real loss_weights ;;
            fake_batch_loss <- discriminator_train_on_batch
              (generated_images ++ [Float2 sampled_energies])
              disc_outputs_fake loss_weights ;;
            ret (Locals.mk (Some real_batch_loss) (Some fake_batch_loss)
                   (Locals.epoch_gen_loss loc) (Locals.epoch_disc_loss loc)
                   (Locals.last_epoch_disc_loss loc) (Locals.last_epoch_gen_lss loc))
          else ret loc) ;;
  (* line 542: the names are read, bound or not *)
  fake <- match Locals.fake_batch_loss loc with
          | Some l => ret l
          | None => raise (UnboundLocalError "fake_batch_loss")
          end ;;
  real <- match Locals.real_batch_loss loc with
          | Some l => ret l
          | None => raise (UnboundLocalError "real_batch_loss")
          end ;;
  let epoch_disc_loss :=
    Locals.epoch_disc_loss loc
      ++ [zip_with (fun f r => ((f + r) / Q2Qc 2)%Qc) fake real] in
  let trick := np_ones bs in
  gen_losses <- for_each (range (2 * train_gen_per_epoch cfg))
                  (fun _ => generator_update trick loss_weights) [] ;;
  ret (Locals.mk (Locals.real_batch_loss loc) (Locals.fake_batch_loss loc)
         (Locals.epoch_gen_loss loc ++ [np_mean_losses gen_losses])
         epoch_disc_loss
         (Locals.last_epoch_disc_loss loc) (Locals.last_epoch_gen_lss loc)).

(** [train_gan(epoch, nb_batches)].  Lines 578-579 assign names that are
    local to the function: the module-level [last_epoch_gen_loss] read at
    line 525 is not among them.  The result is the frame of local variables
    at the end of the call (the Python function returns None). *)
Definition train_gan (epoch nb_batches : Z) : M Locals.t :=
  loc <- for_each (range nb_batches) (train_step epoch) Locals.initial ;;
  d <- lift (item0 (np_mean_losses (Locals.epoch_disc_loss loc))) ;;
  g <- lift (item0 (np_mean_values (Locals.epoch_gen_loss loc))) ;;
  ret (Locals.mk (Locals.real_batch_loss loc) (Locals.fake_batch_loss loc)
         (Locals.epoch_gen_loss loc) (Locals.epoch_disc_loss loc)
         (Some d) (Some g)).

(** *** Checkpoint files *)

(** [glob.glob(mask)]: the directory entries whose path matches. *)
Definition glob_entries (dir : list File) (mask : string) : list File :=
  filter (fun f => Is_true (fnmatch K mask (path f))) dir.

Definition glob (mask : string) : M (list string) :=
  fun w => mkOutcome [] w (Ok (map path (glob_entries (files w) mask))).

(** [getLastEpoch(filenamemask)] (lines 586-595) on a directory. *)
Definition get_last_epoch (dir : list File) (filenamemask : string) : result Z :=
  match glob_entries dir filenamemask with
  | [] => Ok (-1)
  | f :: fs =>
      let latest_file := path (max_by_key ctime f fs) in
      let newstr := blank_non_digits latest_file in
      let listOfNumbers := map float_of_digits (split newstr) in
      match listOfNumbers with
      | [] => Raise IndexError
      | x :: _ => int_of_float x
      end
  end.

Definition getLastEpoch (filenamemask : string) : M Z :=
  fun w => mkOutcome [] w (get_last_epoch (files w) filenamemask).

(** [if len(glob.glob(filename))==0: raise Exception(... filename ...)] *)
Definition require_file (what filename : string) : M unit :=
  found <- glob filename ;;
  if (length found =? 0)%nat
  then raise (Exception (what +:+ filename +:+ " not found"))
  else ret tt.

(** Reading a file by its name: [np.load] and [Model.load_weights]. *)
Definition read_file (filename : string) : M Weights :=
  fun w =>
    mkOutcome [] w
      (match find (fun f => String.eqb (path f) filename) (files w) with
       | Some f => Ok (content f)
       | None => Raise (OSError filename)
       end).

(** Writing a file: [save_weights(..., overwrite=True)] and [np.save]. *)
Definition write_file (filename : string) (c : Weights) : M unit :=
  fun w =>
    let f := mkFile filename (clock w) c in
    let fs :=
      if existsb (fun g => String.eqb (path g) filename) (files w)
      then map (fun g => if String.eqb (path g) filename then f else g) (files w)
      else files w ++ [f] in
    mkOutcome [] (mkWorld (models w) fs (clock w + 1) (rng w) (globals w)) (Ok tt).

(** [os.system("rm -rf " + mask)] *)
Definition rm_rf (mask : string) : M unit :=
  fun w =>
    mkOutcome []
      (set_files w (filter (fun f => ~ Is_true (fnmatch K mask (path f))) (files w)))
      (Ok tt).

Definition get_models : M Models := fun w => mkOutcome [] w (Ok (models w)).
Definition update_models (f : Models -> Models) : M unit :=
  fun w => mkOutcome [] (set_models w (f (models w))) (Ok tt).

Definition set_generator_weights (v : Weights) (m : Models) : Models :=
  mkModels v (discriminator_weights m) (generator_optimizer m)
           (discriminator_optimizer m) (combined_optimizer m).
Definition set_discriminator_weights (v : Weights) (m : Models) : Models :=
  mkModels (generator_weights m) v (generator_optimizer m)
           (discriminator_optimizer m) (combined_optimizer m).
Definition set_generator_optimizer (v : Weights) (m : Models) : Models :=
  mkModels (generator_weights m) (discriminator_weights m) v
           (discriminator_optimizer m) (combined_optimizer m).
Definition set_discriminator_optimizer (v : Weights) (m : Models) : Models :=
  mkModels (generator_weights m) (discriminator_weights m) (generator_optimizer m)
           v (combined_optimizer m).
Definition set_combined_optimizer (v : Weights) (m : Models) : Models :=
  mkModels (generator_weights m) (discriminator_weights m) (generator_optimizer m)
           (discriminator_optimizer m) v.

(** The block the script repeats for every artifact it restores (lines
    609-615, 618-624, 627-633, 651-657, 660-666, 672-676, 689-693): the file
    must be found by [glob], then it is read and handed to the model through
    [set]. *)
Definition load_artifact (what filename : string)
           (set : Weights -> Models -> Models) : M unit :=
  require_file what filename ;;;
  loaded <- read_file filename ;;
  update_models (set loaded).

(** Line 582 *)
Definition rank_to_load : Z := if process0 cfg then 0 else hvd_rank cfg.

(** ['{0}{1:04d}_{2:03d}' + ext] *)
Definition checkpoint_name (pfx : string) (epoch rank : Z) (ext : string) : string :=
  pfx +:+ format_d 4 epoch +:+ "_" +:+ format_d 3 rank +:+ ext.

(** ['{0}*_{1:03d}' + ext] *)
Definition checkpoint_mask (pfx : string) (rank : Z) (ext : string) : string :=
  pfx +:+ "*_" +:+ format_d 3 rank +:+ ext.

(** Lines 604-637, entered when [load_model and last_epoch > -1]. *)
Definition restore_optimizer_states (last_epoch : Z) : M unit :=
  _ <- train_gan 0 1 ;;
  load_artifact "Generator optimizer state file "
    (checkpoint_name (g_pfx cfg) last_epoch rank_to_load ".optimizer")
    set_generator_optimizer ;;;
  load_artifact "Discriminator optimizer state file "
    (checkpoint_name (d_pfx cfg) last_epoch rank_to_load ".optimizer")
    set_discriminator_optimizer ;;;
  load_artifact "Combined optimizer state file "
    (checkpoint_name (c_pfx cfg) last_epoch rank_to_load ".optimizer")
    set_combined_optimizer ;;;
  if no_delete cfg then ret tt else rm_rf "*.optimizer".

(** Lines 678-683: the mean over the workers, then the blend with the
    worker's own weights. *)
Definition mean_over_workers (all_weights : list Weights) : Weights :=
  map (fun weights_list_tuple => map float32_mean_axis0 (zip_star weights_list_tuple))
      (zip_star all_weights).

(** [weights_averaging_coeff*np.array(weights_[0])
     + (1.0-weights_averaging_coeff)*np.array(weights_[1])] *)
Definition blend (coeff : Qc) (weights_ : list (list Qc)) : list Qc :=
  match weights_ with
  | w0 :: w1 :: _ => zip_with (float32_blend coeff) w0 w1
  | _ => []
  end.

Definition blend_weights (coeff : Qc) (new_weights this_weights : Weights) : Weights :=
  map (fun weights_list_tuple => map (blend coeff) (zip_star weights_list_tuple))
      (zip_star [new_weights; this_weights]).

(** Lines 669-684 for one network: [pfx] names its files, [get] and [set]
    are its [get_weights] and [set_weights]. *)
Definition average_network (what pfx : string) (last_epoch : Z)
           (get : Models -> Weights) (set : Weights -> Models -> Models) : M unit :=
  m <- get_models ;;
  let this_weights := get m in
  all_weights <- for_each (range (hvd_size cfg))
    (fun rank all_weights =>
       load_artifact what (checkpoint_name pfx last_epoch rank ".weights") set ;;;
       m <- get_models ;;
       ret (all_weights ++ [get m]))
    [] ;;
  let new_weights := mean_over_workers all_weights in
  let weights_to_load :=
    blend_weights (weights_averaging_coeff cfg) new_weights this_weights in
  update_models (set weights_to_load).

(** Lines 645-706, entered when
    [(load_weights or load_model) and last_epoch > -1]. *)
Definition restore_weights (last_epoch : Z) : M Z :=
  last_epoch <- (if load_model cfg then ret last_epoch
                 else getLastEpoch (d_pfx cfg +:+ "*.weights")) ;;
  load_artifact "Generator weights file "
    (checkpoint_name (g_pfx cfg) last_epoch rank_to_load ".weights")
    set_generator_weights ;;;
  load_artifact "Generator weights file "
    (checkpoint_name (d_pfx cfg) last_epoch rank_to_load ".weights")
    set_discriminator_weights ;;;
  (if bool_decide (weights_averaging_coeff cfg = 0%Qc) then ret tt
   else
     average_network "Generator weights file " (g_pfx cfg) last_epoch
       generator_weights set_generator_weights ;;;
     average_network "Generator weights file " (d_pfx cfg) last_epoch
       discriminator_weights set_discriminator_weights) ;;;
  (if no_delete cfg then ret tt else rm_rf "*.weights") ;;;
  ret last_epoch.

(** Lines 581-706: what the script does before training starts.  The
    result is the value of [last_epoch]. *)
Definition resume : M Z :=
  let last_epoch := -1 in
  last_epoch <- (if load_model cfg
                 then getLastEpoch (checkpoint_mask (c_pfx cfg) rank_to_load ".optimizer")
                 else ret last_epoch) ;;
  (if load_model cfg && (-1 <? last_epoch)
   then restore_optimizer_states last_epoch else ret tt) ;;;
  last_epoch <- (if load_weights cfg && negb (load_model cfg)
                 then getLastEpoch (checkpoint_mask (d_pfx cfg) rank_to_load ".weights")
                 else ret last_epoch) ;;
  if (load_weights cfg || load_model cfg) && (-1 <? last_epoch)
  then restore_weights last_epoch
  else ret last_epoch.

(** *** The epoch loop (lines 727-757) *)

(** [int(first.shape[0] / batch_size)] *)
Definition nb_batches : result Z :=
  if batch_size cfg =? 0 then Raise ZeroDivisionError
  else Ok (Z.quot (Z.of_nat (length (first cfg))) (batch_size cfg)).

Definition save_checkpoint (epoch : Z) : M unit :=
  m <- get_models ;;
  write_file (checkpoint_name (g_pfx cfg) epoch (hvd_rank cfg) ".weights")
             (generator_weights m) ;;;
  write_file (checkpoint_name (d_pfx cfg) epoch (hvd_rank cfg) ".weights")
             (discriminator_weights m) ;;;
  if save_model cfg then
    write_file (checkpoint_name (g_pfx cfg) epoch (hvd_rank cfg) ".optimizer")
               (generator_optimizer m) ;;;
    write_file (checkpoint_name (d_pfx cfg) epoch (hvd_rank cfg) ".optimizer")
               (discriminator_optimizer m) ;;;
    write_file (checkpoint_name (c_pfx cfg) epoch (hvd_rank cfg) ".optimizer")
               (combined_optimizer m)
  else ret tt.

Definition run_epoch (last_epoch : Z) (epoch : Z) (_ : unit) : M unit :=
  n <- lift nb_batches ;;
  _ <- train_gan epoch n ;;
  if ((hvd_rank cfg =? 0) || negb (process0 cfg))
     && (save_all_epochs cfg || (epoch =? nb_epochs cfg + last_epoch))
  then save_checkpoint epoch
  else ret tt.

(** [range(last_epoch+1, nb_epochs+last_epoch+1)] *)
Definition epochs (last_epoch : Z) : list Z :=
  map (fun i => last_epoch + 1 + i) (range (nb_epochs cfg)).

Definition run_epochs (last_epoch : Z) : M unit :=
  for_each (epochs last_epoch) (run_epoch last_epoch) tt.

(** The script from line 470 on. *)
Definition main : M unit :=
  last_epoch <- resume ;;
  update_models (on_train_begin K) ;;;
  run_epochs last_epoch.

End Script.

(** ** Targets and weights, as the specification words them *)

Section Targets.
Context (cfg : Config).

(** One value per example of a batch. *)
Definition per_example (c : Qc) : ndarray :=
  Float1 (repeat c (Z.to_nat (batch_size cfg))).

(** Present only when there is more than one class. *)
Definition class_part (a : ndarray) : list ndarray :=
  if 1 <? nb_classes cfg then [a] else [].

(** Realism weight 1.0, energy weight 0.05, class weight 0.2. *)
Definition loss_weight_vector : list ndarray :=
  [per_example 1%Qc; per_example (Q2Qc 0.05)] ++ class_part (per_example (Q2Qc 0.2)).

(** The [index]-th contiguous batch of a dataset array. *)
Definition batch_of {A} (a : list A) (index : Z) : list A :=
  slice a (index * batch_size cfg) ((index + 1) * batch_size cfg).

Definition real_inputs (index : Z) : list ndarray :=
  [Float2 (batch_of (first cfg) index); Float2 (batch_of (second cfg) index);
   Float2 (batch_of (third cfg) index); Float2 (batch_of (energy cfg) index)].

(** Realism 1, the true energy, the true labels. *)
Definition real_targets (index : Z) : list ndarray :=
  [per_example 1%Qc; Float2 (batch_of (energy cfg) index)]
    ++ class_part (Int1 (batch_of (y cfg) index)).

(** Realism 0, the requested energy, the (noisy) requested labels. *)
Definition fake_targets (requested_energy : list (list Qc)) (noisy_labels : list Z)
  : list ndarray :=
  [per_example 0%Qc; Float2 requested_energy] ++ class_part (Int1 noisy_labels).

(** What is asked of the generator: noise, energy and, with several
    classes, the class. *)
Definition request (noise requested_energy : list (list Qc))
           (requested_labels : list Z) : list ndarray :=
  [Float2 noise; Float2 requested_energy] ++ class_part (Int1 requested_labels).

(** Realism 1, the requested energy, the requested labels. *)
Definition trick_targets (requested_energy : list (list Qc))
           (requested_labels : list Z) : list ndarray :=
  [per_example 1%Qc; Float2 requested_energy] ++ class_part (Int1 requested_labels).

(** A generator update with the trick targets and the fixed weights. *)
Definition trick_call (c : call) : Prop :=
  exists noise requested_energy requested_labels,
    c = CombinedTrainOnBatch (request noise requested_energy requested_labels)
          (trick_targets requested_energy requested_labels) loss_weight_vector.

(** The gate: no generator loss recorded yet, or the recorded loss below
    the ceiling, or a warm-up epoch. *)
Definition gate_condition (recorded : option Qc) (epoch : Z) : Prop :=
  recorded = None \/
  (exists l, recorded = Some l /\ (l < maintain_gen_loss_below cfg)%Qc) \/
  epoch < 10.

End Targets.

(** Calls by receiver. *)
Definition is_discriminator_call (c : call) : bool :=
  match c with
  | DiscriminatorTrainOnBatch _ _ _ => true
  | _ => false
  end.

(** What the generator receives: [generator.predict] and the updates through
    [combined.train_on_batch]. *)
Definition is_generator_call (c : call) : bool :=
  match c with
  | GeneratorPredict _ | CombinedTrainOnBatch _ _ _ => true
  | DiscriminatorTrainOnBatch _ _ _ => false
  end.

Definition is_predict_call (c : call) : bool :=
  match c with
  | GeneratorPredict _ => true
  | _ => false
  end.

Definition count_calls (p : call -> bool) (l : list call) : nat :=
  length (List.filter p l).

Definition discriminator_calls (l : list call) : list call :=
  List.filter is_discriminator_call l.

(** ** The draws of a training step *)

Section Draws.
Context (K : Collaborators) (cfg : Config).

(** The state of the random generator is the number of scalars drawn so
    far.  A step that starts at position [start] draws the noise (line 491),
    then the labels and the energies of the request (lines 500-501) and,
    with several classes, the array of [bit_flip] (line 522). *)
Definition labels_at (start : nat) : nat :=
  (start + Z.to_nat (batch_size cfg) * Z.to_nat (latent_size cfg))%nat.
Definition energies_at (start : nat) : nat :=
  (labels_at start + Z.to_nat (batch_size cfg))%nat.
Definition flips_at (start : nat) : nat :=
  (energies_at start + Z.to_nat (batch_size cfg))%nat.

Definition step_noise (start : nat) : list (list Qc) :=
  map (fun i => map (normal_draw K)
                    (seq (start + i * Z.to_nat (latent_size cfg))
                         (Z.to_nat (latent_size cfg))))
      (seq 0 (Z.to_nat (batch_size cfg))).

Definition step_labels (start : nat) : list Z :=
  map (fun i => randint_draw K i (nb_classes cfg))
      (seq (labels_at start) (Z.to_nat (batch_size cfg))).

Definition step_energies (start : nat) : list (list Qc) :=
  map (fun i => [(1 + (Q2Qc 100 - 1) * uniform_draw K i)%Qc])
      (seq (energies_at start) (Z.to_nat (batch_size cfg))).

(** Label noise at probability [p]: the requested label of example [i] is
    replaced by its logical negation exactly when the [i]-th uniform draw of
    [bit_flip] is below [p]. *)
Definition step_noisy_labels (p : Qc) (start : nat) : list Z :=
  zip_with (fun l i => if bool_decide (uniform_draw K i < p)%Qc
                       then logical_not l else l)
           (step_labels start)
           (seq (flips_at start) (Z.to_nat (batch_size cfg))).

End Draws.

(** ** Required artifacts, as the specification words them *)

Section Artifacts.
Context (K : Collaborators) (cfg : Config).

(** The optimizer-state files of the three models for an epoch, in the order
    in which they are restored. *)
Definition optimizer_artifacts (epoch : Z) : list string :=
  [checkpoint_name (g_pfx cfg) epoch (rank_to_load cfg) ".optimizer";
   checkpoint_name (d_pfx cfg) epoch (rank_to_load cfg) ".optimizer";
   checkpoint_name (c_pfx cfg) epoch (rank_to_load cfg) ".optimizer"].

(** The weights files of the two networks for an epoch. *)
Definition weights_artifacts (epoch : Z) : list string :=
  [checkpoint_name (g_pfx cfg) epoch (rank_to_load cfg) ".weights";
   checkpoint_name (d_pfx cfg) epoch (rank_to_load cfg) ".weights"].

(** A file that [glob] finds and that can be read under its name. *)
Definition present (dir : list File) (name : string) : Prop :=
  glob_entries K dir name <> [] /\
  exists f, find (fun f => String.eqb (path f) name) dir = Some f.

(** [missing] is the first of [names] that [glob] does not find. *)
Definition first_missing (dir : list File) (names : list string) (missing : string)
  : Prop :=
  exists before after,
    names = before ++ missing :: after /\
    Forall (present dir) before /\
    glob_entries K dir missing = [].

End Artifacts.

(** The message contains the name. *)
Definition mentions (msg name : string) : Prop :=
  exists pre post, msg = pre +:+ name +:+ post.

(** ** The cross-worker mean, as the specification words it *)

(** Entry [j] of slice [i] of tensor [k]. *)
Definition entry (W : Weights) (k i j : nat) : Qc :=
  nth j (nth i (nth k W []) []) 0%Qc.

(** The arithmetic mean over the workers of one entry. *)
Definition mean_entry (ws : list Weights) (k i j : nat) : Qc :=
  (sum_Qc (map (fun W => entry W k i j) ws) / Qc_of_nat (length ws))%Qc.

(** The sizes of the tensors and of their slices. *)
Definition shape (W : Weights) : list (list nat) := map (map (@length Qc)) W.

(** The elementwise mean: weights of the shape of the first worker's, every
    entry of which is the mean over the workers of that entry. *)
Definition elementwise_mean (ws : list Weights) : Weights :=
  match ws with
  | [] => []
  | W0 :: _ =>
      map (fun k =>
             map (fun i =>
                    map (fun j => mean_entry ws k i j)
                        (seq 0 (length (nth i (nth k W0 []) []))))
                 (seq 0 (length (nth k W0 []))))
          (seq 0 (length W0))
  end.

(** The weights held by a checkpoint file of the directory. *)
Definition checkpointed (dir : list File) (name : string) : Weights :=
  match find (fun f => String.eqb (path f) name) dir with
  | Some f => content f
  | None => []
  end.

(** ** The cross-worker mean in float32 arithmetic *)

(** The mean over the workers of one entry as float32 arithmetic computes
    it: the entries are added in the order of the workers, every sum
    rounded, and the total is divided by the number of workers. *)
Definition float32_mean_entry (ws : list Weights) (k i j : nat) : Qc :=
  float32 (float32_sum (map (fun W => entry W k i j) ws)
           / float32 (Qc_of_nat (length ws)))%Qc.

(** The elementwise mean in float32 arithmetic. *)
Definition float32_elementwise_mean (ws : list Weights) : Weights :=
  match ws with
  | [] => []
  | W0 :: _ =>
      map (fun k =>
             map (fun i =>
                    map (fun j => float32_mean_entry ws k i j)
                        (seq 0 (length (nth i (nth k W0 []) []))))
                 (seq 0 (length (nth k W0 []))))
          (seq 0 (length W0))
  end.

(** What a checkpoint written by Keras holds, with room for the sums over
    the workers: float32 numbers of magnitude at most [2^100]. *)
Definition float32_number (x : Qc) : Prop :=
  float32 x = x /\
  (- Q2Qc (inject_Z (2 ^ 100)) <= x)%Qc /\ (x <= Q2Qc (inject_Z (2 ^ 100)))%Qc.

Definition float32_weights (W : Weights) : Prop :=
  Forall (Forall (Forall float32_number)) W.

(** ** Concrete collaborators, for running the script on examples *)

Module Scenario.

(** A matcher for patterns whose only wildcard is the star. *)
Fixpoint star_match (pattern name : string) : bool :=
  match pattern with
  | EmptyString =>
      match name with
      | EmptyString => true
      | _ => false
      end
  | String "*"%char pattern' =>
      (fix any_suffix (s : string) : bool :=
         star_match pattern' s ||
         match s with
         | EmptyString => false
         | String _ s' => any_suffix s'
         end) name
  | String ch pattern' =>
      match name with
      | String ch' name' => Ascii.eqb ch ch' && star_match pattern' name'
      | EmptyString => false
      end
  end.

(** Models that answer every update with the same four loss values and
    keep their state; a generator of three empty images; draws that are
    all 0 (normal), all 1/2 (uniform), the position modulo the bound
    (integers). *)
Definition collaborators : Collaborators :=
  {| predict := fun _ _ => [Float2 []; Float2 []; Float2 []];
     discriminator_step := fun m _ _ _ => (m, [Q2Qc 3; Q2Qc 1; Q2Qc 1; Q2Qc 1]);
     combined_step := fun m _ _ _ => (m, [Q2Qc 5; Q2Qc 2; Q2Qc 2; Q2Qc 1]);
     on_train_begin := fun m => m;
     fnmatch := star_match;
     normal_draw := fun _ => 0%Qc;
     uniform_draw := fun _ => Q2Qc (1 # 2);
     randint_draw := fun n high => Z.of_nat n mod high |}.

Definition no_models : Models := mkModels [] [] [] [] [].

Definition world (dir : list File) : World :=
  mkWorld no_models dir 0 0 Globals.initial.

(** Three checkpoints of one worker; the ctimes are given in the order of
    the epochs 1, 7 and 3. *)
Definition three_checkpoints (t1 t7 t3 : Z) : list File :=
  [mkFile "g_0001_000.weights" t1 []; mkFile "g_0007_000.weights" t7 [];
   mkFile "g_0003_000.weights" t3 []].

(** The checkpoints of epoch 3 of two workers. *)
Definition generator_0 : Weights := [[[Q2Qc 1; Q2Qc 2]; [Q2Qc 3; Q2Qc 4]]; [[Q2Qc 5]]].
Definition generator_1 : Weights := [[[Q2Qc 3; Q2Qc 4]; [Q2Qc 5; Q2Qc 8]]; [[Q2Qc 6]]].
Definition discriminator_0 : Weights := [[[Q2Qc 1]]].
Definition discriminator_1 : Weights := [[[Q2Qc 2]]].

Definition two_workers : list File :=
  [mkFile "params_generator_epoch_0003_000.weights" 1 generator_0;
   mkFile "params_discriminator_epoch_0003_000.weights" 2 discriminator_0;
   mkFile "params_generator_epoch_0003_001.weights" 3 generator_1;
   mkFile "params_discriminator_epoch_0003_001.weights" 4 discriminator_1].

(** An empty directory, and a generator loss recorded in the module-level
    variable. *)
Definition world_with_loss (l : Qc) : World :=
  mkWorld no_models [] 0 0 (Globals.mk (Some l) None).

(** Eight events of two classes, one pixel per layer. *)
Definition events : list (list Qc) := repeat [Q2Qc 1] 8.
Definition labels : list Z := [0; 1; 0; 1; 0; 1; 0; 1].

(** Two classes, batches of 4, latent size 8, one epoch; the resume flags,
    the averaging coefficient and the number of workers are parameters. *)
Definition config_with (train_gen_per_epoch : Z) (load_model load_weights : bool)
           (coeff : Qc) (size : Z) : Config :=
  {| nb_epochs := 1; batch_size := 4; latent_size := 8; nb_classes := 2;
     maintain_gen_loss_below := Q2Qc 1000;
     train_gen_per_epoch := train_gen_per_epoch;
     weights_averaging_coeff := coeff;
     load_model := load_model; save_model := false; load_weights := load_weights;
     process0 := false; no_delete := true; save_all_epochs := false;
     g_pfx := "params_generator_epoch_";
     d_pfx := "params_discriminator_epoch_";
     c_pfx := "params_combined_epoch_";
     hvd_rank := 0; hvd_size := size;
     first := events; second := events; third := events;
     y := labels; energy := events |}.

(** No resume. *)
Definition config (train_gen_per_epoch : Z) : Config :=
  config_with train_gen_per_epoch false false 0%Qc 1.

End Scenario.

(** ** Vocabulary of the proofs *)

(** An outcome, after the calls [l]. *)
Definition prepend {A} (l : list call) (o : outcome A) : outcome A :=
  mkOutcome (l ++ log o) (world o) (res o).
Arguments prepend {A} l o /.

(** Only the random generator has moved between two worlds. *)
Definition drew (w w' : World) : Prop :=
  models w' = models w /\ files w' = files w /\
  clock w' = clock w /\ globals w' = globals w.

(** Every call logged by [m] satisfies [P], and a value returned satisfies
    [Q]. *)
Definition always {A} (P : call -> Prop) (Q : A -> Prop) (m : M A) : Prop :=
  forall w, Forall P (log (m w)) /\ forall a, res (m w) = Ok a -> Q a.

(** [m] calls no model and leaves the module-level variables alone. *)
Definition quiet {A} (m : M A) : Prop :=
  forall w, log (m w) = [] /\ globals (world (m w)) = globals w.

(** [m] leaves the part [f] of the world as it was. *)
Definition keeps {X A} (f : World -> X) (m : M A) : Prop :=
  forall w, f (world (m w)) = f w.

(** The module-level variables and the directory. *)
Definition env (w : World) : Globals.t * list File := (globals w, files w).

(** The sample weights of a call are the fixed vector. *)
Definition fixed_weights (cfg : Config) (c : call) : Prop :=
  match c with
  | GeneratorPredict _ => True
  | DiscriminatorTrainOnBatch _ _ sample_weight
  | CombinedTrainOnBatch _ _ sample_weight => sample_weight = loss_weight_vector cfg
  end.

(** ** Vocabulary of the further properties *)

(** More configurations to run the script on. *)
Module Examples.

(** The scenario of eight events with other sizes, flags and ranks. *)
Definition config (nb_epochs batch_size train_gen_per_epoch : Z)
           (load_model save_model load_weights process0 no_delete save_all_epochs : bool)
           (coeff : Qc) (rank size : Z) : Config :=
  {| nb_epochs := nb_epochs; batch_size := batch_size; latent_size := 8;
     nb_classes := 2;
     maintain_gen_loss_below := Q2Qc 1000;
     train_gen_per_epoch := train_gen_per_epoch;
     weights_averaging_coeff := coeff;
     load_model := load_model; save_model := save_model;
     load_weights := load_weights;
     process0 := process0; no_delete := no_delete;
     save_all_epochs := save_all_epochs;
     g_pfx := "params_generator_epoch_";
     d_pfx := "params_discriminator_epoch_";
     c_pfx := "params_combined_epoch_";
     hvd_rank := rank; hvd_size := size;
     first := Scenario.events; second := Scenario.events; third := Scenario.events;
     y := Scenario.labels; energy := Scenario.events |}.


(** The checkpoints of epoch 3 of two workers whose generators hold the
    neighbouring float32 numbers 1 and 1 + 2^-23. *)
Definition neighbour_0 : Weights := [[[1%Qc]]].
Definition neighbour_1 : Weights := [[[Q2Qc (8388609 # 8388608)]]].

Definition neighbours : list File :=
  [mkFile "params_generator_epoch_0003_000.weights" 1 neighbour_0;
   mkFile "params_discriminator_epoch_0003_000.weights" 2 Scenario.discriminator_0;
   mkFile "params_generator_epoch_0003_001.weights" 3 neighbour_1;
   mkFile "params_discriminator_epoch_0003_001.weights" 4 Scenario.discriminator_1].

(** A run from scratch on one worker. *)
Definition fresh (nb_epochs batch_size train_gen_per_epoch : Z) : Config :=
  config nb_epochs batch_size train_gen_per_epoch
         false false false false true false 0%Qc 0 1.

End Examples.

(** No condition on the calls. *)
Definition any_call (c : call) : Prop := True.

(** The losses a step has bound satisfy [good]. *)
Definition bound_losses (good : list Qc -> Prop) (loc : Locals.t) : Prop :=
  (forall l, Locals.fake_batch_loss loc = Some l -> good l) /\
  (forall l, Locals.real_batch_loss loc = Some l -> good l).

(** [loc'] is [loc] after one more step: both losses are bound, and the
    epoch lists have one more entry each, from [passes] generator losses. *)
Definition stepped (goodD goodC : list Qc -> Prop) (passes : nat)
           (loc loc' : Locals.t) : Prop :=
  bound_losses goodD loc' /\
  exists fake real gen_losses,
    goodD fake /\ goodD real /\
    Forall goodC gen_losses /\ length gen_losses = passes /\
    Locals.epoch_disc_loss loc'
    = Locals.epoch_disc_loss loc
        ++ [zip_with (fun f r => ((f + r) / Q2Qc 2)%Qc) fake real] /\
    Locals.epoch_gen_loss loc'
    = Locals.epoch_gen_loss loc ++ [np_mean_losses gen_losses].

(** A value that is a vector of [k] entries. *)
Definition vector_of_length (k : nat) (v : npvalue) : Prop :=
  exists r, v = Vector r /\ length r = k.

(** The lists of an epoch hold loss vectors of the lengths the models
    report. *)
Definition rectangular (kd kc : nat) (loc : Locals.t) : Prop :=
  bound_losses (fun l => length l = kd) loc /\
  Forall (fun l => length l = kd) (Locals.epoch_disc_loss loc) /\
  Forall (vector_of_length kc) (Locals.epoch_gen_loss loc).

(** The configuration with another value of [--maintain-gen-loss-below]. *)
Definition with_ceiling (c : Qc) (cfg : Config) : Config :=
  {| nb_epochs := nb_epochs cfg; batch_size := batch_size cfg;
     latent_size := latent_size cfg; nb_classes := nb_classes cfg;
     maintain_gen_loss_below := c;
     train_gen_per_epoch := train_gen_per_epoch cfg;
     weights_averaging_coeff := weights_averaging_coeff cfg;
     load_model := load_model cfg; save_model := save_model cfg;
     load_weights := load_weights cfg;
     process0 := process0 cfg; no_delete := no_delete cfg;
     save_all_epochs := save_all_epochs cfg;
     g_pfx := g_pfx cfg; d_pfx := d_pfx cfg; c_pfx := c_pfx cfg;
     hvd_rank := hvd_rank cfg; hvd_size := hvd_size cfg;
     first := first cfg; second := second cfg; third := third cfg;
     y := y cfg; energy := energy cfg |}.

(** Two computations that do the same from every state in which no
    generator loss is recorded. *)
Definition agree {A} (m m' : M A) : Prop :=
  forall w, Globals.last_epoch_gen_loss (globals w) = None -> m w = m' w.

(** Every character is a digit; no character is. *)
Fixpoint all_digits (s : string) : bool :=
  match s with
  | EmptyString => true
  | String ch s' => is_digit ch && all_digits s'
  end.

Fixpoint no_digit (s : string) : bool :=
  match s with
  | EmptyString => true
  | String ch s' => negb (is_digit ch) && no_digit s'
  end.

(** The last character is a digit. *)
Fixpoint last_is_digit (s : string) : bool :=
  match s with
  | EmptyString => false
  | String ch EmptyString => is_digit ch
  | String _ s' => last_is_digit s'
  end.

(** The directory has a file [name], and reading it gives [c]. *)
Definition stored (dir : list File) (name : string) (c : Weights) : Prop :=
  exists f, find (fun f => String.eqb (path f) name) dir = Some f /\ content f = c.


(** The calls of [steps] training steps. *)
Definition calls_of_steps (cfg : Config) (steps : nat) (l : list call) : Prop :=
  count_calls is_predict_call l = steps /\
  length (discriminator_calls l) = (2 * steps)%nat /\
  count_calls is_generator_call l
  = (steps * (1 + Z.to_nat (2 * train_gen_per_epoch cfg)))%nat.

(** The optimizer states of the three models. *)
Definition optimizer_states (w : World) : Weights * Weights * Weights :=
  (generator_optimizer (models w), discriminator_optimizer (models w),
   combined_optimizer (models w)).

(** The directory after an optimizer restore. *)
Definition after_optimizer_cleanup (K : Collaborators) (cfg : Config)
           (dir : list File) : list File :=
  if no_delete cfg then dir
  else filter (fun f => ~ Is_true (fnmatch K "*.optimizer" (path f))) dir.

(** The five files of epoch 2 of one worker. *)
Definition full_checkpoint : list File :=
  [mkFile "params_generator_epoch_0002_000.optimizer" 1 [[[Q2Qc 1]]];
   mkFile "params_discriminator_epoch_0002_000.optimizer" 2 [[[Q2Qc 2]]];
   mkFile "params_combined_epoch_0002_000.optimizer" 3 [[[Q2Qc 3]]];
   mkFile "params_generator_epoch_0002_000.weights" 4 Scenario.generator_0;
   mkFile "params_discriminator_epoch_0002_000.weights" 5 Scenario.discriminator_0].

(** Rank 0 saved epoch 4 and later epoch 3 again; rank 1 saved epoch 4
    last. *)
Definition mixed_epochs : list File :=
  [mkFile "params_generator_epoch_0004_000.weights" 1 Scenario.generator_1;
   mkFile "params_discriminator_epoch_0004_000.weights" 2 Scenario.discriminator_1;
   mkFile "params_generator_epoch_0003_000.weights" 3 Scenario.generator_0;
   mkFile "params_discriminator_epoch_0003_000.weights" 4 Scenario.discriminator_0;
   mkFile "params_discriminator_epoch_0004_001.weights" 5 Scenario.discriminator_0].

(** A class index. *)
Definition class_index (cfg : Config) (l : Z) : Prop := 0 <= l < nb_classes cfg.

(** A well-formed request to the generator: [batch_size] noise vectors of
    [latent_size] entries, as many energies in [1, 100) and, with several
    classes, as many class indices. *)
Definition well_formed_request (cfg : Config) (x : list ndarray) : Prop :=
  exists noise energies labels,
    x = [Float2 noise; Float2 energies] ++ (if acgan cfg then [Int1 labels] else []) /\
    length noise = Z.to_nat (batch_size cfg) /\
    Forall (fun row => length row = Z.to_nat (latent_size cfg)) noise /\
    length energies = Z.to_nat (batch_size cfg) /\
    Forall (fun row => exists v, row = [v] /\ (1 <= v)%Qc /\ (v < Q2Qc 100)%Qc)
           energies /\
    (acgan cfg = true ->
     length labels = Z.to_nat (batch_size cfg) /\ Forall (class_index cfg) labels).

(** Every array of integers among the targets holds class indices. *)
Definition class_labels_valid (cfg : Config) (t : list ndarray) : Prop :=
  forall l, In (Int1 l) t -> Forall (class_index cfg) l.

(** The call asks a well-formed question: the request of a prediction or
    of a generator update, the labels among the targets of an update. *)
Definition well_asked (cfg : Config) (c : call) : Prop :=
  match c with
  | GeneratorPredict x => well_formed_request cfg x
  | DiscriminatorTrainOnBatch _ t _ => class_labels_valid cfg t
  | CombinedTrainOnBatch x t _ =>
      well_formed_request cfg x /\ class_labels_valid cfg t
  end.

(** The directory has a file of that name. *)
Definition has_file (dir : list File) (name : string) : Prop :=
  exists c, stored dir name c.

(** * Properties *)

(** ** bit_flip *)

Lemma masked_assign_select (f : Z -> Z) (x : list Z) (sel : list bool) :
  length sel = length x ->
  masked_assign x sel (map f (masked_select x sel))
  = zip_with (fun v (b : bool) => if b then f v else v) x sel.
Proof.
  revert sel. induction x as [|v x IH]; intros [|b sel] Hlen; simpl in *;
    try discriminate; try reflexivity.
  destruct b; simpl; f_equal; apply IH; lia.
Qed.

Lemma bit_flip_values_pointwise (x : list Z) (u : list Qc) (prob : Qc) :
  length u = length x ->
  bit_flip_values x u prob
  = zip_with (fun v d => if bool_decide (d < prob)%Qc then logical_not v else v) x u.
Proof.
  intros Hlen. unfold bit_flip_values, selection.
  rewrite masked_assign_select by (rewrite length_map; exact Hlen).
  clear Hlen. revert u. induction x as [|v x IH]; intros [|d u]; simpl; try reflexivity.
  f_equal. apply IH.
Qed.

Lemma bit_flip_values_none (x : list Z) (u : list Qc) (prob : Qc) :
  length u = length x ->
  Forall (fun d => ~ (d < prob)%Qc) u ->
  bit_flip_values x u prob = x.
Proof.
  intros Hlen Hu. rewrite bit_flip_values_pointwise by exact Hlen.
  revert x Hlen. induction Hu as [|d u Hd Hu IH]; intros [|v x] Hlen; simpl in *;
    try discriminate; try reflexivity.
  rewrite bool_decide_eq_false_2 by exact Hd. f_equal. apply IH. lia.
Qed.

Lemma bit_flip_values_all (x : list Z) (u : list Qc) (prob : Qc) :
  length u = length x ->
  Forall (fun d => (d < prob)%Qc) u ->
  bit_flip_values x u prob = map logical_not x.
Proof.
  intros Hlen Hu. rewrite bit_flip_values_pointwise by exact Hlen.
  revert x Hlen. induction Hu as [|d u Hd Hu IH]; intros [|v x] Hlen; simpl in *;
    try discriminate; try reflexivity.
  rewrite bool_decide_eq_true_2 by exact Hd. f_equal. apply IH. lia.
Qed.

Lemma uniform_unit_interval (d : Qc) : (0 + (1 - 0) * d)%Qc = d.
Proof. ring. Qed.

Lemma logical_not_indicator (x : list Z) :
  Forall (fun v => v = 0 \/ v = 1) x ->
  map logical_not x = map (fun v => 1 - v) x.
Proof.
  induction 1 as [|v x [-> | ->] _ IH]; simpl; [reflexivity | |]; f_equal; exact IH.
Qed.

(** C6.  With draws in [0, 1), [bit_flip(x, 0)] returns an array equal to
    [x] and [bit_flip(x, 1)] returns the elementwise logical negation of
    [x], for every integer array, every random generator and every state
    of it; on a 0/1 array the negation of [v] is [1 - v]. *)
Theorem bit_flip_endpoints (K : Collaborators) (x : list Z) (w : World) :
  (forall n, (0 <= uniform_draw K n)%Qc /\ (uniform_draw K n < 1)%Qc) ->
  res (bit_flip K x 0%Qc w) = Ok x /\
  res (bit_flip K x 1%Qc w) = Ok (map logical_not x) /\
  (Forall (fun v => v = 0 \/ v = 1) x ->
   res (bit_flip K x 1%Qc w) = Ok (map (fun v => 1 - v) x)).
Proof.
  intros Hdraw.
  assert (Hneg : (Z.of_nat (length x) <? 0) = false) by (apply Z.ltb_ge; lia).
  assert (H0 : res (bit_flip K x 0%Qc w) = Ok x).
  { unfold bit_flip, bind, np_random_uniform, ret. rewrite Hneg. simpl. f_equal.
    apply bit_flip_values_none.
    - rewrite length_map, length_seq. lia.
    - apply List.Forall_forall. intros d Hd. apply in_map_iff in Hd as (n & <- & _).
      rewrite uniform_unit_interval. apply Qcle_not_lt, Hdraw. }
  assert (H1 : res (bit_flip K x 1%Qc w) = Ok (map logical_not x)).
  { unfold bit_flip, bind, np_random_uniform, ret. rewrite Hneg. simpl. f_equal.
    apply bit_flip_values_all.
    - rewrite length_map, length_seq. lia.
    - apply List.Forall_forall. intros d Hd. apply in_map_iff in Hd as (n & <- & _).
      rewrite uniform_unit_interval. apply Hdraw. }
  repeat split; [exact H0 | exact H1 |].
  intros Hx. rewrite H1. f_equal. apply logical_not_indicator, Hx.
Qed.

Lemma bit_flip_endpoints_witness :
  res (bit_flip Scenario.collaborators [0; 1; 1] 0%Qc (Scenario.world [])) = Ok [0; 1; 1] /\
  res (bit_flip Scenario.collaborators [0; 1; 1] 1%Qc (Scenario.world []))
  = Ok (map logical_not [0; 1; 1]) /\
  (Forall (fun v => v = 0 \/ v = 1) [0; 1; 1] ->
   res (bit_flip Scenario.collaborators [0; 1; 1] 1%Qc (Scenario.world []))
   = Ok (map (fun v => 1 - v) [0; 1; 1])).
Proof.
  apply (bit_flip_endpoints Scenario.collaborators [0; 1; 1] (Scenario.world [])).
  intros n. simpl. split; [discriminate | reflexivity].
Defined.

(** C10.  [bit_flip] does not write to its argument: the array passed in
    holds the same values after the call, the array returned is a new
    object, and it holds the flipped copy. *)
Theorem bit_flip_preserves_argument (h : heap) (x : loc) (v : list Z)
        (u : list Qc) (prob : Qc) :
  h !! x = Some v ->
  exists h' r,
    bit_flip_heap h x u prob = Some (h', r) /\
    h' !! x = Some v /\
    (forall l, l <> r -> h' !! l = h !! l) /\
    h !! r = None /\
    h' !! r = Some (bit_flip_values v u prob).
Proof.
  intros Hx.
  set (r := fresh (dom h)).
  assert (Hfresh : h !! r = None).
  { apply not_elem_of_dom. apply is_fresh. }
  assert (Hne : r <> x) by (intros ->; congruence).
  exists (<[r := bit_flip_values v u prob]> (<[r := v]> h)), r.
  repeat split.
  - unfold bit_flip_heap, np_array. rewrite Hx. fold r.
    unfold flip_in_place. rewrite lookup_insert_eq. reflexivity.
  - rewrite !lookup_insert_ne by exact Hne. exact Hx.
  - intros l Hl. rewrite !lookup_insert_ne by congruence. reflexivity.
  - exact Hfresh.
  - apply lookup_insert_eq.
Qed.

Lemma bit_flip_preserves_argument_witness :
  exists h' r,
    bit_flip_heap {[ 1%positive := [0; 1; 1] ]} 1%positive
                  [Q2Qc (1 # 10); Q2Qc (1 # 2); Q2Qc (1 # 5)] (Q2Qc (3 # 10))
    = Some (h', r) /\
    h' !! 1%positive = Some [0; 1; 1] /\
    (forall l, l <> r -> h' !! l = ({[ 1%positive := [0; 1; 1] ]} : heap) !! l) /\
    ({[ 1%positive := [0; 1; 1] ]} : heap) !! r = None /\
    h' !! r = Some (bit_flip_values [0; 1; 1]
                      [Q2Qc (1 # 10); Q2Qc (1 # 2); Q2Qc (1 # 5)] (Q2Qc (3 # 10))).
Proof.
  apply (bit_flip_preserves_argument {[ 1%positive := [0; 1; 1] ]} 1%positive [0; 1; 1]).
  reflexivity.
Defined.

(** ** Running computations of [M] *)

Lemma bind_ok {A B} (m : M A) (k : A -> M B) (w : World) l w' a :
  m w = mkOutcome l w' (Ok a) ->
  bind m k w = prepend l (k a w').
Proof. intros H. unfold bind. rewrite H. reflexivity. Qed.

Lemma bind_raise {A B} (m : M A) (k : A -> M B) (w : World) l w' e :
  m w = mkOutcome l w' (Raise e) ->
  bind m k w = mkOutcome l w' (Raise e).
Proof. intros H. unfold bind. rewrite H. reflexivity. Qed.

Lemma bind_assoc {A B C} (m : M A) (f : A -> M B) (g : B -> M C) (w : World) :
  bind (bind m f) g w = bind m (fun a => bind (f a) g) w.
Proof.
  unfold bind. destruct (res (m w)) as [a|e]; simpl; [|reflexivity].
  destruct (res (f a (world (m w)))) as [b|e]; simpl; [|reflexivity].
  rewrite app_assoc. reflexivity.
Qed.

Lemma outcome_eta {A} (o : outcome A) : o = mkOutcome (log o) (world o) (res o).
Proof. destruct o; reflexivity. Qed.

Lemma log_bind {A B} (m : M A) (k : A -> M B) (w : World) :
  log (bind m k w)
  = log (m w) ++ match res (m w) with
                 | Ok a => log (k a (world (m w)))
                 | Raise _ => []
                 end.
Proof. unfold bind. destruct (res (m w)); simpl; [reflexivity | symmetry; apply app_nil_r]. Qed.

Lemma drew_advance w n : drew w (advance_rng w n).
Proof. repeat split. Qed.

Lemma drew_refl w : drew w w.
Proof. repeat split. Qed.

Lemma drew_trans w1 w2 w3 : drew w1 w2 -> drew w2 w3 -> drew w1 w3.
Proof. unfold drew. intuition congruence. Qed.

Lemma scale_ones (c : Qc) (n : Z) : scale c (np_ones n) = repeat c (Z.to_nat n).
Proof.
  unfold scale, np_ones. induction (Z.to_nat n) as [|k IH]; simpl; [reflexivity|].
  rewrite Qcmult_1_r, IH. reflexivity.
Qed.

Section Runs.
Context (K : Collaborators) (cfg : Config).

Lemma np_random_normal_run rows cols w :
  0 <= rows -> 0 <= cols ->
  exists v w', np_random_normal K rows cols w = mkOutcome [] w' (Ok v) /\ drew w w'.
Proof.
  intros Hr Hc. unfold np_random_normal.
  replace (rows <? 0) with false by (symmetry; apply Z.ltb_ge; lia).
  replace (cols <? 0) with false by (symmetry; apply Z.ltb_ge; lia).
  simpl. eexists _, _. split; [reflexivity | apply drew_advance].
Qed.

Lemma np_random_uniform_run low high n w :
  0 <= n ->
  exists v w', np_random_uniform K low high n w = mkOutcome [] w' (Ok v) /\ drew w w'.
Proof.
  intros Hn. unfold np_random_uniform.
  replace (n <? 0) with false by (symmetry; apply Z.ltb_ge; lia).
  eexists _, _. split; [reflexivity | apply drew_advance].
Qed.

Lemma np_random_uniform_column_run low high n w :
  0 <= n ->
  exists v w',
    np_random_uniform_column K low high n w = mkOutcome [] w' (Ok v) /\ drew w w'.
Proof.
  intros Hn. unfold np_random_uniform_column.
  destruct (np_random_uniform_run low high n w Hn) as (v & w' & Hrun & Hw).
  rewrite (bind_ok _ _ _ _ _ _ Hrun). simpl.
  eexists _, _. split; [reflexivity | exact Hw].
Qed.

Lemma np_random_randint_run high n w :
  0 < high -> 0 <= n ->
  exists v w', np_random_randint K high n w = mkOutcome [] w' (Ok v) /\ drew w w'.
Proof.
  intros Hh Hn. unfold np_random_randint.
  replace (high <=? 0) with false by (symmetry; apply Z.leb_gt; lia).
  replace (n <? 0) with false by (symmetry; apply Z.ltb_ge; lia).
  simpl. eexists _, _. split; [reflexivity | apply drew_advance].
Qed.

Lemma bit_flip_run x prob w :
  exists u w',
    bit_flip K x prob w = mkOutcome [] w' (Ok (bit_flip_values x u prob)) /\ drew w w'.
Proof.
  unfold bit_flip.
  destruct (np_random_uniform_run 0%Qc 1%Qc (Z.of_nat (length x)) w) as (u & w' & Hrun & Hw);
    [lia|].
  rewrite (bind_ok _ _ _ _ _ _ Hrun). simpl.
  eexists _, _. split; [reflexivity | exact Hw].
Qed.

(** The weights built at lines 517-523 are the fixed vector. *)
Lemma loss_weights_fixed :
  [Float1 (np_ones (batch_size cfg));
   Float1 (scale (Q2Qc 0.05) (np_ones (batch_size cfg)))]
    ++ (if acgan cfg then [Float1 (scale (Q2Qc 0.2) (np_ones (batch_size cfg)))] else [])
  = loss_weight_vector cfg.
Proof.
  unfold loss_weight_vector, class_part, per_example, acgan.
  rewrite !scale_ones. reflexivity.
Qed.

(** One generator update: one call on the combined model, with the trick
    targets. *)
Lemma generator_update_run gen_losses w :
  0 <= batch_size cfg -> 0 <= latent_size cfg -> 0 < nb_classes cfg ->
  exists c l w',
    generator_update K cfg (np_ones (batch_size cfg)) (loss_weight_vector cfg)
                     gen_losses w
    = mkOutcome [c] w' (Ok (gen_losses ++ [l])) /\
    trick_call cfg c /\ globals w' = globals w /\ files w' = files w.
Proof.
  intros Hbs Hls Hcl. unfold generator_update.
  destruct (np_random_normal_run (batch_size cfg) (latent_size cfg) w Hbs Hls)
    as (noise & w1 & Hrun1 & Hw1).
  rewrite (bind_ok _ _ _ _ _ _ Hrun1).
  destruct (np_random_uniform_column_run 1%Qc (Q2Qc 100) (batch_size cfg) w1 Hbs)
    as (e & w2 & Hrun2 & Hw2).
  rewrite (bind_ok _ _ _ _ _ _ Hrun2).
  unfold trick_call, request, trick_targets, class_part, per_example.
  fold (acgan cfg). destruct (acgan cfg).
  - destruct (np_random_randint_run (nb_classes cfg) (batch_size cfg) w2 Hcl Hbs)
      as (lab & w3 & Hrun3 & Hw3).
    rewrite bind_assoc, (bind_ok _ _ _ _ _ _ Hrun3). simpl.
    eexists _, _, _. split; [reflexivity|]. split; [exists noise, e, lab; reflexivity|].
    destruct Hw1 as (_ & Hf1 & _ & Hg1), Hw2 as (_ & Hf2 & _ & Hg2),
             Hw3 as (_ & Hf3 & _ & Hg3).
    simpl. split; congruence.
  - simpl. eexists _, _, _. split; [reflexivity|]. split; [exists noise, e, []; reflexivity|].
    destruct Hw1 as (_ & Hf1 & _ & Hg1), Hw2 as (_ & Hf2 & _ & Hg2).
    simpl. split; congruence.
Qed.

(** The inner loop of lines 554-570: as many trick calls as passes. *)
Lemma generator_updates_run {A} (passes : list A) gen_losses w :
  0 <= batch_size cfg -> 0 <= latent_size cfg -> 0 < nb_classes cfg ->
  exists calls losses w',
    for_each passes
      (fun _ => generator_update K cfg (np_ones (batch_size cfg)) (loss_weight_vector cfg))
      gen_losses w
    = mkOutcome calls w' (Ok losses) /\
    Forall (trick_call cfg) calls /\ length calls = length passes /\
    globals w' = globals w /\ files w' = files w.
Proof.
  intros Hbs Hls Hcl. revert gen_losses w.
  induction passes as [|p passes IH]; intros gen_losses w; simpl.
  - exists [], gen_losses, w. repeat split. constructor.
  - destruct (generator_update_run gen_losses w Hbs Hls Hcl)
      as (c & l & w1 & Hrun & Hc & Hg1 & Hf1).
    rewrite (bind_ok _ _ _ _ _ _ Hrun).
    destruct (IH (gen_losses ++ [l]) w1) as (calls & losses & w2 & Hrun2 & Hcs & Hlen & Hg2 & Hf2).
    rewrite Hrun2. simpl.
    eexists _, _, _. split; [reflexivity|].
    split; [constructor; assumption|]. split; [simpl; lia|]. split; congruence.
Qed.

(** The arrays drawn, by the position of the generator. *)
Lemma np_random_normal_value rows cols w :
  0 <= rows -> 0 <= cols ->
  np_random_normal K rows cols w
  = mkOutcome [] (advance_rng w (Z.to_nat rows * Z.to_nat cols))
      (Ok (map (fun i => map (normal_draw K)
                             (seq (rng w + i * Z.to_nat cols) (Z.to_nat cols)))
               (seq 0 (Z.to_nat rows)))).
Proof.
  intros Hr Hc. unfold np_random_normal.
  replace (rows <? 0) with false by (symmetry; apply Z.ltb_ge; lia).
  replace (cols <? 0) with false by (symmetry; apply Z.ltb_ge; lia).
  reflexivity.
Qed.

Lemma np_random_randint_value high n w :
  0 < high -> 0 <= n ->
  np_random_randint K high n w
  = mkOutcome [] (advance_rng w (Z.to_nat n))
      (Ok (map (fun i => randint_draw K i high) (seq (rng w) (Z.to_nat n)))).
Proof.
  intros Hh Hn. unfold np_random_randint.
  replace (high <=? 0) with false by (symmetry; apply Z.leb_gt; lia).
  replace (n <? 0) with false by (symmetry; apply Z.ltb_ge; lia).
  reflexivity.
Qed.

Lemma np_random_uniform_column_value low high n w :
  0 <= n ->
  np_random_uniform_column K low high n w
  = mkOutcome [] (advance_rng w (Z.to_nat n))
      (Ok (map (fun i => [(low + (high - low) * uniform_draw K i)%Qc])
               (seq (rng w) (Z.to_nat n)))).
Proof.
  intros Hn. unfold np_random_uniform_column, np_random_uniform, bind, ret.
  replace (n <? 0) with false by (symmetry; apply Z.ltb_ge; lia).
  cbn [res log world app]. rewrite map_map. reflexivity.
Qed.

(** [bit_flip] negates the entries whose draw is below [prob], and only
    those. *)
Lemma bit_flip_value x prob w :
  bit_flip K x prob w
  = mkOutcome [] (advance_rng w (length x))
      (Ok (zip_with (fun v i => if bool_decide (uniform_draw K i < prob)%Qc
                                then logical_not v else v)
                    x (seq (rng w) (length x)))).
Proof.
  assert (Hneg : (Z.of_nat (length x) <? 0) = false) by (apply Z.ltb_ge; lia).
  unfold bit_flip, bind, np_random_uniform, ret. rewrite Hneg.
  cbn [res log world app]. rewrite Nat2Z.id. do 2 f_equal.
  rewrite bit_flip_values_pointwise by (rewrite length_map, length_seq; reflexivity).
  rewrite zip_with_fmap_r. apply zip_with_ext; [|reflexivity..].
  intros v i. rewrite uniform_unit_interval. reflexivity.
Qed.

(** The calls of one training step, with the arrays it draws: the request
    is the noise, the energies and the labels drawn from the position of the
    generator at the start of the step, and the class targets of the fake
    batch are those labels under the draws of [bit_flip] at 0.3. *)
Lemma train_step_drawn epoch index loc w :
  0 <= batch_size cfg -> 0 <= latent_size cfg -> 0 < nb_classes cfg ->
  let noise := step_noise K cfg (rng w) in
  let energies := step_energies K cfg (rng w) in
  let labels := step_labels K cfg (rng w) in
  exists gen_calls w' r,
    train_step K cfg epoch index loc w
    = mkOutcome
        (GeneratorPredict (request cfg noise energies labels)
         :: (if gate_open cfg (Globals.last_epoch_gen_loss (globals w)) epoch
             then
               [DiscriminatorTrainOnBatch (real_inputs cfg index)
                  (real_targets cfg index) (loss_weight_vector cfg);
                DiscriminatorTrainOnBatch
                  (predict K (models w) (request cfg noise energies labels)
                     ++ [Float2 energies])
                  (fake_targets cfg energies
                     (step_noisy_labels K cfg (Q2Qc 0.3) (rng w)))
                  (loss_weight_vector cfg)]
             else [])
         ++ gen_calls) w' r /\
    Forall (trick_call cfg) gen_calls /\
    globals w' = globals w /\ files w' = files w /\
    (gate_open cfg (Globals.last_epoch_gen_loss (globals w)) epoch = true ->
     length gen_calls = Z.to_nat (2 * train_gen_per_epoch cfg) /\
     exists loc', r = Ok loc').
Proof.
  intros Hbs Hls Hcl noise energies labels. unfold train_step. cbv zeta.
  set (bs := Z.to_nat (batch_size cfg)).
  set (w1 := advance_rng w (bs * Z.to_nat (latent_size cfg))).
  set (w2 := advance_rng w1 bs).
  set (w3 := advance_rng w2 bs).
  assert (Hrun1 : np_random_normal K (batch_size cfg) (latent_size cfg) w
                  = mkOutcome [] w1 (Ok noise))
    by (apply np_random_normal_value; assumption).
  assert (Hrun2 : np_random_randint K (nb_classes cfg) (batch_size cfg) w1
                  = mkOutcome [] w2 (Ok labels))
    by (apply np_random_randint_value; assumption).
  assert (Hrun3 : np_random_uniform_column K 1%Qc (Q2Qc 100) (batch_size cfg) w2
                  = mkOutcome [] w3 (Ok energies))
    by (apply np_random_uniform_column_value; assumption).
  rewrite (bind_ok _ _ _ _ _ _ Hrun1).
  rewrite (bind_ok _ _ _ _ _ _ Hrun2).
  rewrite (bind_ok _ _ _ _ _ _ Hrun3).
  rewrite (bind_ok (generator_predict K _) _ w3 _ _ _ eq_refl).
  change (models w3) with (models w).
  (* the targets and the weights *)
  assert (Htargets : exists w4,
    (if acgan cfg
     then
       flipped <- bit_flip K labels (Q2Qc 0.3) ;;
       ret ([Float1 (np_ones (batch_size cfg));
             Float2 (slice (energy cfg) (index * batch_size cfg)
                       ((index + 1) * batch_size cfg))]
              ++ [Int1 (slice (y cfg) (index * batch_size cfg)
                          ((index + 1) * batch_size cfg))],
            [Float1 (np_zeros (batch_size cfg)); Float2 energies] ++ [Int1 flipped],
            [Float1 (np_ones (batch_size cfg));
             Float1 (scale (Q2Qc 0.05) (np_ones (batch_size cfg)))]
              ++ [Float1 (scale (Q2Qc 0.2) (np_ones (batch_size cfg)))])
     else
       ret ([Float1 (np_ones (batch_size cfg));
             Float2 (slice (energy cfg) (index * batch_size cfg)
                       ((index + 1) * batch_size cfg))],
            [Float1 (np_zeros (batch_size cfg)); Float2 energies],
            [Float1 (np_ones (batch_size cfg));
             Float1 (scale (Q2Qc 0.05) (np_ones (batch_size cfg)))])) w3
    = mkOutcome [] w4
        (Ok (real_targets cfg index,
             fake_targets cfg energies (step_noisy_labels K cfg (Q2Qc 0.3) (rng w)),
             loss_weight_vector cfg)) /\ drew w w4).
  { rewrite <- loss_weights_fixed.
    unfold real_targets, fake_targets, class_part, per_example, batch_of.
    fold (acgan cfg). destruct (acgan cfg).
    - rewrite (bind_ok _ _ _ _ _ _ (bit_flip_value labels (Q2Qc 0.3) w3)).
      replace (length labels) with bs
        by (unfold labels, step_labels; rewrite length_map, length_seq; reflexivity).
      exists (advance_rng w3 bs). split; [reflexivity | repeat split].
    - exists w3. split; [reflexivity | repeat split]. }
  destruct Htargets as (w4 & Hrun4 & Hw14).
  rewrite (bind_ok _ _ _ _ _ _ Hrun4).
  rewrite (bind_ok get_globals _ w4 _ _ _ eq_refl).
  assert (Hg4 : globals w4 = globals w) by apply Hw14.
  assert (Hm4 : models w4 = models w) by apply Hw14.
  assert (Hf4 : files w4 = files w) by apply Hw14.
  rewrite Hg4. cbn [fst snd].
  destruct (gate_open cfg (Globals.last_epoch_gen_loss (globals w)) epoch) eqn:Hgate.
  - (* the discriminator is updated *)
    rewrite bind_assoc.
    rewrite (bind_ok (discriminator_train_on_batch K _ _ _) _ w4 _ _ _ eq_refl).
    rewrite bind_assoc.
    rewrite (bind_ok (discriminator_train_on_batch K _ _ _) _ _ _ _ _ eq_refl).
    rewrite (bind_ok (ret _) _ _ _ _ _ eq_refl).
    cbn [Locals.fake_batch_loss Locals.real_batch_loss].
    rewrite (bind_ok (ret _) _ _ _ _ _ eq_refl).
    rewrite (bind_ok (ret _) _ _ _ _ _ eq_refl).
    match goal with
    | |- context [bind (for_each ?ps _ ?gl) _ ?w5] =>
        destruct (generator_updates_run ps gl w5 Hbs Hls Hcl)
          as (calls & losses & w6 & Hrun6 & Hcalls & Hlen & Hg6 & Hf6)
    end.
    rewrite (bind_ok _ _ _ _ _ _ Hrun6).
    eexists calls, _, _. split.
    + cbn [prepend log world res ret app]. rewrite app_nil_r.
      unfold request, class_part. fold (acgan cfg). reflexivity.
    + split; [exact Hcalls|]. split; [rewrite Hg6; exact Hg4|].
      split; [rewrite Hf6; exact Hf4|]. intros _. split.
      * rewrite Hlen. unfold range. rewrite length_map, length_seq. reflexivity.
      * eexists. reflexivity.
  - (* the gate is closed *)
    rewrite (bind_ok (ret _) _ _ _ _ _ eq_refl).
    destruct (Locals.fake_batch_loss loc) as [fake|].
    2:{ rewrite (bind_raise (raise _) _ _ _ _ _ eq_refl).
        eexists [], _, _. split.
        - cbn [prepend log world res app]. unfold request, class_part. fold (acgan cfg).
          reflexivity.
        - split; [constructor|]. split; [exact Hg4|]. split; [exact Hf4|].
          intros; discriminate. }
    rewrite (bind_ok (ret _) _ _ _ _ _ eq_refl).
    destruct (Locals.real_batch_loss loc) as [real|].
    2:{ rewrite (bind_raise (raise _) _ _ _ _ _ eq_refl).
        eexists [], _, _. split.
        - cbn [prepend log world res app]. unfold request, class_part. fold (acgan cfg).
          reflexivity.
        - split; [constructor|]. split; [exact Hg4|]. split; [exact Hf4|].
          intros; discriminate. }
    rewrite (bind_ok (ret _) _ _ _ _ _ eq_refl).
    match goal with
    | |- context [bind (for_each ?ps _ ?gl) _ ?w5] =>
        destruct (generator_updates_run ps gl w5 Hbs Hls Hcl)
          as (calls & losses & w6 & Hrun6 & Hcalls & Hlen & Hg6 & Hf6)
    end.
    rewrite (bind_ok _ _ _ _ _ _ Hrun6).
    eexists calls, _, _. split.
    + cbn [prepend log world res ret app]. rewrite app_nil_r.
      unfold request, class_part. fold (acgan cfg). reflexivity.
    + split; [exact Hcalls|]. split; [rewrite Hg6; exact Hg4|].
      split; [rewrite Hf6; exact Hf4|]. intros; discriminate.
Qed.

(** The calls of one training step.  [noise], [energies] and [labels] are
    the request drawn at lines 491-503, [u] the draws of [bit_flip]. *)
Lemma train_step_run epoch index loc w :
  0 <= batch_size cfg -> 0 <= latent_size cfg -> 0 < nb_classes cfg ->
  exists noise energies labels u gen_calls w' r,
    train_step K cfg epoch index loc w
    = mkOutcome
        (GeneratorPredict (request cfg noise energies labels)
         :: (if gate_open cfg (Globals.last_epoch_gen_loss (globals w)) epoch
             then
               [DiscriminatorTrainOnBatch (real_inputs cfg index)
                  (real_targets cfg index) (loss_weight_vector cfg);
                DiscriminatorTrainOnBatch
                  (predict K (models w) (request cfg noise energies labels)
                     ++ [Float2 energies])
                  (fake_targets cfg energies (bit_flip_values labels u (Q2Qc 0.3)))
                  (loss_weight_vector cfg)]
             else [])
         ++ gen_calls) w' r /\
    Forall (trick_call cfg) gen_calls /\
    globals w' = globals w /\ files w' = files w /\
    (gate_open cfg (Globals.last_epoch_gen_loss (globals w)) epoch = true ->
     length gen_calls = Z.to_nat (2 * train_gen_per_epoch cfg) /\
     exists loc', r = Ok loc').
Proof.
  intros Hbs Hls Hcl.
  destruct (train_step_drawn epoch index loc w Hbs Hls Hcl)
    as (gen_calls & w' & r & Hrun & Hrest).
  exists (step_noise K cfg (rng w)), (step_energies K cfg (rng w)),
         (step_labels K cfg (rng w)),
         (map (uniform_draw K)
              (seq (flips_at cfg (rng w)) (Z.to_nat (batch_size cfg)))),
         gen_calls, w', r.
  split; [|exact Hrest].
  rewrite Hrun. do 6 f_equal.
  rewrite bit_flip_values_pointwise
    by (unfold step_labels; rewrite !length_map, !length_seq; reflexivity).
  unfold step_noisy_labels. rewrite zip_with_fmap_r. reflexivity.
Qed.

End Runs.

(** ** Properties of every call, and of the module-level variables *)

Lemma always_ret {A} P (Q : A -> Prop) a : Q a -> always P Q (ret a).
Proof. intros Ha w. split; [constructor|]. simpl. intros b [= <-]. exact Ha. Qed.

Lemma always_raise {A} P (Q : A -> Prop) e : always P Q (raise e).
Proof. intros w. split; [constructor|]. simpl. discriminate. Qed.

Lemma always_bind {A B} P (Q : A -> Prop) (R : B -> Prop) (m : M A) (k : A -> M B) :
  always P Q m -> (forall a, Q a -> always P R (k a)) -> always P R (bind m k).
Proof.
  intros Hm Hk w. destruct (Hm w) as [Hlog Hres]. unfold bind.
  destruct (res (m w)) as [a|e] eqn:E; simpl.
  - destruct (Hk a (Hres a eq_refl) (world (m w))) as [Hlog' Hres'].
    split; [apply Forall_app; split; assumption | exact Hres'].
  - split; [exact Hlog | discriminate].
Qed.

Lemma always_weaken {A} P (Q Q' : A -> Prop) (m : M A) :
  always P Q m -> (forall a, Q a -> Q' a) -> always P Q' m.
Proof. intros Hm HQ w. destruct (Hm w) as [Hlog Hres]. split; eauto. Qed.

Lemma always_quiet {A} P (m : M A) : quiet m -> always P (fun _ => True) m.
Proof. intros Hm w. destruct (Hm w) as [-> _]. split; [constructor | trivial]. Qed.

Lemma always_for_each {A S} P (Q : S -> Prop) (xs : list A) (body : A -> S -> M S) s :
  (forall x s, Q s -> always P Q (body x s)) -> Q s -> always P Q (for_each xs body s).
Proof.
  intros Hbody. revert s. induction xs as [|x xs IH]; intros s Hs; simpl.
  - apply always_ret, Hs.
  - eapply always_bind; [apply Hbody, Hs | intros s' Hs'; apply IH, Hs'].
Qed.

Lemma keeps_ret {X A} (f : World -> X) (a : A) : keeps f (ret a).
Proof. intros w. reflexivity. Qed.

Lemma keeps_bind {X A B} (f : World -> X) (m : M A) (k : A -> M B) :
  keeps f m -> (forall a, keeps f (k a)) -> keeps f (bind m k).
Proof.
  intros Hm Hk w. unfold bind. destruct (res (m w)) as [a|e]; simpl.
  - rewrite Hk. apply Hm.
  - apply Hm.
Qed.

Lemma keeps_for_each {X A S} (f : World -> X) (xs : list A) (body : A -> S -> M S) s :
  (forall x s, keeps f (body x s)) -> keeps f (for_each xs body s).
Proof.
  intros Hbody. revert s. induction xs as [|x xs IH]; intros s; simpl.
  - apply keeps_ret.
  - apply keeps_bind; [apply Hbody | intros s'; apply IH].
Qed.

Lemma quiet_ret {A} (a : A) : quiet (ret a).
Proof. intros w. split; reflexivity. Qed.

Lemma quiet_raise {A} e : quiet (@raise A e).
Proof. intros w. split; reflexivity. Qed.

Lemma quiet_lift {A} (r : result A) : quiet (lift r).
Proof. intros w. split; reflexivity. Qed.

Lemma quiet_bind {A B} (m : M A) (k : A -> M B) :
  quiet m -> (forall a, quiet (k a)) -> quiet (bind m k).
Proof.
  intros Hm Hk w. destruct (Hm w) as [Hl Hg]. unfold bind.
  destruct (res (m w)) as [a|e]; simpl.
  - destruct (Hk a (world (m w))) as [Hl' Hg']. rewrite Hl, Hl', Hg'. split; [reflexivity | exact Hg].
  - split; assumption.
Qed.

Lemma quiet_for_each {A S} (xs : list A) (body : A -> S -> M S) s :
  (forall x s, quiet (body x s)) -> quiet (for_each xs body s).
Proof.
  intros Hbody. revert s. induction xs as [|x xs IH]; intros s; simpl.
  - apply quiet_ret.
  - apply quiet_bind; [apply Hbody | intros s'; apply IH].
Qed.

Create HintDb quiet.
#[export] Hint Resolve quiet_ret quiet_raise quiet_lift : quiet.

(** Splits a goal about a composed computation along its structure. *)
Ltac quiet_step :=
  match goal with
  | |- quiet (bind _ _) => apply quiet_bind; [| intros ?]
  | |- quiet (for_each _ _ _) => apply quiet_for_each; intros ? ?
  | |- quiet (if ?b then _ else _) => destruct b
  | |- quiet (match ?x with _ => _ end) => destruct x
  | |- quiet _ => solve [auto with quiet]
  | |- quiet _ => solve [intros ?; split; reflexivity]
  end.

Section Quiet.
Context (K : Collaborators) (cfg : Config).

Lemma quiet_np_random_normal rows cols : quiet (np_random_normal K rows cols).
Proof. unfold np_random_normal. repeat quiet_step. Qed.

Lemma quiet_np_random_uniform low high n : quiet (np_random_uniform K low high n).
Proof. unfold np_random_uniform. repeat quiet_step. Qed.

Lemma quiet_np_random_randint high n : quiet (np_random_randint K high n).
Proof. unfold np_random_randint. repeat quiet_step. Qed.

Hint Resolve quiet_np_random_normal quiet_np_random_uniform
     quiet_np_random_randint : quiet.

Lemma quiet_np_random_uniform_column low high n :
  quiet (np_random_uniform_column K low high n).
Proof. unfold np_random_uniform_column. repeat quiet_step. Qed.

Lemma quiet_bit_flip x prob : quiet (bit_flip K x prob).
Proof. unfold bit_flip. repeat quiet_step. Qed.

Lemma quiet_getLastEpoch mask : quiet (getLastEpoch K mask).
Proof. intros w. split; reflexivity. Qed.

Lemma quiet_glob mask : quiet (glob K mask).
Proof. intros w. split; reflexivity. Qed.

Lemma quiet_read_file name : quiet (read_file name).
Proof. intros w. split; reflexivity. Qed.

Lemma quiet_write_file name c : quiet (write_file name c).
Proof. intros w. split; reflexivity. Qed.

Lemma quiet_rm_rf mask : quiet (rm_rf K mask).
Proof. intros w. split; reflexivity. Qed.

Lemma quiet_update_models f : quiet (update_models f).
Proof. intros w. split; reflexivity. Qed.

Lemma quiet_get_models : quiet get_models.
Proof. intros w. split; reflexivity. Qed.

Lemma quiet_get_globals : quiet get_globals.
Proof. intros w. split; reflexivity. Qed.

Hint Resolve quiet_np_random_uniform_column quiet_bit_flip quiet_getLastEpoch
     quiet_glob quiet_read_file quiet_write_file quiet_rm_rf quiet_update_models
     quiet_get_models quiet_get_globals : quiet.

Lemma quiet_require_file what name : quiet (require_file K what name).
Proof. unfold require_file. repeat quiet_step. Qed.

Hint Resolve quiet_require_file : quiet.

Lemma quiet_load_artifact what name set : quiet (load_artifact K what name set).
Proof. unfold load_artifact. repeat quiet_step. Qed.

Hint Resolve quiet_load_artifact : quiet.

Lemma quiet_average_network what pfx e get set :
  quiet (average_network K cfg what pfx e get set).
Proof. unfold average_network. repeat quiet_step. Qed.

Hint Resolve quiet_average_network : quiet.

Lemma quiet_restore_weights e : quiet (restore_weights K cfg e).
Proof. unfold restore_weights. repeat quiet_step. Qed.

Lemma quiet_save_checkpoint e : quiet (save_checkpoint cfg e).
Proof. unfold save_checkpoint. repeat quiet_step. Qed.

End Quiet.

#[export] Hint Resolve quiet_np_random_normal quiet_np_random_uniform
  quiet_np_random_randint quiet_np_random_uniform_column quiet_bit_flip
  quiet_getLastEpoch quiet_glob quiet_read_file quiet_write_file quiet_rm_rf
  quiet_update_models quiet_get_models quiet_get_globals quiet_require_file
  quiet_load_artifact   quiet_average_network quiet_restore_weights quiet_save_checkpoint : quiet.

Create HintDb always.

Ltac head_of t :=
  match t with
  | ?f _ => head_of f
  | _ => t
  end.

(** Follows the structure of a computation; a definition that is neither a
    bind, a loop nor a branch is unfolded. *)
Ltac keeps_step :=
  match goal with
  | |- keeps _ (bind _ _) => apply keeps_bind; [| intros ?]
  | |- keeps _ (for_each _ _ _) => apply keeps_for_each; intros ? ?
  | |- keeps _ (if ?b then _ else _) => destruct b
  | |- keeps _ (match ?x with _ => _ end) => destruct x
  | |- keeps _ _ => solve [intros ?; reflexivity]
  | |- keeps _ ?m => let h := head_of m in unfold h; cbv zeta
  end.

Ltac always_step :=
  match goal with
  | |- always _ _ (bind _ _) =>
      eapply always_bind with (Q := fun _ => True); [| intros ? _]
  | |- always _ _ (for_each _ _ _) =>
      apply always_for_each with (Q := fun _ => True); [intros ? ? _ | exact I]
  | |- always _ _ (if ?b then _ else _) => destruct b
  | |- always _ _ (match ?x with _ => _ end) => destruct x
  | |- always _ _ (ret _) => apply always_ret; exact I
  | |- always _ _ (raise _) => apply always_raise
  | |- always _ (fun _ => True) _ => solve [apply always_quiet; auto with quiet]
  | |- always _ (fun _ => True) _ => solve [auto with always]
  end.

Section Invariants.
Context (K : Collaborators) (cfg : Config).

(** No path through [train_gan] assigns a module-level variable or
    touches a file. *)
Lemma keeps_env_train_gan epoch n : keeps env (train_gan K cfg epoch n).
Proof. repeat keeps_step. Qed.

(** Nor does any other part of the script assign a module-level
    variable. *)
Lemma keeps_globals_main : keeps globals (main K cfg).
Proof. repeat keeps_step. Qed.

(** *** The sample weights *)

Let P := fixed_weights cfg.

Lemma always_generator_predict x :
  always P (fun _ => True) (generator_predict K x).
Proof. intros w. split; [repeat constructor | trivial]. Qed.

Lemma always_discriminator_train_on_batch x t :
  always P (fun _ => True)
         (discriminator_train_on_batch K x t (loss_weight_vector cfg)).
Proof. intros w. split; [repeat constructor | trivial]. Qed.

Lemma always_combined_train_on_batch x t :
  always P (fun _ => True)
         (combined_train_on_batch K x t (loss_weight_vector cfg)).
Proof. intros w. split; [repeat constructor | trivial]. Qed.

Hint Resolve always_generator_predict always_discriminator_train_on_batch
     always_combined_train_on_batch : always.

Lemma always_generator_update trick gl :
  always P (fun _ => True)
         (generator_update K cfg trick (loss_weight_vector cfg) gl).
Proof. unfold generator_update. cbv zeta. repeat always_step. Qed.

Hint Resolve always_generator_update : always.

Lemma always_train_step epoch index loc :
  always P (fun _ => True) (train_step K cfg epoch index loc).
Proof.
  unfold train_step. cbv zeta.
  do 4 always_step; [apply always_generator_predict|].
  eapply always_bind with (Q := fun t => snd t = loss_weight_vector cfg).
  { rewrite <- loss_weights_fixed. destruct (acgan cfg).
    - eapply always_bind with (Q := fun _ => True);
        [apply always_quiet; auto with quiet | intros ? _].
      apply always_ret. reflexivity.
    - apply always_ret. reflexivity. }
  intros targets ->. repeat always_step.
Qed.

Hint Resolve always_train_step : always.

Lemma always_train_gan epoch n :
  always P (fun _ => True) (train_gan K cfg epoch n).
Proof. unfold train_gan. repeat always_step. Qed.

Hint Resolve always_train_gan : always.

Lemma always_main : always P (fun _ => True) (main K cfg).
Proof.
  unfold main, resume, restore_optimizer_states, run_epochs, run_epoch. cbv zeta.
  repeat always_step.
Qed.

End Invariants.

(** ** The training step and the epoch *)

Lemma trick_calls_counts (cfg : Config) (l : list call) :
  Forall (trick_call cfg) l ->
  discriminator_calls l = [] /\
  count_calls is_generator_call l = length l /\
  count_calls is_predict_call l = 0%nat.
Proof.
  unfold discriminator_calls, count_calls.
  induction 1 as [|c l (n & e & lab & ->) _ (IH1 & IH2 & IH3)]; simpl.
  - repeat split.
  - rewrite IH1, IH2, IH3. repeat split.
Qed.

Lemma count_calls_app p (l1 l2 : list call) :
  count_calls p (l1 ++ l2) = (count_calls p l1 + count_calls p l2)%nat.
Proof. unfold count_calls. rewrite List.filter_app, length_app. reflexivity. Qed.

Section Epoch.
Context (K : Collaborators) (cfg : Config).

(** The gate of line 525 against the condition of the specification. *)
Lemma gate_open_spec (recorded : option Qc) (epoch : Z) :
  gate_open cfg recorded epoch = true <-> gate_condition cfg recorded epoch.
Proof.
  unfold gate_open, gate_condition. destruct recorded as [l|].
  - rewrite orb_true_iff, bool_decide_eq_true, Z.ltb_lt. split.
    + intros [H|H]; [right; left; exists l; split; [reflexivity | exact H] | right; right; exact H].
    + intros [H|[(l' & [= <-] & H)|H]]; [discriminate | left; exact H | right; exact H].
  - split; [left; reflexivity | reflexivity].
Qed.

Lemma gate_open_warm_up (recorded : option Qc) (epoch : Z) :
  epoch < 10 -> gate_open cfg recorded epoch = true.
Proof. intros H. apply gate_open_spec. right; right; exact H. Qed.

(** The steps of a warm-up epoch all run, and each makes one prediction and
    [2 * train_gen_per_epoch] generator updates. *)
Lemma warm_up_steps_run epoch (indices : list Z) loc w :
  0 <= batch_size cfg -> 0 <= latent_size cfg -> 0 < nb_classes cfg ->
  epoch < 10 ->
  exists l w' loc',
    for_each indices (train_step K cfg epoch) loc w = mkOutcome l w' (Ok loc') /\
    count_calls is_predict_call l = length indices /\
    count_calls is_generator_call l
    = (length indices * (1 + Z.to_nat (2 * train_gen_per_epoch cfg)))%nat.
Proof.
  intros Hbs Hls Hcl Hep. revert loc w.
  induction indices as [|index indices IH]; intros loc w; simpl.
  - exists [], w, loc. repeat split.
  - destruct (train_step_run K cfg epoch index loc w Hbs Hls Hcl)
      as (noise & e & lab & u & gen_calls & w1 & r & Hrun & Htrick & _ & _ & Hopen).
    rewrite (gate_open_warm_up _ _ Hep) in Hrun.
    destruct (Hopen (gate_open_warm_up _ _ Hep)) as (Hlen & loc1 & ->).
    rewrite (bind_ok _ _ _ _ _ _ Hrun).
    destruct (IH loc1 w1) as (l & w2 & loc2 & Hrun2 & Hp & Hg).
    rewrite Hrun2. cbn [prepend log world res].
    eexists _, _, _. split; [reflexivity|].
    destruct (trick_calls_counts cfg gen_calls Htrick) as (_ & Hc1 & Hc2).
    change (GeneratorPredict (request cfg noise e lab)
              :: [DiscriminatorTrainOnBatch (real_inputs cfg index) (real_targets cfg index)
                    (loss_weight_vector cfg);
                  DiscriminatorTrainOnBatch
                    (predict K (models w) (request cfg noise e lab) ++ [Float2 e])
                    (fake_targets cfg e (bit_flip_values lab u (Q2Qc 0.3)))
                    (loss_weight_vector cfg)] ++ gen_calls)
      with ([GeneratorPredict (request cfg noise e lab);
             DiscriminatorTrainOnBatch (real_inputs cfg index) (real_targets cfg index)
               (loss_weight_vector cfg);
             DiscriminatorTrainOnBatch
               (predict K (models w) (request cfg noise e lab) ++ [Float2 e])
               (fake_targets cfg e (bit_flip_values lab u (Q2Qc 0.3)))
               (loss_weight_vector cfg)] ++ gen_calls).
    rewrite !count_calls_app, Hp, Hg, Hc1, Hc2, Hlen.
    unfold count_calls. simpl. split; lia.
Qed.

(** The end of [train_gan] (lines 574-579) calls no model. *)
Lemma train_gan_log epoch n w :
  log (train_gan K cfg epoch n w)
  = log (for_each (range n) (train_step K cfg epoch) Locals.initial w).
Proof.
  unfold train_gan. rewrite log_bind.
  destruct (res (for_each (range n) (train_step K cfg epoch) Locals.initial w)) as [loc|e];
    [|apply app_nil_r].
  match goal with
  | |- _ ++ log (?m ?w') = _ =>
      assert (Hq : quiet m) by repeat quiet_step; destruct (Hq w') as [-> _]
  end.
  apply app_nil_r.
Qed.

End Epoch.

(** * The claims *)

(** C1.  In a training step the discriminator receives its two
    [train_on_batch] calls, the real batch and then the fake batch, exactly
    when the gate condition holds on the recorded generator loss and the
    epoch; otherwise it receives none.  In particular a recorded loss at or
    above the ceiling from epoch 10 on gives no call, and before epoch 10
    there are always two. *)
Theorem discriminator_update_gated (K : Collaborators) (cfg : Config)
        (epoch index : Z) (loc : Locals.t) (w : World) :
  0 <= batch_size cfg -> 0 <= latent_size cfg -> 0 < nb_classes cfg ->
  let recorded := Globals.last_epoch_gen_loss (globals w) in
  let calls := discriminator_calls (log (train_step K cfg epoch index loc w)) in
  (gate_condition cfg recorded epoch <->
   exists generated energies noisy_labels,
     calls = [DiscriminatorTrainOnBatch (real_inputs cfg index) (real_targets cfg index)
                (loss_weight_vector cfg);
              DiscriminatorTrainOnBatch (generated ++ [Float2 energies])
                (fake_targets cfg energies noisy_labels) (loss_weight_vector cfg)]) /\
  (~ gate_condition cfg recorded epoch -> calls = []) /\
  (forall l, recorded = Some l -> (maintain_gen_loss_below cfg <= l)%Qc ->
             10 <= epoch -> calls = []) /\
  (epoch < 10 -> length calls = 2%nat).
Proof.
  intros Hbs Hls Hcl recorded calls.
  destruct (train_step_run K cfg epoch index loc w Hbs Hls Hcl)
    as (noise & e & lab & u & gen_calls & w' & r & Hrun & Htrick & _).
  destruct (trick_calls_counts cfg gen_calls Htrick) as (Hnone & _).
  assert (Hcalls :
    calls = if gate_open cfg recorded epoch
            then [DiscriminatorTrainOnBatch (real_inputs cfg index) (real_targets cfg index)
                    (loss_weight_vector cfg);
                  DiscriminatorTrainOnBatch
                    (predict K (models w) (request cfg noise e lab) ++ [Float2 e])
                    (fake_targets cfg e (bit_flip_values lab u (Q2Qc 0.3)))
                    (loss_weight_vector cfg)]
            else []).
  { subst calls. rewrite Hrun. cbn [log]. unfold discriminator_calls in *.
    fold recorded. cbn [List.filter is_discriminator_call].
    rewrite List.filter_app, Hnone, app_nil_r.
    destruct (gate_open cfg recorded epoch); reflexivity. }
  clearbody calls. clear Hrun.
  pose proof (gate_open_spec cfg recorded epoch) as Hspec.
  assert (Hclosed : ~ gate_condition cfg recorded epoch -> calls = []).
  { intros Hn. destruct (gate_open cfg recorded epoch); [|exact Hcalls].
    exfalso. apply Hn, Hspec. reflexivity. }
  repeat split.
  - intros Hc. apply Hspec in Hc. rewrite Hc in Hcalls. eauto.
  - intros (g & en & nl & Heq). apply Hspec.
    destruct (gate_open cfg recorded epoch); [reflexivity|]. congruence.
  - exact Hclosed.
  - intros l Hl Hge Hep. apply Hclosed.
    intros [Hnone'|[(l' & Hl' & Hlt)|Hlt]]; [congruence | | lia].
    assert (l' = l) by congruence. subst l'.
    exact (Qclt_not_le _ _ Hlt Hge).
  - intros Hep. rewrite Hcalls, (gate_open_warm_up cfg recorded epoch Hep). reflexivity.
Qed.

Lemma discriminator_update_gated_witness :
  discriminator_calls
    (log (train_step Scenario.collaborators (Scenario.config 1) 12 0 Locals.initial
            (Scenario.world_with_loss (Q2Qc 2000)))) = [].
Proof.
  destruct (discriminator_update_gated Scenario.collaborators (Scenario.config 1) 12 0
              Locals.initial (Scenario.world_with_loss (Q2Qc 2000)))
    as (_ & _ & H & _); [simpl; lia | simpl; lia | simpl; lia |].
  apply (H (Q2Qc 2000)); [reflexivity | discriminate | lia].
Defined.



(** C8.  Every [train_on_batch] call of a training step, on the
    discriminator (real or fake batch) or on the combined model, and every
    such call of the whole run, is given the same sample weights: 1 per
    example for realism, 0.05 for the energy and, with several classes, 0.2
    for the class. *)
Theorem loss_weights_constant (K : Collaborators) (cfg : Config) :
  loss_weight_vector cfg
  = [Float1 (repeat 1%Qc (Z.to_nat (batch_size cfg)));
     Float1 (repeat (Q2Qc 0.05) (Z.to_nat (batch_size cfg)))]
      ++ (if 1 <? nb_classes cfg
          then [Float1 (repeat (Q2Qc 0.2) (Z.to_nat (batch_size cfg)))] else []) /\
  (forall epoch index loc w,
      Forall (fixed_weights cfg) (log (train_step K cfg epoch index loc w))) /\
  (forall epoch n w, Forall (fixed_weights cfg) (log (train_gan K cfg epoch n w))) /\
  (forall w, Forall (fixed_weights cfg) (log (main K cfg w))).
Proof.
  split; [reflexivity|]. repeat split; intros.
  - apply always_train_step.
  - apply always_train_gan.
  - apply always_main.
Qed.

(** Without a resume and with one epoch, the calls of the whole run are
    those of the steps of epoch 0. *)
Lemma single_epoch_log (K : Collaborators) (cfg : Config) (w : World) (n : Z) :
  nb_epochs cfg = 1 -> load_model cfg = false -> load_weights cfg = false ->
  nb_batches cfg = Ok n ->
  exists w',
    log (main K cfg w)
    = log (for_each (range n) (train_step K cfg 0) Locals.initial w').
Proof.
  intros Hep Hlm Hlw Hnb.
  assert (Hresume : resume K cfg w = mkOutcome [] w (Ok (-1))).
  { unfold resume. rewrite Hlm, Hlw. reflexivity. }
  unfold main. rewrite (bind_ok _ _ _ _ _ _ Hresume).
  rewrite (bind_ok (update_models _) _ w _ _ _ eq_refl).
  cbn [prepend log app]. unfold run_epochs, epochs. rewrite Hep.
  change (map (fun i => -1 + 1 + i) (range 1)) with [0].
  cbn [for_each]. rewrite log_bind.
  match goal with
  | |- context [run_epoch K cfg (-1) 0 tt ?w0] => set (w1 := w0)
  end.
  exists w1.
  assert (Hlog : log (run_epoch K cfg (-1) 0 tt w1) = log (train_gan K cfg 0 n w1)).
  { unfold run_epoch. rewrite Hnb.
    rewrite (bind_ok (lift (Ok n)) _ w1 _ _ _ eq_refl). cbn [prepend log app].
    rewrite log_bind.
    destruct (res (train_gan K cfg 0 n w1)) as [loc|e]; [|apply app_nil_r].
    match goal with
    | |- _ ++ log (?m ?w') = _ =>
        assert (Hq : quiet m) by repeat quiet_step; destruct (Hq w') as [-> _]
    end.
    apply app_nil_r. }
  rewrite Hlog, train_gan_log.
  destruct (res (run_epoch K cfg (-1) 0 tt w1)); apply app_nil_r.
Qed.

(** C3 (amended).  In the scenario (2 classes, batches of 4, latent size 8,
    one epoch, 8 events, no resume) the epoch has 2 steps, and the generator
    receives 2 predictions and [2 * train_gen_per_epoch] updates in each
    step: [2 + 4 * train_gen_per_epoch] calls in all. *)
Theorem scenario_generator_calls (K : Collaborators) (cfg : Config) (w : World) :
  nb_classes cfg = 2 -> batch_size cfg = 4 -> latent_size cfg = 8 ->
  nb_epochs cfg = 1 -> length (first cfg) = 8%nat ->
  load_model cfg = false -> load_weights cfg = false ->
  nb_batches cfg = Ok 2 /\
  count_calls is_predict_call (log (main K cfg w)) = 2%nat /\
  count_calls is_generator_call (log (main K cfg w))
  = (2 * (1 + Z.to_nat (2 * train_gen_per_epoch cfg)))%nat /\
  (0 <= train_gen_per_epoch cfg ->
   Z.of_nat (count_calls is_generator_call (log (main K cfg w)))
   = 2 + 4 * train_gen_per_epoch cfg).
Proof.
  intros Hcl Hbs Hls Hep Hlen Hlm Hlw.
  assert (Hnb : nb_batches cfg = Ok 2).
  { unfold nb_batches. rewrite Hbs, Hlen. reflexivity. }
  destruct (single_epoch_log K cfg w 2 Hep Hlm Hlw Hnb) as (w' & Hlog).
  destruct (warm_up_steps_run K cfg 0 (range 2) Locals.initial w')
    as (l & w2 & loc & Hrun & Hp & Hg); try lia.
  rewrite Hrun in Hlog. cbn [log] in Hlog. rewrite Hlog, Hp, Hg.
  change (length (range 2)) with 2%nat.
  split; [exact Hnb|]. split; [reflexivity|]. split; [reflexivity|].
  intros Ht. lia.
Qed.

Lemma scenario_generator_calls_witness :
  count_calls is_generator_call
    (log (main Scenario.collaborators (Scenario.config 3) (Scenario.world [])))
  = 14%nat.
Proof.
  destruct (scenario_generator_calls Scenario.collaborators (Scenario.config 3)
              (Scenario.world []))
    as (_ & _ & H & _);
    [reflexivity | reflexivity | reflexivity | reflexivity | reflexivity
    | reflexivity | reflexivity | exact H].
Defined.

(** C3 as stated fails: with [train_gen_per_epoch = 1] the generator receives
    6 calls in the epoch, not [2 + 2 * 1]. *)
Lemma scenario_generator_calls_counterexample :
  count_calls is_generator_call
    (log (main Scenario.collaborators (Scenario.config 1) (Scenario.world [])))
  = 6%nat /\
  Z.of_nat
    (count_calls is_generator_call
       (log (main Scenario.collaborators (Scenario.config 1) (Scenario.world []))))
  <> 2 + 2 * train_gen_per_epoch (Scenario.config 1).
Proof. split; [vm_compute; reflexivity | vm_compute; discriminate]. Qed.

(** C2 (the code departs from it).  [train_gan] never assigns the
    module-level [last_epoch_gen_loss]: its value after an epoch, and after
    the whole run, is the one before, whatever the epoch-mean generator loss
    was.  On the scenario the epoch-mean generator loss is 5, it is bound to
    the local name [last_epoch_gen_lss], and the variable read by the gate
    still holds None. *)
Theorem last_epoch_gen_loss_not_updated :
  (forall K cfg epoch n w,
      Globals.last_epoch_gen_loss (globals (world (train_gan K cfg epoch n w)))
      = Globals.last_epoch_gen_loss (globals w)) /\
  (forall K cfg w, globals (world (main K cfg w)) = globals w) /\
  (let o := train_gan Scenario.collaborators (Scenario.config 1) 0 2 (Scenario.world []) in
   exists loc mean,
     res o = Ok loc /\
     Locals.last_epoch_gen_lss loc = Some mean /\ mean = Q2Qc 5 /\
     Globals.last_epoch_gen_loss (globals (world o)) = None /\
     Some mean <> Globals.last_epoch_gen_loss (globals (world o))).
Proof.
  split; [|split].
  - intros. pose proof (keeps_env_train_gan K cfg epoch n w) as H.
    injection H as -> _. reflexivity.
  - intros. apply keeps_globals_main.
  - eexists _, _. split; [vm_compute; reflexivity|].
    split; [reflexivity|]. split; [apply Qc_is_canon; reflexivity|].
    split; [vm_compute; reflexivity | vm_compute; discriminate].
Qed.

(** ** Checkpoint discovery *)

Lemma append_String (ch : ascii) (s t : string) :
  String ch s +:+ t = String ch (s +:+ t).
Proof. reflexivity. Qed.

Lemma append_empty_l (t : string) : EmptyString +:+ t = t.
Proof. reflexivity. Qed.

Lemma append_empty_r (s : string) : s +:+ EmptyString = s.
Proof.
  induction s as [|c s IH]; [reflexivity|]. rewrite append_String, IH. reflexivity.
Qed.

Lemma append_assoc (s t u : string) : (s +:+ t) +:+ u = s +:+ (t +:+ u).
Proof.
  induction s as [|c s IH]; [reflexivity|]. rewrite !append_String, IH. reflexivity.
Qed.

Lemma string_of_list_ascii_app (l1 l2 : list ascii) :
  string_of_list_ascii (l1 ++ l2)
  = string_of_list_ascii l1 +:+ string_of_list_ascii l2.
Proof.
  induction l1 as [|c l1 IH]; simpl; [reflexivity|].
  rewrite append_String, IH. reflexivity.
Qed.

Lemma is_digit_not_space (ch : ascii) : is_digit ch = true -> is_space ch = false.
Proof.
  destruct ch as [[] [] [] [] [] [] [] []]; vm_compute; intros H;
    first [reflexivity | discriminate H].
Qed.

(** Reading a run: the digits met so far are [cur], reversed. *)
Lemma split_go_run (s : string) (cur : list ascii) :
  cur <> [] ->
  head (split_go (blank_non_digits s) cur)
  = Some (string_of_list_ascii (rev cur) +:+ take_digits s).
Proof.
  revert cur. induction s as [|ch s IH]; intros cur Hcur; simpl.
  - destruct cur; [congruence|]. rewrite append_empty_r. reflexivity.
  - destruct (is_digit ch) eqn:Hd.
    + rewrite (is_digit_not_space ch Hd), IH by discriminate.
      simpl. rewrite string_of_list_ascii_app, append_assoc. reflexivity.
    + change (is_space " ") with true. cbv iota.
      destruct cur; [congruence|]. rewrite append_empty_r. reflexivity.
Qed.

(** The first token of the blanked name is the first maximal run of digits
    of the name. *)
Lemma head_split_blank (s : string) :
  head (split (blank_non_digits s)) = first_digit_run s.
Proof.
  unfold split. induction s as [|ch s IH]; simpl; [reflexivity|].
  destruct (is_digit ch) eqn:Hd.
  - rewrite (is_digit_not_space ch Hd), split_go_run by discriminate. reflexivity.
  - change (is_space " ") with true. cbv iota. exact IH.
Qed.

Lemma round_to_double_exact (n : Z) : n < 2 ^ 53 -> round_to_double n = Finite n.
Proof.
  intros Hn. unfold round_to_double.
  assert (Hlog : Z.log2 n < 53).
  { destruct (Z.le_gt_cases n 0) as [Hle|Hpos].
    - rewrite Z.log2_nonpos by exact Hle. lia.
    - apply Z.log2_lt_pow2; [exact Hpos | exact Hn]. }
  apply Z.ltb_lt in Hlog. rewrite Hlog. reflexivity.
Qed.

(** [max] returns the entry that is strictly above all the others. *)
Lemma max_by_key_strict {A} (key : A -> Z) (best : A) (rest : list A) (m : A) :
  In m (best :: rest) ->
  (forall x, In x (best :: rest) -> x = m \/ key x < key m) ->
  max_by_key key best rest = m.
Proof.
  revert best. induction rest as [|x rest IH]; intros best Hin Hmax; simpl.
  - destruct Hin as [->|[]]. reflexivity.
  - destruct (key best <? key x) eqn:Hlt.
    + apply Z.ltb_lt in Hlt. apply IH.
      * destruct Hin as [->|Hin]; [|exact Hin].
        destruct (Hmax x) as [->|Hx]; [right; left; reflexivity | left; reflexivity | lia].
      * intros z Hz. apply Hmax. right. exact Hz.
    + apply Z.ltb_ge in Hlt. apply IH.
      * destruct Hin as [->|[->|Hin]]; [left; reflexivity | | right; exact Hin].
        destruct (Hmax best) as [->|Hb]; [left; reflexivity | left; reflexivity | lia].
      * intros z [->|Hz]; apply Hmax; [left; reflexivity | right; right; exact Hz].
Qed.

Lemma get_last_epoch_chosen (K : Collaborators) (dir : list File) (mask : string)
      (f : File) (fs : list File) :
  glob_entries K dir mask = f :: fs ->
  get_last_epoch K dir mask
  = match first_digit_run (path (max_by_key ctime f fs)) with
    | Some run => int_of_float (float_of_digits run)
    | None => Raise IndexError
    end.
Proof.
  intros Hglob. unfold get_last_epoch. rewrite Hglob. cbv zeta.
  rewrite <- head_split_blank.
  destruct (split (blank_non_digits (path (max_by_key ctime f fs)))); reflexivity.
Qed.

(** C4 (amended).  With no matching file the discovery returns -1.  With
    matches it returns the number written by the first maximal run of digits
    of the chosen name (exactly, below 2^53), the chosen file being the one
    with the greatest ctime and, among several such, the first that [glob]
    lists.  For the three names of the example it returns 7 when the file of
    epoch 7 is strictly more recent than the other two, in whatever order
    [glob] lists them. *)
Theorem getLastEpoch_discovery (K : Collaborators) (dir : list File) (mask : string) :
  (glob_entries K dir mask = [] -> get_last_epoch K dir mask = Ok (-1)) /\
  (forall f fs run,
      glob_entries K dir mask = f :: fs ->
      first_digit_run (path (max_by_key ctime f fs)) = Some run ->
      Z_of_digits run < 2 ^ 53 ->
      get_last_epoch K dir mask = Ok (Z_of_digits run)) /\
  (forall latest,
      Permutation (map path (glob_entries K dir mask))
                  ["g_0001_000.weights"; "g_0007_000.weights"; "g_0003_000.weights"] ->
      In latest (glob_entries K dir mask) ->
      path latest = "g_0007_000.weights" ->
      (forall f, In f (glob_entries K dir mask) -> f = latest \/ ctime f < ctime latest) ->
      get_last_epoch K dir mask = Ok 7).
Proof.
  split; [|split].
  - intros Hglob. unfold get_last_epoch. rewrite Hglob. reflexivity.
  - intros f fs run Hglob Hrun Hsmall.
    rewrite (get_last_epoch_chosen K dir mask f fs Hglob), Hrun.
    unfold float_of_digits. rewrite round_to_double_exact by exact Hsmall. reflexivity.
  - intros latest Hperm Hin Hname Hmax.
    destruct (glob_entries K dir mask) as [|f fs] eqn:Hglob; [destruct Hin|].
    rewrite (get_last_epoch_chosen K dir mask f fs Hglob).
    rewrite (max_by_key_strict ctime f fs latest Hin Hmax), Hname.
    reflexivity.
Qed.

Lemma getLastEpoch_discovery_witness :
  get_last_epoch Scenario.collaborators (Scenario.three_checkpoints 10 30 20)
                 "g_*_000.weights" = Ok 7.
Proof.
  destruct (getLastEpoch_discovery Scenario.collaborators
              (Scenario.three_checkpoints 10 30 20) "g_*_000.weights") as (_ & _ & H).
  apply (H (mkFile "g_0007_000.weights" 30 [])).
  - apply Permutation_refl.
  - right; left; reflexivity.
  - reflexivity.
  - intros f [<-|[<-|[<-|[]]]]; [right | left | right]; simpl; first [reflexivity | lia].
Defined.

(** C4 as stated fails on ties: when the three files have the same ctime
    (so the epochs do not decrease with recency) and [glob] lists them in the
    order of the example, the discovery returns 1. *)
Lemma getLastEpoch_discovery_counterexample :
  map path (glob_entries Scenario.collaborators (Scenario.three_checkpoints 5 5 5)
              "g_*_000.weights")
  = ["g_0001_000.weights"; "g_0007_000.weights"; "g_0003_000.weights"] /\
  (forall f g e e',
      In f (Scenario.three_checkpoints 5 5 5) ->
      In g (Scenario.three_checkpoints 5 5 5) ->
      option_map Z_of_digits (first_digit_run (path f)) = Some e ->
      option_map Z_of_digits (first_digit_run (path g)) = Some e' ->
      e <= e' -> ctime f <= ctime g) /\
  get_last_epoch Scenario.collaborators (Scenario.three_checkpoints 5 5 5)
                 "g_*_000.weights" = Ok 1 /\
  get_last_epoch Scenario.collaborators (Scenario.three_checkpoints 5 5 5)
                 "g_*_000.weights" <> Ok 7.
Proof.
  split; [vm_compute; reflexivity|]. split; [|split].
  - intros f g e e' Hf Hg _ _ _.
    simpl in Hf, Hg.
    destruct Hf as [<-|[<-|[<-|[]]]]; destruct Hg as [<-|[<-|[<-|[]]]]; simpl; lia.
  - vm_compute. reflexivity.
  - vm_compute. discriminate.
Qed.

(** ** Restoring artifacts *)

Section Restore.
Context (K : Collaborators) (cfg : Config).

Lemma load_artifact_missing what name set w :
  glob_entries K (files w) name = [] ->
  load_artifact K what name set w
  = mkOutcome [] w (Raise (Exception (what +:+ name +:+ " not found"))).
Proof.
  intros Hglob. unfold load_artifact, require_file.
  rewrite (bind_raise (bind (glob K name) _) _ w [] w
             (Exception (what +:+ name +:+ " not found"))); [reflexivity|].
  rewrite (bind_ok (glob K name) _ w _ _ _ eq_refl). rewrite Hglob. reflexivity.
Qed.

Lemma load_artifact_found what name set w :
  present K (files w) name ->
  exists v,
    find (fun f => String.eqb (path f) name) (files w) = Some v /\
    load_artifact K what name set w
    = mkOutcome [] (set_models w (set (content v) (models w))) (Ok tt).
Proof.
  intros (Hglob & v & Hfind). exists v. split; [exact Hfind|].
  unfold load_artifact, require_file.
  assert (Hreq : bind (glob K name)
                   (fun found => if (length found =? 0)%nat
                                 then raise (Exception (what +:+ name +:+ " not found"))
                                 else ret tt) w
                 = mkOutcome [] w (Ok tt)).
  { rewrite (bind_ok (glob K name) _ w _ _ _ eq_refl).
    destruct (glob_entries K (files w) name); [congruence | reflexivity]. }
  rewrite (bind_ok _ _ _ _ _ _ Hreq).
  assert (Hread : read_file name w = mkOutcome [] w (Ok (content v))).
  { unfold read_file. rewrite Hfind. reflexivity. }
  rewrite (bind_ok _ _ _ _ _ _ Hread). reflexivity.
Qed.

(** Restoring a list of artifacts one after the other stops at the first
    that is missing. *)
Lemma restore_optimizer_states_missing e w missing :
  (exists loc, res (train_gan K cfg 0 1 w) = Ok loc) ->
  first_missing K (files w) (optimizer_artifacts cfg e) missing ->
  exists what w',
    restore_optimizer_states K cfg e w
    = mkOutcome (log (train_gan K cfg 0 1 w)) w'
        (Raise (Exception (what +:+ missing +:+ " not found"))).
Proof.
  intros (loc & Hres) (before & after & Hnames & Hbefore & Hmissing).
  pose proof (keeps_env_train_gan K cfg 0 1 w) as Henv. injection Henv as _ Hfiles.
  assert (Hrun : train_gan K cfg 0 1 w
                 = mkOutcome (log (train_gan K cfg 0 1 w))
                     (world (train_gan K cfg 0 1 w)) (Ok loc)).
  { rewrite <- Hres. apply outcome_eta. }
  set (w1 := world (train_gan K cfg 0 1 w)) in *.
  unfold restore_optimizer_states. rewrite (bind_ok _ _ _ _ _ _ Hrun).
  unfold optimizer_artifacts in Hnames.
  destruct before as [|b1 [|b2 [|b3 before]]]; simpl in Hnames.
  - (* the generator file *)
    injection Hnames as <- _.
    rewrite (bind_raise _ _ _ _ _ _ (load_artifact_missing _ _ _ w1 ltac:(rewrite Hfiles; exact Hmissing))).
    eexists _, _. simpl. rewrite app_nil_r. reflexivity.
  - (* the discriminator file *)
    injection Hnames as <- <- _.
    apply Forall_cons_1 in Hbefore as [Hg _].
    destruct (load_artifact_found "Generator optimizer state file " _
                set_generator_optimizer w1 ltac:(rewrite Hfiles; exact Hg)) as (v & _ & Hload).
    rewrite (bind_ok _ _ _ _ _ _ Hload).
    set (w2 := set_models w1 (set_generator_optimizer (content v) (models w1))).
    assert (Hfiles2 : files w2 = files w) by exact Hfiles.
    rewrite (bind_raise _ _ _ _ _ _
               (load_artifact_missing _ _ _ w2 ltac:(rewrite Hfiles2; exact Hmissing))).
    eexists _, _. simpl. rewrite app_nil_r. reflexivity.
  - (* the combined file *)
    injection Hnames as <- <- <- _.
    apply Forall_cons_1 in Hbefore as [Hg Hbefore].
    apply Forall_cons_1 in Hbefore as [Hd _].
    destruct (load_artifact_found "Generator optimizer state file " _
                set_generator_optimizer w1 ltac:(rewrite Hfiles; exact Hg)) as (v & _ & Hload).
    rewrite (bind_ok _ _ _ _ _ _ Hload).
    set (w2 := set_models w1 (set_generator_optimizer (content v) (models w1))).
    assert (Hfiles2 : files w2 = files w) by exact Hfiles.
    destruct (load_artifact_found "Discriminator optimizer state file " _
                set_discriminator_optimizer w2 ltac:(rewrite Hfiles2; exact Hd))
      as (v' & _ & Hload').
    rewrite (bind_ok _ _ _ _ _ _ Hload').
    set (w3 := set_models w2 (set_discriminator_optimizer (content v') (models w2))).
    assert (Hfiles3 : files w3 = files w) by exact Hfiles.
    rewrite (bind_raise _ _ _ _ _ _
               (load_artifact_missing _ _ _ w3 ltac:(rewrite Hfiles3; exact Hmissing))).
    eexists _, _. simpl. rewrite app_nil_r. reflexivity.
  - (* no fourth file *)
    destruct before; discriminate Hnames.
Qed.

Lemma restore_weights_missing e0 e w missing :
  (if load_model cfg then Ok e0
   else get_last_epoch K (files w) (d_pfx cfg +:+ "*.weights")) = Ok e ->
  first_missing K (files w) (weights_artifacts cfg e) missing ->
  exists what w',
    restore_weights K cfg e0 w
    = mkOutcome [] w' (Raise (Exception (what +:+ missing +:+ " not found"))).
Proof.
  intros Htarget (before & after & Hnames & Hbefore & Hmissing).
  unfold restore_weights.
  assert (Hfirst : (if load_model cfg then ret e0
                    else getLastEpoch K (d_pfx cfg +:+ "*.weights")) w
                   = mkOutcome [] w (Ok e)).
  { destruct (load_model cfg).
    - injection Htarget as <-. reflexivity.
    - unfold getLastEpoch. rewrite Htarget. reflexivity. }
  rewrite (bind_ok _ _ _ _ _ _ Hfirst).
  unfold weights_artifacts in Hnames.
  destruct before as [|b1 [|b2 before]]; simpl in Hnames.
  - injection Hnames as <- _.
    rewrite (bind_raise _ _ _ _ _ _ (load_artifact_missing _ _ _ w Hmissing)).
    eexists _, _. reflexivity.
  - injection Hnames as <- <- _.
    apply Forall_cons_1 in Hbefore as [Hg _].
    destruct (load_artifact_found "Generator weights file " _
                set_generator_weights w Hg) as (v & _ & Hload).
    rewrite (bind_ok _ _ _ _ _ _ Hload).
    rewrite (bind_raise _ _ _ _ _ _
               (load_artifact_missing _ _ _
                  (set_models w (set_generator_weights (content v) (models w))) Hmissing)).
    eexists _, _. reflexivity.
  - destruct before; discriminate Hnames.
Qed.

End Restore.

(** C9.  When a resume is requested and an epoch has been discovered, a
    missing artifact is fatal: the run ends with an exception whose message
    contains the name of the first required file that [glob] does not find
    (generator, discriminator, combined optimizer states in optimizer mode,
    once the warm-up call of [train_gan] has returned; generator and
    discriminator weights in weights mode), and no epoch of training follows
    the failed restore. *)
Theorem missing_artifact_is_fatal (K : Collaborators) (cfg : Config) (w : World) :
  (forall e missing,
      load_model cfg = true ->
      get_last_epoch K (files w)
        (checkpoint_mask (c_pfx cfg) (rank_to_load cfg) ".optimizer") = Ok e ->
      -1 < e ->
      (exists loc, res (train_gan K cfg 0 1 w) = Ok loc) ->
      first_missing K (files w) (optimizer_artifacts cfg e) missing ->
      exists msg,
        res (main K cfg w) = Raise (Exception msg) /\
        mentions msg missing /\
        log (main K cfg w) = log (train_gan K cfg 0 1 w)) /\
  (forall e0 e missing,
      load_weights cfg = true -> load_model cfg = false ->
      get_last_epoch K (files w)
        (checkpoint_mask (d_pfx cfg) (rank_to_load cfg) ".weights") = Ok e0 ->
      -1 < e0 ->
      get_last_epoch K (files w) (d_pfx cfg +:+ "*.weights") = Ok e ->
      first_missing K (files w) (weights_artifacts cfg e) missing ->
      exists msg,
        res (main K cfg w) = Raise (Exception msg) /\
        mentions msg missing /\
        log (main K cfg w) = []).
Proof.
  split.
  - intros e missing Hlm Hge He Htrain Hmissing.
    destruct (restore_optimizer_states_missing K cfg e w missing Htrain Hmissing)
      as (what & w' & Hrestore).
    assert (Hresume :
      resume K cfg w
      = mkOutcome (log (train_gan K cfg 0 1 w)) w'
          (Raise (Exception (what +:+ missing +:+ " not found")))).
    { unfold resume. cbv zeta. rewrite Hlm.
      assert (Hfirst : getLastEpoch K
                (checkpoint_mask (c_pfx cfg) (rank_to_load cfg) ".optimizer") w
              = mkOutcome [] w (Ok e)).
      { unfold getLastEpoch. rewrite Hge. reflexivity. }
      rewrite (bind_ok _ _ _ _ _ _ Hfirst).
      replace (-1 <? e) with true by (symmetry; apply Z.ltb_lt; exact He).
      cbn [andb]. rewrite (bind_raise _ _ _ _ _ _ Hrestore). reflexivity. }
    unfold main. rewrite (bind_raise _ _ _ _ _ _ Hresume).
    exists (what +:+ missing +:+ " not found").
    split; [reflexivity|]. split; [|reflexivity].
    exists what, " not found". reflexivity.
  - intros e0 e missing Hlw Hlm Hge0 He0 Hge Hmissing.
    destruct (restore_weights_missing K cfg e0 e w missing) as (what & w' & Hrestore);
      [rewrite Hlm; exact Hge | exact Hmissing |].
    assert (Hresume :
      resume K cfg w
      = mkOutcome [] w' (Raise (Exception (what +:+ missing +:+ " not found")))).
    { unfold resume. cbv zeta. rewrite Hlm, Hlw.
      rewrite (bind_ok (ret (-1)) _ w _ _ _ eq_refl).
      cbn [andb negb orb].
      rewrite (bind_ok (ret tt) _ w _ _ _ eq_refl).
      assert (Hfirst : getLastEpoch K
                (checkpoint_mask (d_pfx cfg) (rank_to_load cfg) ".weights") w
              = mkOutcome [] w (Ok e0)).
      { unfold getLastEpoch. rewrite Hge0. reflexivity. }
      rewrite (bind_ok _ _ _ _ _ _ Hfirst).
      replace (-1 <? e0) with true by (symmetry; apply Z.ltb_lt; exact He0).
      rewrite Hrestore. reflexivity. }
    unfold main. rewrite (bind_raise _ _ _ _ _ _ Hresume).
    exists (what +:+ missing +:+ " not found").
    split; [reflexivity|]. split; [|reflexivity].
    exists what, " not found". reflexivity.
Qed.

Lemma missing_artifact_is_fatal_witness :
  (exists msg,
      res (main Scenario.collaborators (Scenario.config_with 1 true false 0%Qc 1)
             (Scenario.world [mkFile "params_combined_epoch_0002_000.optimizer" 1 []]))
      = Raise (Exception msg) /\
      mentions msg "params_generator_epoch_0002_000.optimizer") /\
  (exists msg,
      res (main Scenario.collaborators (Scenario.config_with 1 false true 0%Qc 1)
             (Scenario.world [mkFile "params_discriminator_epoch_0003_000.weights" 1 []]))
      = Raise (Exception msg) /\
      mentions msg "params_generator_epoch_0003_000.weights").
Proof.
  split.
  - destruct (missing_artifact_is_fatal Scenario.collaborators
                (Scenario.config_with 1 true false 0%Qc 1)
                (Scenario.world [mkFile "params_combined_epoch_0002_000.optimizer" 1 []]))
      as (H & _).
    destruct (H 2 "params_generator_epoch_0002_000.optimizer") as (msg & Hres & Hmsg & _).
    + reflexivity.
    + vm_compute. reflexivity.
    + lia.
    + eexists. vm_compute. reflexivity.
    + exists [], ["params_discriminator_epoch_0002_000.optimizer";
                  "params_combined_epoch_0002_000.optimizer"].
      split; [vm_compute; reflexivity|]. split; [constructor | vm_compute; reflexivity].
    + exists msg. split; assumption.
  - destruct (missing_artifact_is_fatal Scenario.collaborators
                (Scenario.config_with 1 false true 0%Qc 1)
                (Scenario.world [mkFile "params_discriminator_epoch_0003_000.weights" 1 []]))
      as (_ & H).
    destruct (H 3 3 "params_generator_epoch_0003_000.weights") as (msg & Hres & Hmsg & _).
    + reflexivity.
    + reflexivity.
    + vm_compute. reflexivity.
    + lia.
    + vm_compute. reflexivity.
    + exists [], ["params_discriminator_epoch_0003_000.weights"].
      split; [vm_compute; reflexivity|]. split; [constructor | vm_compute; reflexivity].
    + exists msg. split; assumption.
Defined.

(** ** Floating-point rounding *)

Lemma Qpower2_pos (e : Z) : (0 < 2 ^ e)%Q.
Proof. apply Qpower_0_lt. reflexivity. Qed.

Lemma Qpower2_Z (k : Z) : 0 <= k -> (inject_Z (2 ^ k) == 2 ^ k)%Q.
Proof. intros Hk. apply (Zpower_Qpower 2 k Hk). Qed.

Lemma Qpower2_add (a b : Z) : (2 ^ (a + b) == 2 ^ a * 2 ^ b)%Q.
Proof. apply Qpower_plus. discriminate. Qed.

Lemma Qpower2_lt_inv (a b : Z) : (2 ^ a < 2 ^ b)%Q -> a < b.
Proof. intros H. apply (Qpower_lt_compat_l_inv 2 a b H). reflexivity. Qed.

Lemma Qpower2_le (a b : Z) : a <= b -> (2 ^ a <= 2 ^ b)%Q.
Proof. intros H. apply Qpower_le_compat_l; [exact H | discriminate]. Qed.

(** The integer logarithm brackets its argument. *)
Lemma Qlog2_spec (q : Q) :
  (0 < q)%Q -> (2 ^ Qlog2 q <= q)%Q /\ (q < 2 ^ (Qlog2 q + 1))%Q.
Proof.
  intros Hq. unfold Qlog2. destruct (Qle_bool 1 q) eqn:Hone.
  - apply Qle_bool_iff in Hone.
    assert (Hn : 0 < Qfloor q).
    { pose proof (Qfloor_resp_le _ _ Hone) as H. change (Qfloor 1) with 1 in H. lia. }
    destruct (Z.log2_spec _ Hn) as (Hlow & Hhigh).
    pose proof (Z.log2_nonneg (Qfloor q)) as Hnn.
    split.
    + rewrite <- Qpower2_Z by exact Hnn.
      apply Qle_trans with (inject_Z (Qfloor q)); [|apply Qfloor_le].
      rewrite <- Zle_Qle. exact Hlow.
    + rewrite <- Qpower2_Z by lia.
      apply Qlt_le_trans with (inject_Z (Qfloor q + 1)); [apply Qlt_floor|].
      rewrite <- Zle_Qle. rewrite <- Z.add_1_r in Hhigh. lia.
  - assert (Hlt : (q < 1)%Q).
    { apply Qnot_le_lt. intros H. apply Qle_bool_iff in H. congruence. }
    assert (Hinv : (1 < / q)%Q).
    { apply Qlt_shift_inv_l; [exact Hq|]. rewrite Qmult_1_l. exact Hlt. }
    set (c := Qceiling (/ q)).
    assert (Hc : 1 < c).
    { apply Z.lt_nge. intros Hle. rewrite Zle_Qle in Hle.
      pose proof (Qle_ceiling (/ q)) as H. fold c in H.
      apply (Qlt_irrefl 1). eapply Qlt_le_trans; [exact Hinv|].
      eapply Qle_trans; [exact H | exact Hle]. }
    destruct (Z.log2_up_spec _ Hc) as (Hlow & Hhigh).
    assert (Hu : 0 < Z.log2_up c) by (apply Z.log2_up_pos; exact Hc).
    set (u := Z.log2_up c) in *.
    assert (Hqq : (q * / q == 1)%Q).
    { apply Qmult_inv_r. intros H0. rewrite H0 in Hq. discriminate Hq. }
    split.
    + rewrite Qpower_opp. apply Qle_shift_inv_r; [apply Qpower2_pos|].
      rewrite <- Hqq. apply Qmult_le_l; [exact Hq|].
      eapply Qle_trans; [apply Qle_ceiling|]. fold c.
      rewrite <- Qpower2_Z by lia. rewrite <- Zle_Qle. exact Hhigh.
    + replace (- u + 1) with (- (u - 1)) by lia. rewrite Qpower_opp.
      apply Qlt_shift_inv_l; [apply Qpower2_pos|].
      rewrite <- Hqq. apply Qmult_lt_l; [exact Hq|].
      eapply Qle_lt_trans; [|apply Qceiling_lt]. fold c.
      rewrite <- Qpower2_Z by lia. rewrite <- Zle_Qle.
      replace (u - 1) with (Z.pred u) by lia. lia.
Qed.

Lemma Qlog2_unique (q : Q) (e : Z) :
  (2 ^ e <= q)%Q -> (q < 2 ^ (e + 1))%Q -> Qlog2 q = e.
Proof.
  intros Hlow Hhigh.
  assert (Hq : (0 < q)%Q) by (eapply Qlt_le_trans; [apply (Qpower2_pos e) | exact Hlow]).
  destruct (Qlog2_spec q Hq) as (Hlow' & Hhigh').
  assert (H1 : Qlog2 q < e + 1).
  { apply Qpower2_lt_inv. eapply Qle_lt_trans; [exact Hlow' | exact Hhigh]. }
  assert (H2 : e < Qlog2 q + 1).
  { apply Qpower2_lt_inv. eapply Qle_lt_trans; [exact Hlow | exact Hhigh']. }
  lia.
Qed.

#[local] Instance Qlog2_comp : Proper (Qeq ==> eq) Qlog2.
Proof.
  intros x y Hxy. unfold Qlog2.
  rewrite (Qleb_comp 1%Q 1%Q (Qeq_refl 1%Q) x y Hxy), (Qfloor_comp x y Hxy).
  rewrite (Qceiling_comp (/ x) (/ y))%Q by (rewrite Hxy; reflexivity).
  reflexivity.
Qed.

#[local] Instance Qround_even_comp : Proper (Qeq ==> eq) Qround_even.
Proof.
  intros x y Hxy. unfold Qround_even. cbv zeta.
  rewrite (Qfloor_comp x y Hxy).
  rewrite (Qcompare_comp (x - inject_Z (Qfloor y))%Q (y - inject_Z (Qfloor y))%Q
             ltac:(rewrite Hxy; reflexivity) (1 # 2)%Q (1 # 2)%Q (Qeq_refl _)).
  reflexivity.
Qed.

#[local] Instance ulp_exponent_comp (fmt : float_format) :
  Proper (Qeq ==> eq) (ulp_exponent fmt).
Proof.
  intros x y Hxy. unfold ulp_exponent.
  rewrite (Qlog2_comp (Qabs x) (Qabs y)) by (rewrite Hxy; reflexivity).
  reflexivity.
Qed.

#[local] Instance round_Q_comp (fmt : float_format) :
  Proper (Qeq ==> Qeq) (round_Q fmt).
Proof.
  intros x y Hxy. unfold round_Q.
  rewrite (Qeqb_comp x y Hxy 0%Q 0%Q (Qeq_refl 0%Q)).
  destruct (Qeq_bool y 0); [reflexivity|]. cbv zeta.
  rewrite (ulp_exponent_comp fmt x y Hxy).
  rewrite (Qround_even_comp (x / 2 ^ ulp_exponent fmt y) (y / 2 ^ ulp_exponent fmt y))%Q
    by (rewrite Hxy; reflexivity).
  reflexivity.
Qed.

Lemma Qround_even_Z (k : Z) : Qround_even (inject_Z k) = k.
Proof.
  unfold Qround_even. rewrite Qfloor_Z.
  assert (H : (inject_Z k - inject_Z k ?= 1 # 2)%Q = Lt).
  { apply -> Qlt_alt. lra. }
  rewrite H. reflexivity.
Qed.

Lemma Qround_even_bound (q : Q) (M : Z) :
  (- inject_Z M <= q)%Q -> (q <= inject_Z M)%Q -> - M <= Qround_even q <= M.
Proof.
  intros Hlow Hhigh.
  assert (H1 : - M <= Qfloor q).
  { rewrite <- (Qfloor_Z (- M)). apply Qfloor_resp_le. rewrite inject_Z_opp. exact Hlow. }
  assert (H2 : Qfloor q <= M).
  { rewrite <- (Qfloor_Z M). apply Qfloor_resp_le. exact Hhigh. }
  unfold Qround_even. cbv zeta.
  destruct (Qcompare_spec (q - inject_Z (Qfloor q)) (1 # 2)) as [Heq | Hlt | Hgt].
  - assert (Hne : Qfloor q <> M).
    { intros Hm. rewrite Hm in Heq. pose proof (Qfloor_le q). lra. }
    destruct (Z.even (Qfloor q)); lia.
  - lia.
  - assert (Hne : Qfloor q <> M).
    { intros Hm. rewrite Hm in Hgt. lra. }
    lia.
Qed.

Lemma Qabs_inject_Z (k : Z) : Qabs (inject_Z k) = inject_Z (Z.abs k).
Proof. reflexivity. Qed.

Lemma Qlog2_scaled (k e : Z) :
  0 < k -> Qlog2 (inject_Z k * 2 ^ e) = Z.log2 k + e.
Proof.
  intros Hk. destruct (Z.log2_spec _ Hk) as (Hlow & Hhigh).
  pose proof (Z.log2_nonneg k) as Hnn.
  apply Qlog2_unique.
  - rewrite Qpower2_add. apply Qmult_le_compat_r; [|apply Qlt_le_weak, Qpower2_pos].
    rewrite <- Qpower2_Z by exact Hnn. rewrite <- Zle_Qle. exact Hlow.
  - replace (Z.log2 k + e + 1) with (Z.succ (Z.log2 k) + e) by lia.
    rewrite Qpower2_add. apply Qmult_lt_compat_r; [apply Qpower2_pos|].
    rewrite <- Qpower2_Z by lia. rewrite <- Zlt_Qlt. exact Hhigh.
Qed.

Section Rounding.
Context (fmt : float_format).
Hypothesis precision_pos : 0 < precision fmt.

(** A number that is a whole multiple of its unit in the last place is a
    float. *)
Lemma round_Q_fixed (y : Q) (j : Z) :
  (y == inject_Z j * 2 ^ ulp_exponent fmt y)%Q -> (round_Q fmt y == y)%Q.
Proof.
  intros Hy. unfold round_Q. destruct (Qeq_bool y 0) eqn:Hz.
  - apply Qeq_bool_iff in Hz. rewrite Hz. reflexivity.
  - cbv zeta. set (e := ulp_exponent fmt y) in *.
    assert (Hq : (y / 2 ^ e == inject_Z j)%Q).
    { rewrite Hy. field. intros H0. pose proof (Qpower2_pos e) as Hp.
      rewrite H0 in Hp. discriminate Hp. }
    rewrite (Qround_even_comp _ _ Hq), Qround_even_Z. symmetry. exact Hy.
Qed.

(** The significand of a rounded number has at most [precision] bits. *)
Lemma significand_bound (q : Q) :
  ~ (q == 0)%Q ->
  let e := ulp_exponent fmt q in
  - 2 ^ precision fmt <= Qround_even (q / 2 ^ e) <= 2 ^ precision fmt.
Proof.
  intros Hq e.
  assert (Habs : (0 < Qabs q)%Q).
  { destruct (Qlt_le_dec 0 (Qabs q)) as [H | H]; [exact H|].
    exfalso. apply Hq. pose proof (Qabs_nonneg q) as Hn.
    assert (Hz : (Qabs q == 0)%Q) by (apply Qle_antisym; assumption).
    destruct (Qabs_Qle_condition q 0) as (Hc & _).
    destruct Hc as (H1 & H2); [rewrite Hz; apply Qle_refl|].
    apply Qle_antisym; [exact H2 | exact H1]. }
  destruct (Qlog2_spec _ Habs) as (_ & Hhigh).
  assert (He : Qlog2 (Qabs q) + 1 <= precision fmt + e) by (unfold e, ulp_exponent; lia).
  assert (Hb : (Qabs (q / 2 ^ e) <= inject_Z (2 ^ precision fmt))%Q).
  { unfold Qdiv. rewrite Qabs_Qmult, Qabs_Qinv.
    rewrite (Qabs_pos (2 ^ e)) by apply Qlt_le_weak, Qpower2_pos.
    apply Qle_shift_div_r; [apply Qpower2_pos|].
    rewrite Qpower2_Z by lia. rewrite <- Qpower2_add.
    apply Qlt_le_weak. eapply Qlt_le_trans; [exact Hhigh|].
    apply Qpower2_le. exact He. }
  apply Qabs_Qle_condition in Hb as (H1 & H2).
  apply Qround_even_bound; assumption.
Qed.

Lemma round_Q_idempotent (q : Q) : (round_Q fmt (round_Q fmt q) == round_Q fmt q)%Q.
Proof.
  unfold round_Q at 2 3. destruct (Qeq_bool q 0) eqn:Hz; [reflexivity|].
  apply Qeq_bool_neq in Hz. cbv zeta.
  pose proof (significand_bound q Hz) as Hk. cbv zeta in Hk.
  set (e := ulp_exponent fmt q) in *.
  set (k := Qround_even (q / 2 ^ e)) in *.
  assert (Hemin : emin fmt <= e) by (unfold e, ulp_exponent; lia).
  destruct (Z.eq_dec k 0) as [-> | Hk0].
  { rewrite Qmult_0_l. reflexivity. }
  set (y := (inject_Z k * 2 ^ e)%Q).
  assert (Hlog : Qlog2 (Qabs y) = Z.log2 (Z.abs k) + e).
  { unfold y. rewrite Qabs_Qmult, Qabs_inject_Z.
    rewrite (Qabs_pos (2 ^ e)) by apply Qlt_le_weak, Qpower2_pos.
    apply Qlog2_scaled. lia. }
  assert (Hlog2 : Z.log2 (Z.abs k) <= precision fmt).
  { rewrite <- (Z.log2_pow2 (precision fmt)) by lia. apply Z.log2_le_mono. lia. }
  destruct (Z.eq_dec (Z.log2 (Z.abs k)) (precision fmt)) as [Htop | Hlow].
  - (* the significand is the power of two above the largest *)
    assert (Hpow : Z.abs k = 2 ^ precision fmt).
    { assert (H0 : 0 < Z.abs k) by lia.
      destruct (Z.log2_spec _ H0) as (H1 & _). rewrite Htop in H1. lia. }
    assert (He' : ulp_exponent fmt y = e + 1) by (unfold ulp_exponent; rewrite Hlog; lia).
    apply (round_Q_fixed y (k / 2)). rewrite He'. unfold y.
    assert (Hdiv : k = 2 * (k / 2)).
    { apply Z.div_exact; [lia|].
      assert (Heven : Z.abs k mod 2 = 0).
      { rewrite Hpow. replace (precision fmt) with (1 + (precision fmt - 1)) by lia.
        rewrite Z.pow_add_r by lia. rewrite Z.mul_comm, Z.mod_mul by lia. reflexivity. }
      destruct (Z.abs_spec k) as [(_ & Ha) | (_ & Ha)]; rewrite Ha in Heven.
      - exact Heven.
      - rewrite <- (Z.opp_involutive k). rewrite Z.mod_opp_l_z by lia. reflexivity. }
    rewrite Hdiv at 1. rewrite inject_Z_mult, Qpower2_add.
    change (2 ^ 1)%Q with 2%Q. change (inject_Z 2) with 2%Q. ring.
  - (* the unit in the last place does not grow *)
    assert (He' : ulp_exponent fmt y <= e) by (unfold ulp_exponent; rewrite Hlog; lia).
    set (e' := ulp_exponent fmt y) in *.
    apply (round_Q_fixed y (k * 2 ^ (e - e'))). fold e'. unfold y.
    rewrite inject_Z_mult, Qpower2_Z by lia.
    rewrite <- Qmult_assoc, <- Qpower2_add.
    replace (e - e' + e') with e by lia. reflexivity.
Qed.

End Rounding.

Lemma round_float_idempotent (fmt : float_format) (x : Qc) :
  0 < precision fmt -> round_float fmt (round_float fmt x) = round_float fmt x.
Proof.
  intros Hp. unfold round_float. apply Q2Qc_eq_iff.
  cbn [this Q2Qc]. rewrite (round_Q_comp fmt _ _ (Qred_correct _)).
  apply round_Q_idempotent. exact Hp.
Qed.

Lemma round_float_0 (fmt : float_format) : round_float fmt 0 = 0%Qc.
Proof. apply Qc_is_canon. reflexivity. Qed.

Lemma float32_idempotent (x : Qc) : float32 (float32 x) = float32 x.
Proof. apply round_float_idempotent. reflexivity. Qed.

Lemma float32_0 : float32 0 = 0%Qc.
Proof. apply round_float_0. Qed.

Lemma float64_0 : float64 0 = 0%Qc.
Proof. apply round_float_0. Qed.

Lemma float32_1 : float32 1 = 1%Qc.
Proof. apply Qc_is_canon. vm_compute. reflexivity. Qed.

Lemma float32_of_nat_1 : float32 (Qc_of_nat 1) = 1%Qc.
Proof. apply Qc_is_canon. vm_compute. reflexivity. Qed.

Lemma float32_of_nat_2 : float32 (Qc_of_nat 2) = Q2Qc 2.
Proof. apply Qc_is_canon. vm_compute. reflexivity. Qed.

(** With coefficient 1 the blend of [a] and [b] is [a], rounded. *)
Lemma float32_blend_one (a b : Qc) : float32_blend 1 a b = float32 a.
Proof.
  unfold float32_blend. replace (1 - 1)%Qc with 0%Qc by ring.
  rewrite float64_0, float32_0, float32_1, Qcmult_0_l, Qcmult_1_l, float32_0,
    Qcplus_0_r.
  apply float32_idempotent.
Qed.

(** ** Transposition and means *)

Lemma min_length_rect {A} (ls : list (list A)) (n : nat) :
  ls <> [] -> Forall (fun l => length l = n) ls -> min_length ls = n.
Proof.
  intros Hne Hall. destruct ls as [|l ls]; [congruence|].
  apply Forall_cons_1 in Hall as [Hl Hall]. unfold min_length. rewrite Hl.
  clear Hne. induction Hall as [|l' ls Hl' _ IH]; simpl; [reflexivity|].
  rewrite IH, Hl'. apply Nat.min_id.
Qed.

Lemma omap_lookup_rect {A} (ls : list (list A)) (n i : nat) (d : A) :
  Forall (fun l => length l = n) ls -> (i < n)%nat ->
  omap (fun l => l !! i) ls = map (fun l => nth i l d) ls.
Proof.
  intros Hall Hi. induction Hall as [|l ls Hl _ IH]; [reflexivity|].
  destruct (lookup_lt_is_Some_2 l i) as [x Hx]; [lia|].
  change (omap (fun l => l !! i) (l :: ls))
    with (match l !! i with
          | Some y => y :: omap (fun l => l !! i) ls
          | None => omap (fun l => l !! i) ls
          end).
  rewrite Hx, IH. simpl. rewrite (nth_lookup_Some _ _ d _ Hx). reflexivity.
Qed.

(** Transposing lists of one length, by indices. *)
Lemma zip_star_rect {A} (ls : list (list A)) (n : nat) (d : A) :
  ls <> [] -> Forall (fun l => length l = n) ls ->
  zip_star ls = map (fun i => map (fun l => nth i l d) ls) (seq 0 n).
Proof.
  intros Hne Hall. unfold zip_star. rewrite (min_length_rect ls n Hne Hall).
  apply map_ext_in. intros i Hi. apply in_seq in Hi.
  apply (omap_lookup_rect ls n i d Hall). lia.
Qed.

Lemma map_nth_seq {A} (l : list A) (d : A) :
  map (fun i => nth i l d) (seq 0 (length l)) = l.
Proof.
  induction l as [|x l IH]; simpl; [reflexivity|].
  f_equal. rewrite <- seq_shift, map_map. exact IH.
Qed.

Lemma nth_map_seq {A} (f : nat -> A) (n k : nat) (d : A) :
  (k < n)%nat -> nth k (map f (seq 0 n)) d = f k.
Proof.
  intros Hk. rewrite (nth_indep _ d (f 0%nat)) by (rewrite length_map, length_seq; exact Hk).
  rewrite (map_nth f (seq 0 n) 0%nat k), seq_nth by exact Hk. reflexivity.
Qed.

Lemma shape_lengths (A B : Weights) :
  shape A = shape B ->
  length A = length B /\
  (forall k, length (nth k A []) = length (nth k B [])) /\
  (forall k i, length (nth i (nth k A []) []) = length (nth i (nth k B []) [])).
Proof.
  unfold Weights, tensor in *. intros Hshape.
  assert (H1 : forall k, map (@length Qc) (nth k A []) = map (@length Qc) (nth k B [])).
  { intros k.
    rewrite <- (map_nth (map (@length Qc)) A [] k), <- (map_nth (map (@length Qc)) B [] k).
    unfold shape in Hshape. rewrite Hshape. reflexivity. }
  split; [|split].
  - apply (f_equal (@length _)) in Hshape. unfold shape in Hshape.
    rewrite !length_map in Hshape. exact Hshape.
  - intros k. specialize (H1 k). apply (f_equal (@length _)) in H1.
    rewrite !length_map in H1. exact H1.
  - intros k i. specialize (H1 k).
    rewrite <- (map_nth (@length Qc) (nth k A []) [] i),
            <- (map_nth (@length Qc) (nth k B []) [] i).
    rewrite H1. reflexivity.
Qed.

(** The mean computed by lines 678-680 is the elementwise float32 mean. *)
Lemma mean_over_workers_spec (W0 : Weights) (rest : list Weights) :
  Forall (fun W => shape W = shape W0) rest ->
  mean_over_workers (W0 :: rest) = float32_elementwise_mean (W0 :: rest).
Proof.
  intros Hrest.
  assert (Hall : Forall (fun W => shape W = shape W0) (W0 :: rest))
    by (constructor; [reflexivity | exact Hrest]).
  clear Hrest. set (ws := W0 :: rest) in *.
  assert (Hne : ws <> []) by discriminate.
  assert (Hlen : forall W, In W ws ->
            length W = length W0 /\
            (forall k, length (nth k W []) = length (nth k W0 [])) /\
            (forall k i, length (nth i (nth k W []) []) = length (nth i (nth k W0 []) []))).
  { intros W HW. apply shape_lengths. rewrite List.Forall_forall in Hall. apply Hall, HW. }
  unfold mean_over_workers, float32_elementwise_mean. fold ws. unfold Weights, tensor in *.
  rewrite (zip_star_rect ws (length W0) []);
    [| exact Hne | apply List.Forall_forall; intros W HW; apply (Hlen W HW)].
  rewrite map_map. apply map_ext_in. intros k _.
  rewrite (zip_star_rect (map (fun W => nth k W []) ws) (length (nth k W0 [])) []).
  2:{ destruct ws; [congruence | discriminate]. }
  2:{ apply List.Forall_forall. intros t Ht. apply in_map_iff in Ht as (W & <- & HW).
      apply (Hlen W HW). }
  rewrite map_map. apply map_ext_in. intros i _.
  rewrite map_map. unfold float32_mean_axis0.
  rewrite (zip_star_rect (map (fun W => nth i (nth k W []) []) ws)
             (length (nth i (nth k W0 []) [])) 0%Qc).
  2:{ destruct ws; [congruence | discriminate]. }
  2:{ apply List.Forall_forall. intros t Ht. apply in_map_iff in Ht as (W & <- & HW).
      apply (Hlen W HW). }
  rewrite map_map. apply map_ext_in. intros j _.
  unfold float32_mean_entry, entry. rewrite map_map, length_map. reflexivity.
Qed.

(** The blend of lines 681-683, by indices. *)
Lemma blend_weights_entries (coeff : Qc) (new_weights this_weights : Weights) :
  shape new_weights = shape this_weights ->
  blend_weights coeff new_weights this_weights
  = map (fun k =>
           map (fun i =>
                  zip_with (float32_blend coeff)
                           (nth i (nth k new_weights []) [])
                           (nth i (nth k this_weights []) []))
               (seq 0 (length (nth k new_weights []))))
        (seq 0 (length new_weights)).
Proof.
  intros Hshape. destruct (shape_lengths _ _ Hshape) as (Hlen & Hlen1 & _).
  unfold blend_weights. unfold Weights, tensor in *.
  rewrite (zip_star_rect [new_weights; this_weights] (length new_weights) []);
    [| discriminate | repeat constructor; symmetry; exact Hlen].
  rewrite map_map. apply map_ext_in. intros k _. cbn [map].
  rewrite (zip_star_rect [nth k new_weights []; nth k this_weights []]
             (length (nth k new_weights [])) []);
    [| discriminate | repeat constructor; symmetry; apply Hlen1].
  rewrite map_map. apply map_ext_in. intros i _. reflexivity.
Qed.

Lemma zip_with_left (f : Qc -> Qc -> Qc) (a b : list Qc) :
  length a = length b -> (forall x y, In x a -> f x y = x) -> zip_with f a b = a.
Proof.
  intros Hlen Hf. revert b Hlen.
  induction a as [|x a IH]; intros [|y b] Hlen; simpl in *; try discriminate;
    [reflexivity|].
  rewrite Hf by (left; reflexivity).
  rewrite IH; [reflexivity | intros; apply Hf; right; assumption | lia].
Qed.

Lemma map_map_nth_seq (W : Weights) :
  map (fun k => map (fun i => nth i (nth k W []) []) (seq 0 (length (nth k W []))))
      (seq 0 (length W)) = W.
Proof.
  transitivity (map (fun k => nth k W []) (seq 0 (length W))); [|apply map_nth_seq].
  apply map_ext. intros k. apply map_nth_seq.
Qed.

(** The entries of weights of which every entry satisfies [P]. *)
Lemma entries_in (P : Qc -> Prop) (W : Weights) (k i : nat) (x : Qc) :
  Forall (Forall (Forall P)) W -> In x (nth i (nth k W []) []) -> P x.
Proof.
  intros HW Hx.
  assert (Hk : Forall (Forall P) (nth k W [])).
  { destruct (Nat.lt_ge_cases k (length W)) as [Hlt | Hge].
    - apply (proj1 (List.Forall_nth _ _) HW). exact Hlt.
    - rewrite nth_overflow by exact Hge. constructor. }
  assert (Hi : Forall P (nth i (nth k W []) [])).
  { destruct (Nat.lt_ge_cases i (length (nth k W []))) as [Hlt | Hge].
    - apply (proj1 (List.Forall_nth _ _) Hk). exact Hlt.
    - rewrite nth_overflow by exact Hge. constructor. }
  rewrite List.Forall_forall in Hi. apply Hi, Hx.
Qed.

Lemma entry_in (P : Qc -> Prop) (W : Weights) (k i j : nat) :
  Forall (Forall (Forall P)) W ->
  (j < length (nth i (nth k W []) []))%nat -> P (entry W k i j).
Proof.
  intros HW Hj. apply (entries_in P W k i _ HW). unfold entry. apply nth_In, Hj.
Qed.

(** With coefficient 1 the blend is the mean, when the mean holds floats. *)
Lemma blend_weights_one (new_weights this_weights : Weights) :
  shape new_weights = shape this_weights ->
  Forall (Forall (Forall (fun x => float32 x = x))) new_weights ->
  blend_weights 1%Qc new_weights this_weights = new_weights.
Proof.
  intros Hshape Hfloat. rewrite (blend_weights_entries _ _ _ Hshape).
  destruct (shape_lengths _ _ Hshape) as (_ & _ & Hlen2).
  etransitivity; [|apply (map_map_nth_seq new_weights)].
  apply map_ext. intros k. apply map_ext. intros i.
  apply zip_with_left; [apply Hlen2|].
  intros x y Hx. rewrite float32_blend_one.
  apply (entries_in _ new_weights k i x Hfloat Hx).
Qed.

Lemma shape_elementwise_mean (W0 : Weights) (rest : list Weights) :
  shape (float32_elementwise_mean (W0 :: rest)) = shape W0.
Proof.
  etransitivity; [|apply (f_equal shape (map_map_nth_seq W0))].
  unfold float32_elementwise_mean, shape. rewrite !map_map.
  apply map_ext. intros k. rewrite !map_map. apply map_ext. intros i.
  rewrite !length_map, length_seq. reflexivity.
Qed.

(** The mean holds floats. *)
Lemma elementwise_mean_rounded (ws : list Weights) :
  Forall (Forall (Forall (fun x => float32 x = x))) (float32_elementwise_mean ws).
Proof.
  unfold float32_elementwise_mean. destruct ws as [|W0 rest]; [constructor|].
  apply List.Forall_forall. intros t Ht. apply in_map_iff in Ht as (k & <- & _).
  apply List.Forall_forall. intros r Hr. apply in_map_iff in Hr as (i & <- & _).
  apply List.Forall_forall. intros x Hx. apply in_map_iff in Hx as (j & <- & _).
  unfold float32_mean_entry. apply float32_idempotent.
Qed.

(** A single worker: the mean of its weights is its weights. *)
Lemma elementwise_mean_single (W : Weights) :
  Forall (Forall (Forall (fun x => float32 x = x))) W ->
  float32_elementwise_mean [W] = W.
Proof.
  intros HW. unfold float32_elementwise_mean.
  etransitivity; [|apply (map_map_nth_seq W)].
  apply map_ext. intros k. apply map_ext. intros i.
  etransitivity; [|apply (map_nth_seq _ 0%Qc)].
  apply map_ext_in. intros j Hj. apply in_seq in Hj.
  pose proof (entry_in _ W k i j HW ltac:(lia)) as Hx. cbv beta in Hx.
  unfold float32_mean_entry, float32_sum. cbn [map fold_left length].
  rewrite float32_of_nat_1, Qcplus_0_l. fold (entry W k i j). rewrite Hx.
  replace (entry W k i j / 1)%Qc with (entry W k i j) by (field; discriminate).
  exact Hx.
Qed.

(** Entries of the elementwise mean. *)
Lemma entry_elementwise_mean (W0 : Weights) (rest : list Weights) (k i j : nat) :
  (k < length W0)%nat -> (i < length (nth k W0 []))%nat ->
  (j < length (nth i (nth k W0 []) []))%nat ->
  entry (float32_elementwise_mean (W0 :: rest)) k i j
  = float32_mean_entry (W0 :: rest) k i j.
Proof.
  intros Hk Hi Hj. unfold entry at 1, float32_elementwise_mean.
  rewrite (nth_map_seq _ _ _ _ Hk), (nth_map_seq _ _ _ _ Hi), (nth_map_seq _ _ _ _ Hj).
  reflexivity.
Qed.

(** Two workers: every entry of the mean is half the rounded sum, rounded. *)
Lemma mean_entry_two (a b : Weights) (k i j : nat) :
  float32 (entry a k i j) = entry a k i j ->
  float32_mean_entry [a; b] k i j
  = float32 (float32 (entry a k i j + entry b k i j) / Q2Qc 2)%Qc.
Proof.
  intros Ha. unfold float32_mean_entry, float32_sum. cbn [map fold_left length].
  rewrite float32_of_nat_2, Qcplus_0_l, Ha. reflexivity.
Qed.

(** ** The weights after a restore *)

Lemma in_range (n r : Z) : In r (range n) <-> 0 <= r < n.
Proof.
  unfold range. rewrite in_map_iff. split.
  - intros (i & <- & Hi). apply in_seq in Hi. lia.
  - intros Hr. exists (Z.to_nat r). split; [lia|]. apply in_seq. lia.
Qed.

Lemma range_pos (n : Z) :
  0 < n -> range n = 0 :: map Z.of_nat (seq 1 (Z.to_nat n - 1)).
Proof.
  intros Hn. unfold range.
  replace (Z.to_nat n) with (S (Z.to_nat n - 1)) at 1 by lia. reflexivity.
Qed.

Section Averaging.
Context (K : Collaborators) (cfg : Config).

Lemma checkpointed_found (dir : list File) (name : string) (f : File) :
  find (fun f => String.eqb (path f) name) dir = Some f ->
  content f = checkpointed dir name.
Proof. intros H. unfold checkpointed. rewrite H. reflexivity. Qed.

(** The loop of lines 671-677: the weights of every worker, in rank order. *)
Lemma average_loop_run what pfx e (get other : Models -> Weights)
      (set : Weights -> Models -> Models) (ranks : list Z) acc w0 w :
  (forall v m, get (set v m) = v) ->
  (forall v m, other (set v m) = other m) ->
  files w = files w0 -> other (models w) = other (models w0) ->
  (forall r, In r ranks -> present K (files w0) (checkpoint_name pfx e r ".weights")) ->
  exists w',
    for_each ranks
      (fun rank all_weights =>
         load_artifact K what (checkpoint_name pfx e rank ".weights") set ;;;
         m <- get_models ;;
         ret (all_weights ++ [get m]))
      acc w
    = mkOutcome [] w'
        (Ok (acc ++ map (fun r => checkpointed (files w0)
                                    (checkpoint_name pfx e r ".weights")) ranks)) /\
    files w' = files w0 /\ other (models w') = other (models w0).
Proof.
  intros Hget Hother. revert acc w.
  induction ranks as [|r ranks IH]; intros acc w Hfiles Hframe Hpresent.
  - exists w. cbn [for_each map]. rewrite app_nil_r. repeat split; assumption.
  - cbn [for_each].
    destruct (load_artifact_found K what (checkpoint_name pfx e r ".weights") set w)
      as (v & Hfind & Hload).
    { rewrite Hfiles. apply Hpresent. left. reflexivity. }
    rewrite bind_assoc, (bind_ok _ _ _ _ _ _ Hload). cbv beta.
    rewrite bind_assoc, (bind_ok get_models _ _ _ _ _ eq_refl). cbv beta.
    rewrite (bind_ok (ret _) _ _ _ _ _ eq_refl).
    cbn [models set_models]. rewrite Hget.
    rewrite Hfiles in Hfind. rewrite (checkpointed_found _ _ _ Hfind).
    destruct (IH (acc ++ [checkpointed (files w0) (checkpoint_name pfx e r ".weights")])
                 (set_models w
                    (set (checkpointed (files w0) (checkpoint_name pfx e r ".weights"))
                         (models w))))
      as (w' & Hrun & Hfiles' & Hframe').
    + exact Hfiles.
    + cbn [models set_models]. rewrite Hother. exact Hframe.
    + intros r' Hr'. apply Hpresent. right. exact Hr'.
    + exists w'. rewrite Hrun. cbn [prepend log world res app map].
      rewrite <- app_assoc. repeat split; assumption.
Qed.

(** Lines 669-684 for one network. *)
Lemma average_network_run what pfx e (get other : Models -> Weights)
      (set : Weights -> Models -> Models) w :
  (forall v m, get (set v m) = v) ->
  (forall v m, other (set v m) = other m) ->
  (forall r, 0 <= r < hvd_size cfg ->
             present K (files w) (checkpoint_name pfx e r ".weights")) ->
  exists w',
    average_network K cfg what pfx e get set w = mkOutcome [] w' (Ok tt) /\
    files w' = files w /\
    get (models w')
    = blend_weights (weights_averaging_coeff cfg)
        (mean_over_workers
           (map (fun r => checkpointed (files w) (checkpoint_name pfx e r ".weights"))
                (range (hvd_size cfg))))
        (get (models w)) /\
    other (models w') = other (models w).
Proof.
  intros Hget Hother Hpresent. unfold average_network.
  rewrite (bind_ok get_models _ w _ _ _ eq_refl). cbv zeta.
  destruct (average_loop_run what pfx e get other set (range (hvd_size cfg)) [] w w
              Hget Hother eq_refl eq_refl) as (w1 & Hrun & Hfiles & Hframe).
  { intros r Hr. apply Hpresent, in_range, Hr. }
  rewrite (bind_ok _ _ _ _ _ _ Hrun). cbn [app].
  eexists. split; [reflexivity|]. cbn [world prepend models files set_models update_models].
  split; [exact Hfiles|]. split; [apply Hget|]. rewrite Hother. exact Hframe.
Qed.

(** Lines 645-706 when the files are there. *)
Lemma restore_weights_run e0 e w :
  let own_g := checkpoint_name (g_pfx cfg) e (rank_to_load cfg) ".weights" in
  let own_d := checkpoint_name (d_pfx cfg) e (rank_to_load cfg) ".weights" in
  (if load_model cfg then Ok e0
   else get_last_epoch K (files w) (d_pfx cfg +:+ "*.weights")) = Ok e ->
  present K (files w) own_g -> present K (files w) own_d ->
  (weights_averaging_coeff cfg <> 0%Qc ->
   forall r, 0 <= r < hvd_size cfg ->
             present K (files w) (checkpoint_name (g_pfx cfg) e r ".weights") /\
             present K (files w) (checkpoint_name (d_pfx cfg) e r ".weights")) ->
  exists w',
    restore_weights K cfg e0 w = mkOutcome [] w' (Ok e) /\
    generator_weights (models w')
    = (if bool_decide (weights_averaging_coeff cfg = 0%Qc)
       then checkpointed (files w) own_g
       else blend_weights (weights_averaging_coeff cfg)
              (mean_over_workers
                 (map (fun r => checkpointed (files w)
                                  (checkpoint_name (g_pfx cfg) e r ".weights"))
                      (range (hvd_size cfg))))
              (checkpointed (files w) own_g)) /\
    discriminator_weights (models w')
    = (if bool_decide (weights_averaging_coeff cfg = 0%Qc)
       then checkpointed (files w) own_d
       else blend_weights (weights_averaging_coeff cfg)
              (mean_over_workers
                 (map (fun r => checkpointed (files w)
                                  (checkpoint_name (d_pfx cfg) e r ".weights"))
                      (range (hvd_size cfg))))
              (checkpointed (files w) own_d)).
Proof.
  intros own_g own_d Htarget Hg Hd Hall. unfold restore_weights.
  assert (Hfirst : (if load_model cfg then ret e0
                    else getLastEpoch K (d_pfx cfg +:+ "*.weights")) w
                   = mkOutcome [] w (Ok e)).
  { destruct (load_model cfg).
    - injection Htarget as <-. reflexivity.
    - unfold getLastEpoch. rewrite Htarget. reflexivity. }
  rewrite (bind_ok _ _ _ _ _ _ Hfirst).
  destruct (load_artifact_found K "Generator weights file " own_g set_generator_weights w Hg)
    as (fg & Hfg & Hload1).
  fold own_g. rewrite (bind_ok _ _ _ _ _ _ Hload1).
  set (w1 := set_models w (set_generator_weights (content fg) (models w))).
  destruct (load_artifact_found K "Generator weights file " own_d
              set_discriminator_weights w1 Hd) as (fd & Hfd & Hload2).
  fold own_d. rewrite (bind_ok _ _ _ _ _ _ Hload2).
  set (w2 := set_models w1 (set_discriminator_weights (content fd) (models w1))).
  change (files w1) with (files w) in Hfd.
  pose proof (checkpointed_found _ _ _ Hfg) as Hcg.
  pose proof (checkpointed_found _ _ _ Hfd) as Hcd.
  assert (Hcleanup : forall w3,
             exists w4, (if no_delete cfg then ret tt else rm_rf K "*.weights") w3
                        = mkOutcome [] w4 (Ok tt) /\ models w4 = models w3).
  { intros w3. destruct (no_delete cfg); eexists; split; reflexivity. }
  destruct (bool_decide (weights_averaging_coeff cfg = 0%Qc)) eqn:Hcoeff.
  - rewrite (bind_ok (ret tt) _ w2 _ _ _ eq_refl).
    destruct (Hcleanup w2) as (w4 & Hrun4 & Hm4).
    rewrite (bind_ok _ _ _ _ _ _ Hrun4).
    exists w4. split; [reflexivity|]. cbn [world prepend ret]. rewrite Hm4.
    split; [exact Hcg | exact Hcd].
  - apply bool_decide_eq_false in Hcoeff. specialize (Hall Hcoeff).
    destruct (average_network_run "Generator weights file " (g_pfx cfg) e
                generator_weights discriminator_weights set_generator_weights w2)
      as (w3 & Hrun3 & Hfiles3 & Hgen3 & Hdisc3);
      [reflexivity | reflexivity | intros r Hr; apply (Hall r Hr) |].
    destruct (average_network_run "Generator weights file " (d_pfx cfg) e
                discriminator_weights generator_weights set_discriminator_weights w3)
      as (w3' & Hrun3' & Hfiles3' & Hdisc3' & Hgen3');
      [reflexivity | reflexivity | intros r Hr; rewrite Hfiles3; apply (Hall r Hr) |].
    rewrite bind_assoc, (bind_ok _ _ _ _ _ _ Hrun3), (bind_ok _ _ _ _ _ _ Hrun3').
    destruct (Hcleanup w3') as (w4 & Hrun4 & Hm4).
    rewrite (bind_ok _ _ _ _ _ _ Hrun4).
    exists w4. split; [reflexivity|]. cbn [world prepend ret]. rewrite Hm4.
    rewrite Hgen3', Hgen3, Hdisc3', Hdisc3, Hfiles3, <- Hcg, <- Hcd. split; reflexivity.
Qed.

End Averaging.

Section FullAverage.
Context (K : Collaborators) (cfg : Config).

(** With coefficient 1 what is installed is the elementwise float32 mean
    over the workers. *)
Lemma full_average (G : Z -> Weights) (own : Weights) (size : Z) :
  0 < size ->
  (forall r, 0 <= r < size -> shape (G r) = shape own) ->
  blend_weights 1%Qc (mean_over_workers (map G (range size))) own
  = float32_elementwise_mean (map G (range size)).
Proof.
  intros Hsize Hshape.
  assert (Hrest : Forall (fun W => shape W = shape (G 0))
                         (map G (map Z.of_nat (seq 1 (Z.to_nat size - 1))))).
  { apply List.Forall_forall. intros W HW.
    apply in_map_iff in HW as (r & <- & Hr).
    apply in_map_iff in Hr as (n & <- & Hn). apply in_seq in Hn.
    rewrite (Hshape 0), (Hshape (Z.of_nat n)) by lia. reflexivity. }
  rewrite (range_pos size Hsize). cbn [map].
  rewrite (mean_over_workers_spec _ _ Hrest).
  apply blend_weights_one; [|apply elementwise_mean_rounded].
  rewrite shape_elementwise_mean. apply Hshape. lia.
Qed.

End FullAverage.

Lemma float32_weights_rounded (W : Weights) :
  float32_weights W -> Forall (Forall (Forall (fun x => float32 x = x))) W.
Proof.
  intros HW. eapply Forall_impl; [exact HW|]. intros t Ht.
  eapply Forall_impl; [exact Ht|]. intros r Hr.
  eapply Forall_impl; [exact Hr|]. intros x Hx. apply Hx.
Qed.

(** C5.  At a resume whose files are there: with coefficient 0 the averaging
    is skipped and the generator and discriminator hold the weights of the
    worker's own checkpoint.  With coefficient 1, for checkpoints of fewer
    than eight workers that hold float32 numbers, they hold the elementwise
    mean of the checkpoints of all workers for that epoch as float32
    arithmetic computes it: the sum over the workers in rank order, every
    addition rounded to nearest, divided by their number and rounded.  For
    two workers holding [a] and [b] that is
    [float32 (float32 (a + b) / 2)] entry by entry, which is [(a + b) / 2]
    whenever [a + b] and its half are float32 numbers; and a single worker
    averaged with itself keeps its own weights. *)
Theorem weight_averaging_at_resume (K : Collaborators) (cfg : Config)
        (e0 e : Z) (w : World) :
  let own_g := checkpoint_name (g_pfx cfg) e (rank_to_load cfg) ".weights" in
  let own_d := checkpoint_name (d_pfx cfg) e (rank_to_load cfg) ".weights" in
  let G := fun r => checkpointed (files w) (checkpoint_name (g_pfx cfg) e r ".weights") in
  let D := fun r => checkpointed (files w) (checkpoint_name (d_pfx cfg) e r ".weights") in
  (if load_model cfg then Ok e0
   else get_last_epoch K (files w) (d_pfx cfg +:+ "*.weights")) = Ok e ->
  present K (files w) own_g -> present K (files w) own_d ->
  (weights_averaging_coeff cfg = 0%Qc ->
   exists w',
     restore_weights K cfg e0 w = mkOutcome [] w' (Ok e) /\
     generator_weights (models w') = checkpointed (files w) own_g /\
     discriminator_weights (models w') = checkpointed (files w) own_d) /\
  (weights_averaging_coeff cfg = 1%Qc -> 0 < hvd_size cfg < 8 ->
   (forall r, 0 <= r < hvd_size cfg ->
      present K (files w) (checkpoint_name (g_pfx cfg) e r ".weights") /\
      present K (files w) (checkpoint_name (d_pfx cfg) e r ".weights") /\
      shape (G r) = shape (checkpointed (files w) own_g) /\
      shape (D r) = shape (checkpointed (files w) own_d) /\
      float32_weights (G r) /\ float32_weights (D r)) ->
   exists w',
     restore_weights K cfg e0 w = mkOutcome [] w' (Ok e) /\
     generator_weights (models w')
     = float32_elementwise_mean (map G (range (hvd_size cfg))) /\
     discriminator_weights (models w')
     = float32_elementwise_mean (map D (range (hvd_size cfg))) /\
     (hvd_size cfg = 2 ->
      (forall k i j,
          (k < length (G 0%Z))%nat -> (i < length (nth k (G 0%Z) []))%nat ->
          (j < length (nth i (nth k (G 0%Z) []) []))%nat ->
          let a := entry (G 0%Z) k i j in
          let b := entry (G 1%Z) k i j in
          entry (generator_weights (models w')) k i j
          = float32 (float32 (a + b) / Q2Qc 2)%Qc /\
          (float32 (a + b)%Qc = (a + b)%Qc ->
           float32 ((a + b) / Q2Qc 2)%Qc = ((a + b) / Q2Qc 2)%Qc ->
           entry (generator_weights (models w')) k i j = ((a + b) / Q2Qc 2)%Qc)) /\
      (forall k i j,
          (k < length (D 0%Z))%nat -> (i < length (nth k (D 0%Z) []))%nat ->
          (j < length (nth i (nth k (D 0%Z) []) []))%nat ->
          let a := entry (D 0%Z) k i j in
          let b := entry (D 1%Z) k i j in
          entry (discriminator_weights (models w')) k i j
          = float32 (float32 (a + b) / Q2Qc 2)%Qc /\
          (float32 (a + b)%Qc = (a + b)%Qc ->
           float32 ((a + b) / Q2Qc 2)%Qc = ((a + b) / Q2Qc 2)%Qc ->
           entry (discriminator_weights (models w')) k i j
           = ((a + b) / Q2Qc 2)%Qc))) /\
     (hvd_size cfg = 1 -> rank_to_load cfg = 0 ->
      generator_weights (models w') = checkpointed (files w) own_g /\
      discriminator_weights (models w') = checkpointed (files w) own_d)).
Proof.
  intros own_g own_d G D Htarget Hg Hd. split.
  - intros Hcoeff.
    destruct (restore_weights_run K cfg e0 e w Htarget Hg Hd)
      as (w' & Hrun & Hgen & Hdisc); [intros Hne; congruence|].
    rewrite bool_decide_eq_true_2 in Hgen, Hdisc by exact Hcoeff.
    exists w'. repeat split; assumption.
  - intros Hcoeff Hsize Hall.
    destruct (restore_weights_run K cfg e0 e w Htarget Hg Hd)
      as (w' & Hrun & Hgen & Hdisc); [intros _ r Hr; split; apply (Hall r Hr)|].
    assert (Hne : weights_averaging_coeff cfg <> 0%Qc) by (rewrite Hcoeff; discriminate).
    rewrite bool_decide_eq_false_2 in Hgen, Hdisc by exact Hne.
    rewrite Hcoeff in Hgen, Hdisc.
    fold own_g in Hgen. fold own_d in Hdisc.
    change (fun r => checkpointed (files w) (checkpoint_name (g_pfx cfg) e r ".weights"))
      with G in Hgen.
    change (fun r => checkpointed (files w) (checkpoint_name (d_pfx cfg) e r ".weights"))
      with D in Hdisc.
    rewrite (full_average G _ _ (proj1 Hsize)) in Hgen by (intros r Hr; apply (Hall r Hr)).
    rewrite (full_average D _ _ (proj1 Hsize)) in Hdisc by (intros r Hr; apply (Hall r Hr)).
    exists w'. split; [exact Hrun|]. split; [exact Hgen|]. split; [exact Hdisc|].
    split.
    + intros Htwo. rewrite Htwo in Hgen, Hdisc, Hall.
      change (map G (range 2)) with [G 0; G 1] in Hgen.
      change (map D (range 2)) with [D 0; D 1] in Hdisc.
      destruct (Hall 0 ltac:(lia)) as (_ & _ & _ & _ & HG0 & HD0).
      apply float32_weights_rounded in HG0, HD0.
      split; intros k i j Hk Hi Hj a b.
      * assert (Hentry : entry (generator_weights (models w')) k i j
                         = float32 (float32 (a + b) / Q2Qc 2)%Qc).
        { rewrite Hgen, entry_elementwise_mean by assumption.
          apply mean_entry_two. apply (entry_in _ _ _ _ _ HG0 Hj). }
        split; [exact Hentry|]. intros Hsum Hhalf. rewrite Hentry, Hsum. exact Hhalf.
      * assert (Hentry : entry (discriminator_weights (models w')) k i j
                         = float32 (float32 (a + b) / Q2Qc 2)%Qc).
        { rewrite Hdisc, entry_elementwise_mean by assumption.
          apply mean_entry_two. apply (entry_in _ _ _ _ _ HD0 Hj). }
        split; [exact Hentry|]. intros Hsum Hhalf. rewrite Hentry, Hsum. exact Hhalf.
    + intros Hone Hrank. rewrite Hone in Hgen, Hdisc, Hall.
      change (map G (range 1)) with [G 0] in Hgen.
      change (map D (range 1)) with [D 0] in Hdisc.
      destruct (Hall 0 ltac:(lia)) as (_ & _ & _ & _ & HG0 & HD0).
      apply float32_weights_rounded in HG0, HD0.
      rewrite (elementwise_mean_single _ HG0) in Hgen.
      rewrite (elementwise_mean_single _ HD0) in Hdisc.
      unfold own_g, own_d. rewrite Hrank. split; assumption.
Qed.

(** Checking that concrete weights are float32 numbers. *)
Ltac float32_numbers :=
  match goal with
  | |- float32_weights ?W =>
      let W' := eval vm_compute in W in change (float32_weights W')
  end;
  unfold float32_weights;
  repeat (first [apply List.Forall_nil | apply List.Forall_cons]);
  (split; [apply Qc_is_canon; vm_compute; reflexivity | split; vm_compute; discriminate]).

Lemma weight_averaging_at_resume_witness :
  exists w',
    restore_weights Scenario.collaborators (Scenario.config_with 1 false true 1%Qc 2) 3
                    (Scenario.world Scenario.two_workers)
    = mkOutcome [] w' (Ok 3) /\
    generator_weights (models w')
    = float32_elementwise_mean [Scenario.generator_0; Scenario.generator_1] /\
    entry (generator_weights (models w')) 0 1 1 = Q2Qc 6.
Proof.
  destruct (weight_averaging_at_resume Scenario.collaborators
              (Scenario.config_with 1 false true 1%Qc 2) 3 3
              (Scenario.world Scenario.two_workers)) as (_ & H).
  - vm_compute. reflexivity.
  - split; [vm_compute; discriminate | eexists; vm_compute; reflexivity].
  - split; [vm_compute; discriminate | eexists; vm_compute; reflexivity].
  - destruct H as (w' & Hrun & Hgen & _ & Htwo & _).
    + reflexivity.
    + change (0 < 2 < 8). lia.
    + intros r Hr. change (0 <= r < 2) in Hr.
      assert (Hcases : r = 0 \/ r = 1) by lia.
      destruct Hcases as [-> | ->];
        (split; [split; [vm_compute; discriminate | eexists; vm_compute; reflexivity]|]);
        (split; [split; [vm_compute; discriminate | eexists; vm_compute; reflexivity]|]);
        (split; [reflexivity|]); (split; [reflexivity|]);
        split; float32_numbers.
    + exists w'. split; [exact Hrun|]. split; [exact Hgen|].
      destruct (Htwo eq_refl) as (Hentry & _).
      destruct (Hentry 0 1 1)%nat as (_ & Hexact);
        [vm_compute; lia | vm_compute; lia | vm_compute; lia |].
      rewrite Hexact; apply Qc_is_canon; vm_compute; reflexivity.
Defined.

(** C5 as stated fails: two workers hold the neighbouring float32 numbers
    1 and 1 + 2^-23, whose arithmetic mean 1 + 2^-24 is not a float32
    number.  The sum 2 + 2^-23 lies halfway between two float32 numbers and
    is rounded to 2, and with coefficient 1 the entry installed is 1, not
    [(a + b) / 2]. *)
Lemma weight_averaging_at_resume_counterexample :
  let a := entry Examples.neighbour_0 0 0 0 in
  let b := entry Examples.neighbour_1 0 0 0 in
  float32 a = a /\ float32 b = b /\
  exists w',
    restore_weights Scenario.collaborators (Scenario.config_with 1 false true 1%Qc 2) 3
                    (Scenario.world Examples.neighbours)
    = mkOutcome [] w' (Ok 3) /\
    entry (generator_weights (models w')) 0 0 0 = 1%Qc /\
    entry (generator_weights (models w')) 0 0 0 <> ((a + b) / Q2Qc 2)%Qc /\
    generator_weights (models w')
    <> elementwise_mean [Examples.neighbour_0; Examples.neighbour_1].
Proof.
  cbv zeta.
  split; [apply Qc_is_canon; vm_compute; reflexivity|].
  split; [apply Qc_is_canon; vm_compute; reflexivity|].
  exists (world (restore_weights Scenario.collaborators
                   (Scenario.config_with 1 false true 1%Qc 2) 3
                   (Scenario.world Examples.neighbours))).
  split; [|split; [|split]].
  - rewrite (outcome_eta (restore_weights _ _ _ _)). f_equal; vm_compute; reflexivity.
  - apply Qc_is_canon. vm_compute. reflexivity.
  - intros H. apply (f_equal this) in H. vm_compute in H. discriminate H.
  - intros H. apply (f_equal (fun W => this (entry W 0 0 0))) in H.
    vm_compute in H. discriminate H.
Qed.

(** * Further properties of the script *)

(** ** bit_flip on arbitrary arrays *)

Lemma flipped_lookup (x : list Z) (u : list Qc) (prob : Qc) (i : nat) (v : Z) :
  length u = length x -> x !! i = Some v ->
  bit_flip_values x u prob !! i = Some v \/
  bit_flip_values x u prob !! i = Some (logical_not v).
Proof.
  intros Hlen Hv. rewrite bit_flip_values_pointwise by exact Hlen.
  rewrite lookup_zip_with, Hv. cbn [mbind option_bind].
  destruct (lookup_lt_is_Some_2 u i) as [d Hd].
  { rewrite Hlen. apply lookup_lt_is_Some. eexists; exact Hv. }
  rewrite Hd. cbn [mbind option_bind].
  destruct (bool_decide (d < prob)%Qc); [right | left]; reflexivity.
Qed.

Lemma bit_flip_values_length (x : list Z) (u : list Qc) (prob : Qc) :
  length u = length x -> length (bit_flip_values x u prob) = length x.
Proof.
  intros Hlen. rewrite bit_flip_values_pointwise by exact Hlen.
  rewrite length_zip_with. lia.
Qed.

(** X1.  [bit_flip] returns for every array, every probability and every
    state of the random generator: it calls no model, the result has the
    length of the argument, and each of its entries is either the entry of
    the argument or its logical negation, that is 1 for a 0 and 0 for any
    other value (a class index of 2 or more is never produced by a flip). *)
Theorem bit_flip_entries (K : Collaborators) (x : list Z) (prob : Qc) (w : World) :
  exists out,
    bit_flip K x prob w
    = mkOutcome [] (advance_rng w (length x)) (Ok out) /\
    length out = length x /\
    forall i v, x !! i = Some v ->
      out !! i = Some v \/ out !! i = Some (if v =? 0 then 1 else 0).
Proof.
  assert (Hneg : (Z.of_nat (length x) <? 0) = false) by (apply Z.ltb_ge; lia).
  unfold bit_flip, bind, np_random_uniform, ret. rewrite Hneg.
  cbn [res log world app]. rewrite Nat2Z.id.
  set (u := map _ (seq (rng w) (length x))).
  assert (Hlen : length u = length x) by (unfold u; rewrite length_map, length_seq; reflexivity).
  exists (bit_flip_values x u prob). split; [reflexivity|].
  split; [apply bit_flip_values_length, Hlen|].
  intros i v Hv. apply (flipped_lookup x u prob i v Hlen Hv).
Qed.

Lemma bit_flip_entries_witness :
  exists out,
    res (bit_flip Scenario.collaborators [0; 2; 1] (Q2Qc (3 # 10)) (Scenario.world []))
    = Ok out /\
    length out = 3%nat /\
    (out !! 1%nat = Some 2 \/ out !! 1%nat = Some 0).
Proof.
  destruct (bit_flip_entries Scenario.collaborators [0; 2; 1] (Q2Qc (3 # 10))
              (Scenario.world [])) as (out & Hrun & Hlen & Hentries).
  exists out. rewrite Hrun. split; [reflexivity|]. split; [exact Hlen|].
  apply (Hentries 1%nat 2). reflexivity.
Defined.

(** ** Epochs that cannot run *)

Lemma resume_off (K : Collaborators) (cfg : Config) (w : World) :
  load_model cfg = false -> load_weights cfg = false ->
  resume K cfg w = mkOutcome [] w (Ok (-1)).
Proof. intros Hlm Hlw. unfold resume. rewrite Hlm, Hlw. reflexivity. Qed.

Lemma epochs_pos (cfg : Config) (last_epoch : Z) :
  0 < nb_epochs cfg ->
  exists rest, epochs cfg last_epoch = (last_epoch + 1) :: rest.
Proof.
  intros Hn. unfold epochs. rewrite (range_pos _ Hn). cbn [map].
  rewrite Z.add_0_r. eexists. reflexivity.
Qed.

(** An epoch without a batch stops at line 578: the mean of the empty list
    of losses is the scalar nan, which cannot be indexed. *)
Lemma train_gan_no_batch (K : Collaborators) (cfg : Config) (epoch n : Z) (w : World) :
  n <= 0 -> train_gan K cfg epoch n w = mkOutcome [] w (Raise IndexError).
Proof.
  intros Hn. unfold train_gan, range.
  replace (Z.to_nat n) with 0%nat by lia. reflexivity.
Qed.

(** X2.  A data set with fewer events than one batch gives epochs of zero
    batches: the epoch loop stops in its first epoch with IndexError, before
    any call on a model and without writing a file, whatever epoch the run
    resumes from; so does the whole script when it does not resume. *)
Theorem dataset_below_one_batch (K : Collaborators) (cfg : Config) (w : World) :
  0 < nb_epochs cfg ->
  Z.of_nat (length (first cfg)) < batch_size cfg ->
  (forall last_epoch,
      run_epochs K cfg last_epoch w = mkOutcome [] w (Raise IndexError)) /\
  (load_model cfg = false -> load_weights cfg = false ->
   log (main K cfg w) = [] /\ res (main K cfg w) = Raise IndexError /\
   files (world (main K cfg w)) = files w).
Proof.
  intros Hep Hsmall.
  assert (Hnb : nb_batches cfg = Ok 0).
  { unfold nb_batches.
    replace (batch_size cfg =? 0) with false by (symmetry; apply Z.eqb_neq; lia).
    rewrite Z.quot_small by lia. reflexivity. }
  assert (Hloop : forall last_epoch w0,
             run_epochs K cfg last_epoch w0 = mkOutcome [] w0 (Raise IndexError)).
  { intros last_epoch w0. unfold run_epochs.
    destruct (epochs_pos cfg last_epoch Hep) as (rest & ->).
    cbn [for_each]. unfold run_epoch. rewrite Hnb.
    rewrite (bind_assoc (lift (Ok 0))).
    rewrite (bind_ok (lift (Ok 0)) _ w0 _ _ _ eq_refl).
    rewrite bind_assoc.
    rewrite (bind_raise _ _ _ _ _ _ (train_gan_no_batch K cfg _ 0 w0 (Z.le_refl 0))).
    reflexivity. }
  split; [intros last_epoch; apply Hloop|].
  intros Hlm Hlw. unfold main.
  rewrite (bind_ok _ _ _ _ _ _ (resume_off K cfg w Hlm Hlw)).
  rewrite (bind_ok (update_models _) _ w _ _ _ eq_refl).
  rewrite Hloop. repeat split.
Qed.

Lemma dataset_below_one_batch_witness :
  run_epochs Scenario.collaborators (Examples.fresh 1 16 1) (-1) (Scenario.world [])
  = mkOutcome [] (Scenario.world []) (Raise IndexError) /\
  res (main Scenario.collaborators (Examples.fresh 1 16 1) (Scenario.world []))
  = Raise IndexError.
Proof.
  destruct (dataset_below_one_batch Scenario.collaborators (Examples.fresh 1 16 1)
              (Scenario.world [])) as (Hloop & Hmain).
  - reflexivity.
  - reflexivity.
  - split; [apply Hloop|]. apply Hmain; reflexivity.
Defined.

(** X3.  With [batch_size = 0] the division of line 730 raises
    ZeroDivisionError in the first epoch of the loop, before any call on a
    model; a loop of no epoch ([nb_epochs <= 0]) returns at once. *)
Theorem batch_size_zero (K : Collaborators) (cfg : Config) (last_epoch : Z) (w : World) :
  batch_size cfg = 0 ->
  run_epochs K cfg last_epoch w
  = mkOutcome [] w (if 0 <? nb_epochs cfg then Raise ZeroDivisionError else Ok tt).
Proof.
  intros Hbs. unfold run_epochs.
  destruct (0 <? nb_epochs cfg) eqn:Hep.
  - apply Z.ltb_lt in Hep. destruct (epochs_pos cfg last_epoch Hep) as (rest & ->).
    cbn [for_each]. unfold run_epoch, nb_batches. rewrite Hbs. reflexivity.
  - apply Z.ltb_ge in Hep. unfold epochs, range.
    replace (Z.to_nat (nb_epochs cfg)) with 0%nat by lia. reflexivity.
Qed.

Lemma batch_size_zero_witness :
  run_epochs Scenario.collaborators (Examples.fresh 1 0 1) (-1) (Scenario.world [])
  = mkOutcome [] (Scenario.world []) (Raise ZeroDivisionError).
Proof.
  apply (batch_size_zero Scenario.collaborators (Examples.fresh 1 0 1) (-1)
           (Scenario.world [])).
  reflexivity.
Defined.

(** ** The gate, closed *)

Section ClosedGate.
Context (K : Collaborators) (cfg : Config).

(** The targets of lines 513-523 are always built; only draws are made. *)
Lemma targets_run {T} (b : bool) (x : list Z) (prob : Qc) (f : list Z -> T) (t : T) w :
  exists v w',
    (if b then flipped <- bit_flip K x prob ;; ret (f flipped) else ret t) w
    = mkOutcome [] w' (Ok v) /\ drew w w'.
Proof.
  destruct b.
  - destruct (bit_flip_run K x prob w) as (u & w' & Hrun & Hw).
    rewrite (bind_ok _ _ _ _ _ _ Hrun). eexists _, _. split; [reflexivity | exact Hw].
  - exists t, w. split; [reflexivity | apply drew_refl].
Qed.

(** A step whose gate is closed while [fake_batch_loss] is unbound stops at
    line 542, after the prediction of line 511. *)
Lemma train_step_closed epoch index loc w :
  0 <= batch_size cfg -> 0 <= latent_size cfg -> 0 < nb_classes cfg ->
  gate_open cfg (Globals.last_epoch_gen_loss (globals w)) epoch = false ->
  Locals.fake_batch_loss loc = None ->
  exists x w',
    train_step K cfg epoch index loc w
    = mkOutcome [GeneratorPredict x] w' (Raise (UnboundLocalError "fake_batch_loss")) /\
    drew w w'.
Proof.
  intros Hbs Hls Hcl Hgate Hfake. unfold train_step. cbv zeta.
  destruct (np_random_normal_run K (batch_size cfg) (latent_size cfg) w Hbs Hls)
    as (noise & w1 & Hrun1 & Hw1).
  rewrite (bind_ok _ _ _ _ _ _ Hrun1).
  destruct (np_random_randint_run K (nb_classes cfg) (batch_size cfg) w1 Hcl Hbs)
    as (labels & w2 & Hrun2 & Hw2).
  rewrite (bind_ok _ _ _ _ _ _ Hrun2).
  destruct (np_random_uniform_column_run K 1%Qc (Q2Qc 100) (batch_size cfg) w2 Hbs)
    as (energies & w3 & Hrun3 & Hw3).
  rewrite (bind_ok _ _ _ _ _ _ Hrun3).
  rewrite (bind_ok (generator_predict K _) _ w3 _ _ _ eq_refl).
  match goal with
  | |- context [bind (if ?b then bind (bit_flip _ ?x ?p) (fun fl => ret (@?f fl))
                      else ret ?t) _ ?w0] =>
      destruct (targets_run b x p f t w0) as (targets & w4 & Hrun4 & Hw4)
  end.
  rewrite (bind_ok _ _ _ _ _ _ Hrun4).
  rewrite (bind_ok get_globals _ w4 _ _ _ eq_refl).
  pose proof (drew_trans _ _ _ (drew_trans _ _ _ (drew_trans _ _ _ Hw1 Hw2) Hw3) Hw4)
    as Hw14.
  assert (Hg4 : globals w4 = globals w) by apply Hw14.
  rewrite Hg4, Hgate.
  rewrite (bind_ok (ret loc) _ w4 _ _ _ eq_refl), Hfake.
  rewrite (bind_raise (raise _) _ w4 _ _ _ eq_refl).
  eexists _, w4. split; [reflexivity | exact Hw14].
Qed.

End ClosedGate.

(** X4.  When the module-level [last_epoch_gen_loss] holds a value at or
    above [maintain_gen_loss_below] and the epoch is 10 or later, the first
    step of the epoch skips the discriminator updates and then reads the
    unbound local [fake_batch_loss] at line 542: [train_gan] stops with
    UnboundLocalError after the one [generator.predict] call, and no model
    has been updated. *)
Theorem closed_gate_stops_epoch (K : Collaborators) (cfg : Config)
        (epoch n : Z) (l : Qc) (w : World) :
  0 <= batch_size cfg -> 0 <= latent_size cfg -> 0 < nb_classes cfg ->
  Globals.last_epoch_gen_loss (globals w) = Some l ->
  (maintain_gen_loss_below cfg <= l)%Qc -> 10 <= epoch -> 0 < n ->
  exists x w',
    train_gan K cfg epoch n w
    = mkOutcome [GeneratorPredict x] w' (Raise (UnboundLocalError "fake_batch_loss")) /\
    models w' = models w /\ files w' = files w.
Proof.
  intros Hbs Hls Hcl Hl Hceil Hep Hn.
  assert (Hgate : gate_open cfg (Globals.last_epoch_gen_loss (globals w)) epoch = false).
  { rewrite Hl. unfold gate_open. apply orb_false_iff. split.
    - apply bool_decide_eq_false. apply Qcle_not_lt. exact Hceil.
    - apply Z.ltb_ge. exact Hep. }
  destruct (train_step_closed K cfg epoch 0 Locals.initial w Hbs Hls Hcl Hgate eq_refl)
    as (x & w' & Hrun & Hw).
  exists x, w'. split; [|split; apply Hw].
  unfold train_gan. rewrite (range_pos n Hn). cbn [for_each].
  rewrite bind_assoc. rewrite (bind_raise _ _ _ _ _ _ Hrun). reflexivity.
Qed.

Lemma closed_gate_stops_epoch_witness :
  exists x w',
    train_gan Scenario.collaborators (Scenario.config 1) 10 2
              (Scenario.world_with_loss (Q2Qc 2000))
    = mkOutcome [GeneratorPredict x] w' (Raise (UnboundLocalError "fake_batch_loss")) /\
    models w' = Scenario.no_models /\ files w' = [].
Proof.
  apply (closed_gate_stops_epoch Scenario.collaborators (Scenario.config 1) 10 2
           (Q2Qc 2000) (Scenario.world_with_loss (Q2Qc 2000)));
    first [reflexivity | vm_compute; discriminate].
Defined.

(** ** What a step leaves in the local variables *)

Lemma always_any {A} (Q : A -> Prop) (m : M A) :
  (forall a, Q a) -> always any_call Q m.
Proof.
  intros HQ w. split; [apply List.Forall_forall; intros; exact I | intros; apply HQ].
Qed.

Section Steps.
Context (K : Collaborators) (cfg : Config) (goodD goodC : list Qc -> Prop).
Hypothesis HgoodD : forall m x y sw, goodD (snd (discriminator_step K m x y sw)).
Hypothesis HgoodC : forall m x y sw, goodC (snd (combined_step K m x y sw)).

Lemma generator_update_yields trick lw gen_losses :
  always any_call (fun gl => exists l, gl = gen_losses ++ [l] /\ goodC l)
         (generator_update K cfg trick lw gen_losses).
Proof.
  unfold generator_update. cbv zeta.
  do 3 (eapply always_bind with (Q := fun _ => True);
        [apply always_any; trivial | intros ? _]).
  eapply always_bind with (Q := goodC).
  - intros w. split; [apply List.Forall_forall; intros; exact I|].
    cbn [combined_train_on_batch res]. intros l [= <-]. apply HgoodC.
  - intros l Hl. apply always_ret. exists l. split; [reflexivity | exact Hl].
Qed.

Lemma generator_updates_yield {A} (passes : list A) trick lw gen_losses :
  Forall goodC gen_losses ->
  always any_call
         (fun gl => Forall goodC gl /\
                    length gl = (length gen_losses + length passes)%nat)
         (for_each passes (fun _ => generator_update K cfg trick lw) gen_losses).
Proof.
  revert gen_losses. induction passes as [|p passes IH]; intros gen_losses Hacc;
    cbn [for_each].
  - apply always_ret. split; [exact Hacc | simpl; lia].
  - eapply always_bind; [apply generator_update_yields|].
    intros gl (l & -> & Hl). eapply always_weaken.
    + apply IH. apply Forall_app. split; [exact Hacc | repeat constructor; exact Hl].
    + intros gl' (Hall & Hlen). split; [exact Hall|].
      rewrite Hlen, length_app. simpl. lia.
Qed.

Lemma discriminator_yields x t sw :
  always any_call goodD (discriminator_train_on_batch K x t sw).
Proof.
  intros w. split; [apply List.Forall_forall; intros; exact I|].
  cbn [discriminator_train_on_batch res]. intros l [= <-]. apply HgoodD.
Qed.

(** A step that returns has bound both losses and extended both lists. *)
Lemma train_step_yields epoch index loc :
  bound_losses goodD loc ->
  always any_call
         (stepped goodD goodC (Z.to_nat (2 * train_gen_per_epoch cfg)) loc)
         (train_step K cfg epoch index loc).
Proof.
  intros Hloc. unfold train_step. cbv zeta.
  do 6 (eapply always_bind with (Q := fun _ => True);
        [apply always_any; trivial | intros ? _]).
  eapply always_bind
    with (Q := fun loc' =>
                 bound_losses goodD loc' /\
                 Locals.epoch_disc_loss loc' = Locals.epoch_disc_loss loc /\
                 Locals.epoch_gen_loss loc' = Locals.epoch_gen_loss loc).
  { match goal with |- always _ _ (if ?b then _ else _) => destruct b end.
    - eapply always_bind; [apply discriminator_yields | intros real Hreal].
      eapply always_bind; [apply discriminator_yields | intros fake Hfake].
      apply always_ret. split; [|split; reflexivity].
      split; cbn [Locals.fake_batch_loss Locals.real_batch_loss]; intros l [= <-];
        assumption.
    - apply always_ret. split; [exact Hloc | split; reflexivity]. }
  intros loc' (Hbound & Hdisc & Hgen).
  eapply always_bind
    with (Q := fun fake => Locals.fake_batch_loss loc' = Some fake).
  { destruct (Locals.fake_batch_loss loc');
      [apply always_ret; reflexivity | apply always_raise]. }
  intros fake Hfake.
  eapply always_bind
    with (Q := fun real => Locals.real_batch_loss loc' = Some real).
  { destruct (Locals.real_batch_loss loc');
      [apply always_ret; reflexivity | apply always_raise]. }
  intros real Hreal.
  eapply always_bind; [apply generator_updates_yield; constructor|].
  intros gl (Hgl & Hlen). apply always_ret. split.
  - split; cbn [Locals.fake_batch_loss Locals.real_batch_loss]; apply Hbound.
  - exists fake, real, gl.
    split; [apply (proj1 Hbound), Hfake|]. split; [apply (proj2 Hbound), Hreal|].
    split; [exact Hgl|]. split.
    + rewrite Hlen. unfold range. rewrite length_map, length_seq. reflexivity.
    + cbn [Locals.epoch_disc_loss Locals.epoch_gen_loss]. rewrite Hdisc, Hgen.
      split; reflexivity.
Qed.

End Steps.

(** ** Epochs whose gate is open *)

Section OpenGate.
Context (K : Collaborators) (cfg : Config).

(** The module-level variables do not change during an epoch, so a gate
    that is open at the first step is open at every step: each step makes
    one prediction, two discriminator updates and
    [2 * train_gen_per_epoch] generator updates, and returns. *)
Lemma open_steps_run epoch (indices : list Z) loc w :
  0 <= batch_size cfg -> 0 <= latent_size cfg -> 0 < nb_classes cfg ->
  gate_open cfg (Globals.last_epoch_gen_loss (globals w)) epoch = true ->
  exists l w' loc',
    for_each indices (train_step K cfg epoch) loc w = mkOutcome l w' (Ok loc') /\
    globals w' = globals w /\ files w' = files w /\
    count_calls is_predict_call l = length indices /\
    length (discriminator_calls l) = (2 * length indices)%nat /\
    count_calls is_generator_call l
    = (length indices * (1 + Z.to_nat (2 * train_gen_per_epoch cfg)))%nat.
Proof.
  intros Hbs Hls Hcl. revert loc w.
  induction indices as [|index indices IH]; intros loc w Hgate; cbn [for_each].
  - exists [], w, loc. repeat split.
  - destruct (train_step_run K cfg epoch index loc w Hbs Hls Hcl)
      as (noise & e & lab & u & gen_calls & w1 & r & Hrun & Htrick & Hg1 & Hf1 & Hopen).
    rewrite Hgate in Hrun.
    destruct (Hopen Hgate) as (Hlen & loc1 & ->).
    rewrite (bind_ok _ _ _ _ _ _ Hrun).
    destruct (IH loc1 w1) as (l & w2 & loc2 & Hrun2 & Hg2 & Hf2 & Hp & Hd & Hg).
    { rewrite Hg1. exact Hgate. }
    rewrite Hrun2. cbn [prepend log world res].
    eexists _, _, _. split; [reflexivity|].
    split; [congruence|]. split; [congruence|].
    destruct (trick_calls_counts cfg gen_calls Htrick) as (Hc0 & Hc1 & Hc2).
    unfold discriminator_calls in *. unfold count_calls in *.
    cbn [app List.filter is_predict_call is_discriminator_call is_generator_call length].
    rewrite !List.filter_app, !length_app, Hp, Hd, Hg, Hc0, Hc1, Hc2, Hlen.
    cbn [length]. repeat split; lia.
Qed.

End OpenGate.

(** ** The means at the end of an epoch *)

Lemma nan_mean_not_indexable (values : list npvalue) :
  Forall (fun v => v = NaN) values ->
  item0 (np_mean_values values) = Raise IndexError.
Proof.
  intros Hall. unfold np_mean_values.
  destruct Hall as [|v values -> _]; reflexivity.
Qed.

Lemma mean_axis0_length (rows : list (list Qc)) (k : nat) :
  rows <> [] -> Forall (fun r => length r = k) rows ->
  length (mean_axis0 rows) = k.
Proof.
  intros Hne Hall. unfold mean_axis0, zip_star.
  rewrite !length_map, length_seq. apply min_length_rect; assumption.
Qed.

Lemma np_mean_losses_vector (rows : list (list Qc)) (k : nat) :
  rows <> [] -> Forall (fun r => length r = k) rows ->
  vector_of_length k (np_mean_losses rows).
Proof.
  intros Hne Hall. exists (mean_axis0 rows).
  split; [|apply mean_axis0_length; assumption].
  destruct rows; [congruence | reflexivity].
Qed.

Lemma mapM_vectors (values : list npvalue) (k : nat) :
  Forall (vector_of_length k) values ->
  exists rows,
    mapM vector_of values = Some rows /\
    length rows = length values /\ Forall (fun r => length r = k) rows.
Proof.
  induction 1 as [|v values (r & -> & Hr) _ (rows & Hrows & Hlen & Hall)].
  - exists []. repeat split. constructor.
  - exists (r :: rows). cbn [mapM vector_of mbind option_bind]. rewrite Hrows.
    split; [reflexivity|]. split; [simpl; congruence | constructor; assumption].
Qed.

Lemma item0_vector (v : npvalue) (k : nat) :
  (0 < k)%nat -> vector_of_length k v -> exists a, item0 v = Ok a.
Proof.
  intros Hk (r & -> & Hr). destruct r as [|a r]; [simpl in Hr; lia|].
  exists a. reflexivity.
Qed.

Section EpochLists.
Context (K : Collaborators) (cfg : Config) (goodD goodC : list Qc -> Prop).
Context (inv : Locals.t -> Prop).
Hypothesis HgoodD : forall m x y sw, goodD (snd (discriminator_step K m x y sw)).
Hypothesis HgoodC : forall m x y sw, goodC (snd (combined_step K m x y sw)).
Hypothesis inv_bound : forall loc, inv loc -> bound_losses goodD loc.
Hypothesis inv_step :
  forall loc loc',
    inv loc ->
    stepped goodD goodC (Z.to_nat (2 * train_gen_per_epoch cfg)) loc loc' ->
    inv loc'.

(** An invariant of the steps holds after the loop over the batches, and
    each step has added one entry to each of the two lists of losses. *)
Lemma steps_yield epoch (indices : list Z) loc :
  inv loc ->
  always any_call
         (fun loc' =>
            inv loc' /\
            length (Locals.epoch_disc_loss loc')
            = (length (Locals.epoch_disc_loss loc) + length indices)%nat /\
            length (Locals.epoch_gen_loss loc')
            = (length (Locals.epoch_gen_loss loc) + length indices)%nat)
         (for_each indices (train_step K cfg epoch) loc).
Proof.
  revert loc. induction indices as [|index indices IH]; intros loc Hinv; cbn [for_each].
  - apply always_ret. split; [exact Hinv | simpl; lia].
  - eapply always_bind.
    + apply (train_step_yields K cfg goodD goodC HgoodD HgoodC), inv_bound, Hinv.
    + intros loc1 Hstep. eapply always_weaken; [apply IH, (inv_step loc loc1 Hinv Hstep)|].
      intros loc2 (Hinv2 & Hd & Hg). split; [exact Hinv2|].
      destruct Hstep as (_ & fake & real & gl & _ & _ & _ & _ & Hd1 & Hg1).
      rewrite Hd, Hg, Hd1, Hg1, !length_app. simpl. lia.
Qed.

End EpochLists.

(** ** Epochs without a generator update *)

Lemma item0_cases (v : npvalue) : (exists a, item0 v = Ok a) \/ item0 v = Raise IndexError.
Proof. destruct v as [|[|a r]]; [right | right | left; exists a]; reflexivity. Qed.

Lemma range_length (n : Z) : length (range n) = Z.to_nat n.
Proof. unfold range. rewrite length_map, length_seq. reflexivity. Qed.

Section NoPass.
Context (K : Collaborators) (cfg : Config).
Hypothesis Hpasses : train_gen_per_epoch cfg <= 0.

Lemma steps_leave_nan epoch (indices : list Z) :
  always any_call
         (fun loc => Forall (fun v => v = NaN) (Locals.epoch_gen_loss loc))
         (for_each indices (train_step K cfg epoch) Locals.initial).
Proof.
  eapply always_weaken.
  - apply (steps_yield K cfg (fun _ => True) (fun _ => True)
             (fun loc => Forall (fun v => v = NaN) (Locals.epoch_gen_loss loc))).
    + trivial.
    + trivial.
    + intros loc _. split; trivial.
    + intros loc loc' Hloc (_ & fake & real & gl & _ & _ & _ & Hlen & _ & Hgen).
      rewrite Hgen. apply Forall_app. split; [exact Hloc|].
      replace (Z.to_nat (2 * train_gen_per_epoch cfg)) with 0%nat in Hlen by lia.
      destruct gl; [repeat constructor | discriminate Hlen].
    + constructor.
  - intros loc (Hloc & _). exact Hloc.
Qed.

(** After steps that made no generator update, line 579 indexes nan (if
    line 578 has not failed in the same way before). *)
Lemma train_gan_after_nan epoch n w l w' loc :
  for_each (range n) (train_step K cfg epoch) Locals.initial w
  = mkOutcome l w' (Ok loc) ->
  train_gan K cfg epoch n w = mkOutcome l w' (Raise IndexError).
Proof.
  intros Hrun.
  destruct (steps_leave_nan epoch (range n) w) as (_ & Hnan).
  rewrite Hrun in Hnan. specialize (Hnan loc eq_refl).
  unfold train_gan. rewrite (bind_ok _ _ _ _ _ _ Hrun).
  destruct (item0_cases (np_mean_losses (Locals.epoch_disc_loss loc))) as [(d & Hd) | Hd];
    rewrite Hd.
  - rewrite (bind_ok (lift (Ok d)) _ w' _ _ _ eq_refl).
    rewrite (nan_mean_not_indexable _ Hnan).
    cbn [prepend lift bind log world res app]. rewrite app_nil_r. reflexivity.
  - cbn [prepend lift bind log world res app]. rewrite app_nil_r. reflexivity.
Qed.

End NoPass.

(** X5.  With [train_gen_per_epoch <= 0] the inner loop of lines 554-570
    makes no pass, every step appends the mean of an empty list (nan) to
    [epoch_gen_loss], and [train_gan] never returns: whatever the epoch, the
    number of batches and the state, it ends with an exception.  When the
    draws succeed and the gate is open, all the steps run first (one
    prediction and two discriminator updates each, no generator update) and
    the exception is the IndexError of lines 578-579. *)
Theorem no_generator_pass_no_return (K : Collaborators) (cfg : Config)
        (epoch n : Z) (w : World) :
  train_gen_per_epoch cfg <= 0 ->
  (forall loc, res (train_gan K cfg epoch n w) <> Ok loc) /\
  (0 <= batch_size cfg -> 0 <= latent_size cfg -> 0 < nb_classes cfg ->
   gate_open cfg (Globals.last_epoch_gen_loss (globals w)) epoch = true ->
   res (train_gan K cfg epoch n w) = Raise IndexError /\
   count_calls is_predict_call (log (train_gan K cfg epoch n w)) = Z.to_nat n /\
   length (discriminator_calls (log (train_gan K cfg epoch n w))) = (2 * Z.to_nat n)%nat /\
   count_calls is_generator_call (log (train_gan K cfg epoch n w)) = Z.to_nat n).
Proof.
  intros Hpasses. split.
  - intros loc.
    destruct (for_each (range n) (train_step K cfg epoch) Locals.initial w)
      as [l w' [loc'|e]] eqn:Hrun.
    + rewrite (train_gan_after_nan K cfg Hpasses epoch n w l w' loc' Hrun). discriminate.
    + unfold train_gan. rewrite (bind_raise _ _ _ _ _ _ Hrun). discriminate.
  - intros Hbs Hls Hcl Hgate.
    destruct (open_steps_run K cfg epoch (range n) Locals.initial w Hbs Hls Hcl Hgate)
      as (l & w' & loc' & Hrun & _ & _ & Hp & Hd & Hg).
    rewrite (train_gan_after_nan K cfg Hpasses epoch n w l w' loc' Hrun).
    cbn [log res]. rewrite range_length in Hp, Hd, Hg.
    replace (Z.to_nat (2 * train_gen_per_epoch cfg)) with 0%nat in Hg by lia.
    repeat split; [exact Hp | exact Hd | lia].
Qed.

Lemma no_generator_pass_no_return_witness :
  res (train_gan Scenario.collaborators (Scenario.config 0) 0 2 (Scenario.world []))
  = Raise IndexError /\
  length (discriminator_calls
            (log (train_gan Scenario.collaborators (Scenario.config 0) 0 2
                    (Scenario.world [])))) = 4%nat.
Proof.
  destruct (no_generator_pass_no_return Scenario.collaborators (Scenario.config 0) 0 2
              (Scenario.world [])) as (_ & H).
  - vm_compute. discriminate.
  - destruct H as (Hres & _ & Hd & _);
      first [reflexivity | vm_compute; discriminate | idtac].
    split; [exact Hres | exact Hd].
Defined.

(** ** Epochs that complete *)

Section Completes.
Context (K : Collaborators) (cfg : Config) (kd kc : nat).
Hypothesis Hkd : forall m x y sw, length (snd (discriminator_step K m x y sw)) = kd.
Hypothesis Hkc : forall m x y sw, length (snd (combined_step K m x y sw)) = kc.
Hypothesis Hpasses : 0 < train_gen_per_epoch cfg.

Lemma steps_rectangular epoch (indices : list Z) :
  always any_call
         (fun loc =>
            rectangular kd kc loc /\
            length (Locals.epoch_disc_loss loc) = length indices /\
            length (Locals.epoch_gen_loss loc) = length indices)
         (for_each indices (train_step K cfg epoch) Locals.initial).
Proof.
  apply (steps_yield K cfg (fun l => length l = kd) (fun l => length l = kc)
           (rectangular kd kc)
           Hkd Hkc).
  - intros loc Hloc. apply Hloc.
  - intros loc loc' (_ & Hd & Hg)
           (Hbound & fake & real & gl & Hfake & Hreal & Hgl & Hlen & Hd' & Hg').
    split; [exact Hbound|]. rewrite Hd', Hg'. split.
    + apply Forall_app. split; [exact Hd|]. repeat constructor.
      rewrite length_zip_with, Hfake, Hreal. apply Nat.min_id.
    + apply Forall_app. split; [exact Hg|]. repeat constructor.
      apply np_mean_losses_vector; [|exact Hgl].
      destruct gl; [simpl in Hlen; lia | discriminate].
  - split; [split; discriminate | split; constructor].
Qed.

(** Lines 574-579 after steps that left such lists. *)
Lemma train_gan_after_steps epoch n w l w' loc :
  (0 < kd)%nat -> (0 < kc)%nat -> 0 < n ->
  for_each (range n) (train_step K cfg epoch) Locals.initial w
  = mkOutcome l w' (Ok loc) ->
  exists d g,
    train_gan K cfg epoch n w
    = mkOutcome l w'
        (Ok (Locals.mk (Locals.real_batch_loss loc) (Locals.fake_batch_loss loc)
               (Locals.epoch_gen_loss loc) (Locals.epoch_disc_loss loc)
               (Some d) (Some g))) /\
    length (Locals.epoch_disc_loss loc) = Z.to_nat n /\
    length (Locals.epoch_gen_loss loc) = Z.to_nat n.
Proof.
  intros Hd0 Hc0 Hn Hrun.
  destruct (steps_rectangular epoch (range n) w) as (_ & Hpost).
  rewrite Hrun in Hpost.
  destruct (Hpost loc eq_refl) as ((_ & Hdisc & Hgen) & Hlend & Hleng).
  rewrite range_length in Hlend, Hleng.
  destruct (item0_vector (np_mean_losses (Locals.epoch_disc_loss loc)) kd Hd0)
    as (d & Hd).
  { apply np_mean_losses_vector; [|exact Hdisc].
    destruct (Locals.epoch_disc_loss loc); [simpl in Hlend; lia | discriminate]. }
  destruct (mapM_vectors _ kc Hgen) as (rows & Hrows & Hlenr & Hall).
  destruct (item0_vector (np_mean_values (Locals.epoch_gen_loss loc)) kc Hc0)
    as (g & Hg).
  { unfold np_mean_values. rewrite Hrows.
    apply np_mean_losses_vector; [|exact Hall].
    destruct rows; [simpl in Hlenr; lia | discriminate]. }
  exists d, g. split; [|split; assumption].
  unfold train_gan. rewrite (bind_ok _ _ _ _ _ _ Hrun), Hd, Hg.
  cbn [prepend lift bind ret log world res app]. rewrite app_nil_r. reflexivity.
Qed.

End Completes.

(** X6.  An epoch of [n >= 1] batches whose gate is open at its start
    (the variable holds None or a value below the ceiling, or the epoch is
    below 10) runs to its end when the draws succeed, at least one generator
    pass is asked for and the models report loss vectors of fixed non-zero
    lengths: [train_gan] returns with one entry per batch in each of
    [epoch_gen_loss] and [epoch_disc_loss] and both local means bound, after
    [n] predictions, [2 n] discriminator updates and
    [2 n train_gen_per_epoch] generator updates. *)
Theorem open_epoch_completes (K : Collaborators) (cfg : Config) (kd kc : nat)
        (epoch n : Z) (w : World) :
  0 <= batch_size cfg -> 0 <= latent_size cfg -> 0 < nb_classes cfg ->
  0 < train_gen_per_epoch cfg -> 0 < n ->
  (0 < kd)%nat -> (0 < kc)%nat ->
  (forall m x y sw, length (snd (discriminator_step K m x y sw)) = kd) ->
  (forall m x y sw, length (snd (combined_step K m x y sw)) = kc) ->
  gate_open cfg (Globals.last_epoch_gen_loss (globals w)) epoch = true ->
  exists loc d g,
    res (train_gan K cfg epoch n w) = Ok loc /\
    length (Locals.epoch_gen_loss loc) = Z.to_nat n /\
    length (Locals.epoch_disc_loss loc) = Z.to_nat n /\
    Locals.last_epoch_disc_loss loc = Some d /\
    Locals.last_epoch_gen_lss loc = Some g /\
    count_calls is_predict_call (log (train_gan K cfg epoch n w)) = Z.to_nat n /\
    length (discriminator_calls (log (train_gan K cfg epoch n w)))
    = (2 * Z.to_nat n)%nat /\
    count_calls is_generator_call (log (train_gan K cfg epoch n w))
    = (Z.to_nat n * (1 + Z.to_nat (2 * train_gen_per_epoch cfg)))%nat.
Proof.
  intros Hbs Hls Hcl Hpasses Hn Hkd0 Hkc0 Hkd Hkc Hgate.
  destruct (open_steps_run K cfg epoch (range n) Locals.initial w Hbs Hls Hcl Hgate)
    as (l & w' & loc' & Hrun & _ & _ & Hp & Hd & Hg).
  destruct (train_gan_after_steps K cfg kd kc Hkd Hkc Hpasses epoch n w l w' loc'
              Hkd0 Hkc0 Hn Hrun) as (d & g & Hgan & Hlend & Hleng).
  rewrite Hgan. cbn [log res]. rewrite range_length in Hp, Hd, Hg.
  eexists _, d, g. split; [reflexivity|].
  cbn [Locals.epoch_gen_loss Locals.epoch_disc_loss Locals.last_epoch_disc_loss
       Locals.last_epoch_gen_lss].
  repeat split; assumption.
Qed.

Lemma open_epoch_completes_witness :
  exists loc d g,
    res (train_gan Scenario.collaborators (Scenario.config 3) 12 2 (Scenario.world []))
    = Ok loc /\
    length (Locals.epoch_gen_loss loc) = 2%nat /\
    length (Locals.epoch_disc_loss loc) = 2%nat /\
    Locals.last_epoch_disc_loss loc = Some d /\
    Locals.last_epoch_gen_lss loc = Some g /\
    count_calls is_predict_call
      (log (train_gan Scenario.collaborators (Scenario.config 3) 12 2 (Scenario.world [])))
    = 2%nat /\
    length (discriminator_calls
      (log (train_gan Scenario.collaborators (Scenario.config 3) 12 2 (Scenario.world []))))
    = 4%nat /\
    count_calls is_generator_call
      (log (train_gan Scenario.collaborators (Scenario.config 3) 12 2 (Scenario.world [])))
    = 14%nat.
Proof.
  apply (open_epoch_completes Scenario.collaborators (Scenario.config 3) 4 4 12 2
           (Scenario.world []));
    first [reflexivity | lia | vm_compute; discriminate | intros; reflexivity].
Defined.

(** ** The ceiling on the generator loss *)

Lemma agree_refl {A} (m : M A) : agree m m.
Proof. intros w _. reflexivity. Qed.

Lemma agree_bind {A B} (m m' : M A) (k k' : A -> M B) :
  agree m m' -> keeps globals m -> (forall a, agree (k a) (k' a)) ->
  agree (bind m k) (bind m' k').
Proof.
  intros Hm Hkeep Hk w Hw. unfold bind. rewrite <- (Hm w Hw).
  destruct (res (m w)) as [a|e]; [|reflexivity].
  rewrite <- (Hk a (world (m w))); [reflexivity|].
  rewrite (Hkeep w). exact Hw.
Qed.

Lemma agree_for_each {A S} (xs : list A) (body body' : A -> S -> M S) s :
  (forall x s, agree (body x s) (body' x s)) ->
  (forall x s, keeps globals (body x s)) ->
  agree (for_each xs body s) (for_each xs body' s).
Proof.
  intros Hbody Hkeep. revert s. induction xs as [|x xs IH]; intros s; cbn [for_each].
  - apply agree_refl.
  - apply agree_bind; [apply Hbody | apply Hkeep | intros s'; apply IH].
Qed.

Lemma bind_get_globals {B} (k : Globals.t -> M B) (w : World) :
  bind get_globals k w = k (globals w) w.
Proof. unfold bind. cbn [get_globals res world log app]. symmetry. apply outcome_eta. Qed.

Section Ceiling.
Context (K : Collaborators) (cfg : Config) (c : Qc).

Lemma agree_train_step epoch index loc :
  agree (train_step K (with_ceiling c cfg) epoch index loc)
        (train_step K cfg epoch index loc).
Proof.
  unfold train_step. cbv zeta.
  do 5 (apply agree_bind; [apply agree_refl | repeat keeps_step | intros ?]).
  intros w Hw. rewrite !bind_get_globals, Hw. reflexivity.
Qed.

Lemma agree_train_gan epoch n :
  agree (train_gan K (with_ceiling c cfg) epoch n) (train_gan K cfg epoch n).
Proof.
  unfold train_gan.
  apply agree_bind; [| repeat keeps_step | intros ?; apply agree_refl].
  apply agree_for_each; [intros; apply agree_train_step | intros; repeat keeps_step].
Qed.

Lemma agree_restore_optimizer_states last_epoch :
  agree (restore_optimizer_states K (with_ceiling c cfg) last_epoch)
        (restore_optimizer_states K cfg last_epoch).
Proof.
  unfold restore_optimizer_states.
  apply agree_bind; [apply agree_train_gan | repeat keeps_step | intros ?; apply agree_refl].
Qed.

Lemma agree_resume : agree (resume K (with_ceiling c cfg)) (resume K cfg).
Proof.
  unfold resume. cbv zeta.
  apply agree_bind; [apply agree_refl | repeat keeps_step | intros last_epoch].
  apply agree_bind; [| repeat keeps_step | intros ?; apply agree_refl].
  cbn [load_model with_ceiling].
  destruct (load_model cfg && (-1 <? last_epoch));
    [apply agree_restore_optimizer_states | apply agree_refl].
Qed.

Lemma agree_run_epochs last_epoch :
  agree (run_epochs K (with_ceiling c cfg) last_epoch) (run_epochs K cfg last_epoch).
Proof.
  unfold run_epochs. apply agree_for_each; [|intros; repeat keeps_step].
  intros epoch []. unfold run_epoch.
  apply agree_bind; [apply agree_refl | repeat keeps_step | intros n].
  apply agree_bind; [apply agree_train_gan | repeat keeps_step | intros ?; apply agree_refl].
Qed.

End Ceiling.

(** X7.  The option [--maintain-gen-loss-below] has no effect on a run:
    the script starts with [last_epoch_gen_loss = None] (line 470), no
    statement assigns the variable afterwards, and the condition of line 525
    holds whenever it is None.  From such a state the whole script (resume,
    warm-up and epoch loop) makes the same calls, ends in the same state and
    with the same result for every value of the ceiling. *)
Theorem ceiling_is_ignored (K : Collaborators) (cfg : Config) (c : Qc) (w : World) :
  Globals.last_epoch_gen_loss (globals w) = None ->
  main K (with_ceiling c cfg) w = main K cfg w.
Proof.
  revert w. change (agree (main K (with_ceiling c cfg)) (main K cfg)).
  unfold main.
  apply agree_bind; [apply agree_resume | repeat keeps_step | intros last_epoch].
  apply agree_bind; [apply agree_refl | repeat keeps_step | intros ?].
  apply agree_run_epochs.
Qed.

Lemma ceiling_is_ignored_witness :
  main Scenario.collaborators (with_ceiling 0%Qc (Examples.fresh 12 4 1))
       (Scenario.world [])
  = main Scenario.collaborators (Examples.fresh 12 4 1) (Scenario.world []).
Proof.
  apply (ceiling_is_ignored Scenario.collaborators (Examples.fresh 12 4 1) 0%Qc
           (Scenario.world [])).
  reflexivity.
Defined.

(** ** Names of checkpoint files *)

Lemma list_ascii_of_string_app (s t : string) :
  list_ascii_of_string (s +:+ t) = list_ascii_of_string s ++ list_ascii_of_string t.
Proof.
  induction s as [|ch s IH]; [reflexivity|].
  rewrite append_String. simpl. rewrite IH. reflexivity.
Qed.

Lemma Z_of_digits_snoc (s : string) (ch : ascii) :
  Z_of_digits (s +:+ String ch EmptyString) = 10 * Z_of_digits s + digit_value ch.
Proof.
  unfold Z_of_digits. rewrite list_ascii_of_string_app, fold_left_app. reflexivity.
Qed.

Lemma all_digits_app (s t : string) :
  all_digits (s +:+ t) = all_digits s && all_digits t.
Proof.
  induction s as [|ch s IH]; [reflexivity|].
  rewrite append_String. simpl. rewrite IH, andb_assoc. reflexivity.
Qed.

Lemma pretty_N_go_app (x : N) (s : string) :
  pretty_N_go x s = pretty_N_go x EmptyString +:+ s.
Proof.
  revert s. induction (N.lt_wf_0 x) as [x _ IH]; intros s.
  destruct (N.eq_dec x 0%N) as [->|Hx].
  - rewrite !pretty_N_go_0. reflexivity.
  - rewrite !(pretty_N_go_step x) by lia.
    assert (Hlt : (x `div` 10 < x)%N) by (apply N.div_lt; lia).
    rewrite (IH _ Hlt (String _ s)), (IH _ Hlt (String _ EmptyString)).
    rewrite append_assoc. reflexivity.
Qed.

Lemma pretty_N_char_digit (d : N) :
  (d < 10)%N ->
  is_digit (pretty_N_char d) = true /\ digit_value (pretty_N_char d) = Z.of_N d.
Proof.
  intros Hd.
  assert (H : (d = 0 \/ d = 1 \/ d = 2 \/ d = 3 \/ d = 4 \/ d = 5 \/ d = 6 \/ d = 7
               \/ d = 8 \/ d = 9)%N) by lia.
  repeat destruct H as [-> | H]; try subst d; split; reflexivity.
Qed.

(** The decimal digits that [pretty] writes, read back. *)
Lemma pretty_N_go_digits (x : N) :
  all_digits (pretty_N_go x EmptyString) = true /\
  Z_of_digits (pretty_N_go x EmptyString) = Z.of_N x.
Proof.
  induction (N.lt_wf_0 x) as [x _ IH].
  destruct (N.eq_dec x 0%N) as [->|Hx].
  - rewrite pretty_N_go_0. split; reflexivity.
  - rewrite (pretty_N_go_step x) by lia. rewrite pretty_N_go_app.
    destruct (IH (x `div` 10)%N) as (Hall & Hval); [apply N.div_lt; lia|].
    destruct (pretty_N_char_digit (x `mod` 10)%N) as (Hd & Hv);
      [apply N.mod_lt; lia|].
    split.
    + rewrite all_digits_app, Hall. simpl. rewrite Hd. reflexivity.
    + rewrite Z_of_digits_snoc, Hval, Hv.
      rewrite (N.div_mod x 10) at 3 by lia. lia.
Qed.

Lemma nonzero_digits_nonempty (s : string) : Z_of_digits s <> 0 -> s <> EmptyString.
Proof. intros Hv ->. apply Hv. reflexivity. Qed.

Lemma pretty_Z_digits (z : Z) :
  0 <= z ->
  all_digits (pretty z) = true /\ Z_of_digits (pretty z) = z /\ pretty z <> EmptyString.
Proof.
  intros Hz. destruct z as [|p|p]; [repeat split; discriminate | | lia].
  change (pretty (Z.pos p)) with (pretty_N_go (N.pos p) EmptyString).
  destruct (pretty_N_go_digits (N.pos p)) as (Hall & Hval).
  split; [exact Hall|]. split; [exact Hval|].
  apply nonzero_digits_nonempty. rewrite Hval. discriminate.
Qed.

Lemma zeros_digits (k : nat) (s : string) :
  all_digits (string_of_list_ascii (repeat "0"%char k) +:+ s) = all_digits s /\
  Z_of_digits (string_of_list_ascii (repeat "0"%char k) +:+ s) = Z_of_digits s.
Proof.
  induction k as [|k (IH1 & IH2)]; [split; reflexivity|].
  cbn [repeat string_of_list_ascii]. rewrite append_String. split.
  - cbn [all_digits]. rewrite IH1. reflexivity.
  - unfold Z_of_digits in *. cbn [list_ascii_of_string fold_left]. exact IH2.
Qed.

(** ['{:0Wd}'.format(z)] for [z >= 0]: digits only, at least one, and they
    write [z]. *)
Lemma format_d_digits (width : nat) (z : Z) :
  0 <= z ->
  all_digits (format_d width z) = true /\
  Z_of_digits (format_d width z) = z /\
  format_d width z <> EmptyString.
Proof.
  intros Hz. unfold format_d, zero_pad.
  replace (z <? 0) with false by (symmetry; apply Z.ltb_ge; exact Hz).
  destruct (pretty_Z_digits z Hz) as (Hall & Hval & Hne).
  destruct (zeros_digits (width - String.length (pretty z)) (pretty z)) as (H1 & H2).
  rewrite H1, H2. split; [exact Hall|]. split; [exact Hval|].
  intros Hempty. apply Hne.
  destruct (string_of_list_ascii _) in Hempty; [exact Hempty | discriminate Hempty].
Qed.

Lemma take_digits_app (d rest : string) :
  all_digits d = true -> take_digits (d +:+ rest) = d +:+ take_digits rest.
Proof.
  induction d as [|ch d IH]; intros Hd; [reflexivity|].
  cbn [all_digits] in Hd. apply andb_true_iff in Hd as (Hch & Hd).
  rewrite !append_String. cbn [take_digits]. rewrite Hch, IH by exact Hd. reflexivity.
Qed.

Lemma first_digit_run_digits (d rest : string) :
  all_digits d = true -> d <> EmptyString ->
  first_digit_run (d +:+ rest) = Some (d +:+ take_digits rest).
Proof.
  intros Hd Hne. destruct d as [|ch d]; [congruence|].
  cbn [all_digits] in Hd. apply andb_true_iff in Hd as (Hch & Hd).
  rewrite !append_String. cbn [first_digit_run]. rewrite Hch, take_digits_app by exact Hd.
  reflexivity.
Qed.

Lemma first_digit_run_skip (pfx s : string) :
  no_digit pfx = true -> first_digit_run (pfx +:+ s) = first_digit_run s.
Proof.
  induction pfx as [|ch pfx IH]; intros Hp; [reflexivity|].
  cbn [no_digit] in Hp. apply andb_true_iff in Hp as (Hch & Hp).
  rewrite append_String. cbn [first_digit_run].
  apply negb_true_iff in Hch. rewrite Hch. apply IH, Hp.
Qed.

(** The first run of digits of a checkpoint name whose prefix has no digit
    is the epoch field. *)
Lemma first_digit_run_checkpoint_name (pfx : string) (epoch rank : Z) (ext : string) :
  no_digit pfx = true -> 0 <= epoch ->
  first_digit_run (checkpoint_name pfx epoch rank ext) = Some (format_d 4 epoch).
Proof.
  intros Hp He. unfold checkpoint_name.
  destruct (format_d_digits 4 epoch He) as (Hall & _ & Hne).
  rewrite first_digit_run_skip by exact Hp.
  rewrite first_digit_run_digits by assumption.
  rewrite append_String. cbn [take_digits].
  change (is_digit "_") with false. cbv iota. apply f_equal, append_empty_r.
Qed.

(** X8.  Saving and discovering agree on the epoch: when the file that
    [getLastEpoch] picks carries a name that the script writes for epoch [e]
    (['{0}{1:04d}_{2:03d}' + extension], lines 737-756) with a prefix free of
    digits, and [0 <= e < 2^53], the epoch discovered is [e], whatever the
    rank, the extension and the width of the number. *)
Theorem saved_epoch_is_discovered (K : Collaborators) (dir : list File) (mask : string)
        (pfx : string) (e rank : Z) (ext : string) (f : File) (fs : list File) :
  no_digit pfx = true -> 0 <= e < 2 ^ 53 ->
  glob_entries K dir mask = f :: fs ->
  path (max_by_key ctime f fs) = checkpoint_name pfx e rank ext ->
  get_last_epoch K dir mask = Ok e.
Proof.
  intros Hp He Hglob Hname.
  rewrite (get_last_epoch_chosen K dir mask f fs Hglob), Hname.
  rewrite first_digit_run_checkpoint_name by (exact Hp || lia).
  destruct (format_d_digits 4 e) as (_ & Hval & _); [lia|].
  unfold float_of_digits. rewrite Hval, round_to_double_exact by lia. reflexivity.
Qed.

Lemma saved_epoch_is_discovered_witness :
  get_last_epoch Scenario.collaborators
    [mkFile "params_discriminator_epoch_0041_002.weights" 5 [];
     mkFile "params_discriminator_epoch_12345_002.weights" 9 []]
    "params_discriminator_epoch_*_002.weights" = Ok 12345.
Proof.
  apply (saved_epoch_is_discovered Scenario.collaborators _ _
           "params_discriminator_epoch_" 12345 2 ".weights"
           (mkFile "params_discriminator_epoch_0041_002.weights" 5 [])
           [mkFile "params_discriminator_epoch_12345_002.weights" 9 []]).
  - reflexivity.
  - split; [lia | reflexivity].
  - reflexivity.
  - reflexivity.
Defined.

Lemma take_digits_closed (t s : string) :
  t <> EmptyString -> last_is_digit t = false ->
  take_digits (t +:+ s) = take_digits t.
Proof.
  induction t as [|ch t IH]; intros Hne Hlast; [congruence|].
  rewrite append_String. cbn [take_digits].
  destruct (is_digit ch) eqn:Hch; [|reflexivity].
  destruct t as [|ch' t]; [simpl in Hlast; congruence|].
  f_equal. apply IH; [discriminate | exact Hlast].
Qed.

(** A run of digits that ends inside the prefix is not changed by what
    follows the prefix. *)
Lemma first_digit_run_closed (pfx s run : string) :
  first_digit_run pfx = Some run -> last_is_digit pfx = false ->
  first_digit_run (pfx +:+ s) = Some run.
Proof.
  induction pfx as [|ch pfx IH]; intros Hrun Hlast; [discriminate|].
  rewrite append_String. cbn [first_digit_run] in *.
  destruct pfx as [|ch' pfx].
  - simpl in Hlast. rewrite Hlast in Hrun. discriminate.
  - destruct (is_digit ch).
    + rewrite take_digits_closed; [exact Hrun | discriminate | exact Hlast].
    + apply IH; [exact Hrun | exact Hlast].
Qed.

(** X9.  The epoch is read from the first run of digits of the whole name,
    prefix included: with a prefix that holds a number followed by a
    character that is not a digit (as in ["run2_gen_"]), [getLastEpoch]
    returns that number for every file the script has written, whatever the
    epoch in the name. *)
Theorem prefix_number_hides_epoch (K : Collaborators) (dir : list File) (mask : string)
        (pfx run : string) (e rank : Z) (ext : string) (f : File) (fs : list File) :
  first_digit_run pfx = Some run -> last_is_digit pfx = false ->
  glob_entries K dir mask = f :: fs ->
  path (max_by_key ctime f fs) = checkpoint_name pfx e rank ext ->
  get_last_epoch K dir mask = int_of_float (float_of_digits run).
Proof.
  intros Hrun Hlast Hglob Hname.
  rewrite (get_last_epoch_chosen K dir mask f fs Hglob), Hname.
  unfold checkpoint_name. rewrite (first_digit_run_closed _ _ run Hrun Hlast).
  reflexivity.
Qed.

Lemma prefix_number_hides_epoch_witness :
  get_last_epoch Scenario.collaborators
    [mkFile "run2_gen_0007_000.weights" 5 []] "run2_gen_*_000.weights" = Ok 2.
Proof.
  apply (prefix_number_hides_epoch Scenario.collaborators _ _ "run2_gen_" "2" 7 0
           ".weights" (mkFile "run2_gen_0007_000.weights" 5 []) []);
    reflexivity.
Defined.

(** ** What getLastEpoch can return *)

Lemma digit_value_range (ch : ascii) :
  is_digit ch = true -> 0 <= digit_value ch <= 9.
Proof.
  destruct ch as [[] [] [] [] [] [] [] []]; vm_compute; intros H;
    first [discriminate H | split; discriminate].
Qed.

Lemma Z_of_digits_nonneg (s : string) : all_digits s = true -> 0 <= Z_of_digits s.
Proof.
  unfold Z_of_digits.
  assert (H : forall z, 0 <= z ->
            all_digits s = true ->
            0 <= fold_left (fun acc ch => 10 * acc + digit_value ch)
                           (list_ascii_of_string s) z).
  { induction s as [|ch s IH]; intros z Hz Hs; [exact Hz|].
    cbn [all_digits] in Hs. apply andb_true_iff in Hs as (Hch & Hs).
    cbn [list_ascii_of_string fold_left]. apply IH; [|exact Hs].
    pose proof (digit_value_range ch Hch). lia. }
  intros Hs. apply H; [lia | exact Hs].
Qed.

Lemma take_digits_all (s : string) : all_digits (take_digits s) = true.
Proof.
  induction s as [|ch s IH]; [reflexivity|]. cbn [take_digits].
  destruct (is_digit ch) eqn:Hch; [|reflexivity].
  cbn [all_digits]. rewrite Hch, IH. reflexivity.
Qed.

Lemma first_digit_run_all (s run : string) :
  first_digit_run s = Some run -> all_digits run = true.
Proof.
  induction s as [|ch s IH]; [discriminate|]. cbn [first_digit_run].
  destruct (is_digit ch) eqn:Hch; [|exact IH].
  intros [= <-]. cbn [all_digits]. rewrite Hch, take_digits_all. reflexivity.
Qed.

Lemma round_to_double_nonneg (n z : Z) :
  0 <= n -> round_to_double n = Finite z -> 0 <= z.
Proof.
  intros Hn. unfold round_to_double. cbv zeta.
  destruct (Z.log2 n <? 53); [intros [= <-]; exact Hn|].
  match goal with |- (if ?b then _ else _) = _ -> _ => destruct b end;
    [discriminate|].
  intros [= <-]. apply Z.shiftl_nonneg.
  assert (Hq : 0 <= Z.shiftr n (Z.log2 n - 52)) by (apply Z.shiftr_nonneg; exact Hn).
  match goal with |- 0 <= (if ?b then _ else _) => destruct b end; lia.
Qed.

(** Numbers from [2^1024] on are beyond the doubles. *)
Lemma round_to_double_overflow (n : Z) :
  2 ^ 1024 <= n -> round_to_double n = Infinity.
Proof.
  intros Hn.
  assert (Hpos : 0 < n) by (pose proof (Z.pow_pos_nonneg 2 1024); lia).
  assert (Hk : 1024 <= Z.log2 n).
  { rewrite <- (Z.log2_pow2 1024) by lia. apply Z.log2_le_mono. exact Hn. }
  destruct (Z.log2_spec n Hpos) as (Hlow & _).
  unfold round_to_double. cbv zeta.
  replace (Z.log2 n <? 53) with false by (symmetry; apply Z.ltb_ge; lia).
  set (k := Z.log2 n) in *. set (e := k - 52).
  assert (He : 0 <= e) by (unfold e; lia).
  assert (Hq : 2 ^ 52 <= Z.shiftr n e).
  { rewrite Z.shiftr_div_pow2 by exact He.
    replace (2 ^ 52) with (2 ^ k / 2 ^ e).
    - apply Z.div_le_mono; [apply Z.pow_pos_nonneg; lia | exact Hlow].
    - unfold e. rewrite <- Z.pow_sub_r by lia. f_equal. lia. }
  match goal with |- (if 2 ^ 1024 <=? Z.shiftl ?q' e then _ else _) = _ =>
    assert (Hq' : 2 ^ 52 <= q') by (destruct (_ || _); lia);
    assert (Hv : 2 ^ 1024 <= Z.shiftl q' e)
  end.
  { rewrite Z.shiftl_mul_pow2 by exact He.
    apply Z.le_trans with (2 ^ k); [apply Z.pow_le_mono_r; lia|].
    replace k with (52 + e) at 1 by (unfold e; lia).
    rewrite Z.pow_add_r by lia.
    apply Z.mul_le_mono_nonneg_r; [apply Z.pow_nonneg; lia | exact Hq']. }
  apply Z.leb_le in Hv. rewrite Hv. reflexivity.
Qed.

(** X10.  The sentinel of [getLastEpoch] is unambiguous.  It returns -1
    exactly when no file matches; with a match the value returned is never
    negative, so the test [last_epoch > -1] of lines 604 and 645 holds
    exactly when a file was found and read.  Among the matched files, all
    with a creation time to read, the call raises IndexError exactly when
    the chosen name has no digit ([listOfNumbers[0]] at line 593), and it
    raises OverflowError when the first run of digits writes a number of
    [2^1024] or more, which [float] turns into infinity.  Which other
    exceptions the call can raise is not stated: [os.path.getctime] fails
    on a matched name that cannot be read, and that is outside [File]. *)
Theorem getLastEpoch_outcomes (K : Collaborators) (dir : list File) (mask : string) :
  (get_last_epoch K dir mask = Ok (-1) <-> glob_entries K dir mask = []) /\
  (forall e, get_last_epoch K dir mask = Ok e -> -1 <= e) /\
  (forall f fs,
      glob_entries K dir mask = f :: fs ->
      (get_last_epoch K dir mask = Raise IndexError
       <-> first_digit_run (path (max_by_key ctime f fs)) = None) /\
      (forall run,
          first_digit_run (path (max_by_key ctime f fs)) = Some run ->
          2 ^ 1024 <= Z_of_digits run ->
          get_last_epoch K dir mask = Raise OverflowError)).
Proof.
  assert (Hfound : forall f fs e,
             glob_entries K dir mask = f :: fs ->
             get_last_epoch K dir mask = Ok e -> 0 <= e).
  { intros f fs e Hglob. rewrite (get_last_epoch_chosen K dir mask f fs Hglob).
    destruct (first_digit_run _) as [run|] eqn:Hrun; [|discriminate].
    unfold float_of_digits.
    destruct (round_to_double (Z_of_digits run)) as [z|] eqn:Hround; [|discriminate].
    intros [= <-]. apply (round_to_double_nonneg (Z_of_digits run)); [|exact Hround].
    apply Z_of_digits_nonneg, (first_digit_run_all _ _ Hrun). }
  assert (Hnone : glob_entries K dir mask = [] -> get_last_epoch K dir mask = Ok (-1)).
  { intros Hglob. unfold get_last_epoch. rewrite Hglob. reflexivity. }
  split; [|split].
  - split; [|exact Hnone].
    destruct (glob_entries K dir mask) as [|f fs] eqn:Hglob; [reflexivity|].
    intros He. pose proof (Hfound f fs (-1) eq_refl He). lia.
  - intros e He. destruct (glob_entries K dir mask) as [|f fs] eqn:Hglob.
    + rewrite (Hnone eq_refl) in He. injection He as <-. lia.
    + pose proof (Hfound f fs e eq_refl He). lia.
  - intros f fs Hglob. rewrite (get_last_epoch_chosen K dir mask f fs Hglob).
    split.
    + destruct (first_digit_run _) as [run|]; [|split; reflexivity].
      split; [|discriminate].
      destruct (float_of_digits run); discriminate.
    + intros run -> Hbig. unfold float_of_digits.
      rewrite (round_to_double_overflow _ Hbig). reflexivity.
Qed.

Lemma getLastEpoch_outcomes_witness :
  get_last_epoch Scenario.collaborators [mkFile "latest.weights" 3 []] "*.weights"
  = Raise IndexError /\
  get_last_epoch Scenario.collaborators [mkFile "latest.weights" 3 []] "*.optimizer"
  = Ok (-1).
Proof.
  destruct (getLastEpoch_outcomes Scenario.collaborators
              [mkFile "latest.weights" 3 []] "*.weights") as (_ & _ & Hmatch).
  destruct (getLastEpoch_outcomes Scenario.collaborators
              [mkFile "latest.weights" 3 []] "*.optimizer") as (Hnone & _).
  split.
  - apply (Hmatch (mkFile "latest.weights" 3 []) []); reflexivity.
  - apply Hnone. reflexivity.
Defined.

(** ** Distinct checkpoints, distinct files *)

Lemma append_inv_l (p a b : string) : p +:+ a = p +:+ b -> a = b.
Proof.
  induction p as [|ch p IH]; [trivial|]. rewrite !append_String.
  intros [= H]. apply IH, H.
Qed.

Lemma append_inv_r (a b t : string) : a +:+ t = b +:+ t -> a = b.
Proof.
  intros H. apply (f_equal list_ascii_of_string) in H.
  rewrite !list_ascii_of_string_app in H. apply app_inv_tail in H.
  rewrite <- (string_of_list_ascii_of_string a), <- (string_of_list_ascii_of_string b), H.
  reflexivity.
Qed.

(** Two runs of digits, each followed by the underscore. *)
Lemma digits_then_underscore (d1 d2 r1 r2 : string) :
  all_digits d1 = true -> all_digits d2 = true ->
  d1 +:+ "_" +:+ r1 = d2 +:+ "_" +:+ r2 -> d1 = d2 /\ r1 = r2.
Proof.
  intros H1 H2 Heq.
  assert (Hd : d1 = d2).
  { apply (f_equal take_digits) in Heq.
    rewrite (take_digits_app d1), (take_digits_app d2), !append_String in Heq
      by assumption.
    cbn [take_digits] in Heq. change (is_digit "_") with false in Heq. cbv iota in Heq.
    rewrite !append_empty_r in Heq. exact Heq. }
  split; [exact Hd|]. subst d2. apply append_inv_l in Heq.
  rewrite !append_String in Heq. injection Heq as Heq. exact Heq.
Qed.

Lemma format_d_inj (width : nat) (z z' : Z) :
  0 <= z -> 0 <= z' -> format_d width z = format_d width z' -> z = z'.
Proof.
  intros Hz Hz' Heq.
  destruct (format_d_digits width z Hz) as (_ & <- & _).
  destruct (format_d_digits width z' Hz') as (_ & <- & _).
  rewrite Heq. reflexivity.
Qed.

(** X11.  File names do not collide: for one prefix and one extension the
    names of lines 737-756 determine the epoch and the rank (both
    non-negative), so two workers, or two epochs of one worker, never write
    the same file; and for one epoch and rank, two networks write the same
    file only if their prefixes are equal. *)
Theorem checkpoint_name_inj (pfx pfx' : string) (e e' r r' : Z) (ext : string) :
  0 <= e -> 0 <= e' -> 0 <= r -> 0 <= r' ->
  (checkpoint_name pfx e r ext = checkpoint_name pfx e' r' ext -> e = e' /\ r = r') /\
  (checkpoint_name pfx e r ext = checkpoint_name pfx' e r ext -> pfx = pfx').
Proof.
  intros He He' Hr Hr'. unfold checkpoint_name. split.
  - intros Heq. apply append_inv_l in Heq.
    destruct (format_d_digits 4 e He) as (Hd & _).
    destruct (format_d_digits 4 e' He') as (Hd' & _).
    apply digits_then_underscore in Heq as (Hepoch & Hrank); [|assumption..].
    split; [apply (format_d_inj 4); assumption|].
    apply append_inv_r in Hrank. apply (format_d_inj 3); assumption.
  - intros Heq. apply append_inv_r in Heq. exact Heq.
Qed.

Lemma checkpoint_name_inj_witness :
  checkpoint_name "params_generator_epoch_" 12 1 ".weights"
  = "params_generator_epoch_0012_001.weights" /\
  (checkpoint_name "params_generator_epoch_" 12 1 ".weights"
   = checkpoint_name "params_generator_epoch_" 1 21 ".weights" -> 12 = 1 /\ 1 = 21).
Proof.
  split; [reflexivity|].
  apply (checkpoint_name_inj "params_generator_epoch_" "params_generator_epoch_"
           12 1 1 21 ".weights"); lia.
Defined.

(** ** The batches of an epoch *)

Lemma slice_batch {A} (a : list A) (bs i : nat) :
  slice a (Z.of_nat i * Z.of_nat bs) ((Z.of_nat i + 1) * Z.of_nat bs)
  = take bs (drop (i * bs) a).
Proof.
  unfold slice.
  replace ((Z.of_nat i + 1) * Z.of_nat bs - Z.of_nat i * Z.of_nat bs)
    with (Z.of_nat bs) by ring.
  rewrite <- Nat2Z.inj_mul, !Nat2Z.id. reflexivity.
Qed.

Lemma batches_concat {A} (a : list A) (bs k : nat) :
  concat (map (fun i => take bs (drop (i * bs) a)) (seq 0 k)) = take (k * bs) a.
Proof.
  induction k as [|k IH]; [reflexivity|].
  rewrite seq_S, map_app, concat_app, IH. cbn [map concat plus].
  rewrite app_nil_r, take_take_drop. f_equal. lia.
Qed.

(** X12.  The steps of an epoch sweep the data in order: for a positive
    [batch_size], the slices [a[index * batch_size : (index + 1) * batch_size]]
    of lines 494-498, for [index] in [range(nb_batches)], all hold exactly
    [batch_size] events, and put end to end they are the first
    [nb_batches * batch_size] events of the array; the events left over,
    fewer than a batch, are used by no step. *)
Theorem epoch_sweeps_data {A} (cfg : Config) (a : list A) (n : Z) :
  0 < batch_size cfg -> nb_batches cfg = Ok n -> length a = length (first cfg) ->
  Forall (fun b => length b = Z.to_nat (batch_size cfg))
         (map (fun index => slice a (index * batch_size cfg) ((index + 1) * batch_size cfg))
              (range n)) /\
  concat (map (fun index => slice a (index * batch_size cfg) ((index + 1) * batch_size cfg))
              (range n))
  = take (Z.to_nat (n * batch_size cfg)) a /\
  0 <= Z.of_nat (length a) - n * batch_size cfg < batch_size cfg.
Proof.
  intros Hbs Hnb Hlen. unfold nb_batches in Hnb.
  replace (batch_size cfg =? 0) with false in Hnb by (symmetry; apply Z.eqb_neq; lia).
  injection Hnb as <-. rewrite <- Hlen.
  rewrite Z.quot_div_nonneg by lia.
  set (bs := Z.to_nat (batch_size cfg)).
  assert (Hbs' : batch_size cfg = Z.of_nat bs) by (unfold bs; lia).
  rewrite Hbs'. rewrite <- Nat2Z.inj_div.
  set (k := (length a / bs)%nat).
  assert (Hpos : (0 < bs)%nat) by lia.
  assert (Hk : (k * bs <= length a < (k + 1) * bs)%nat).
  { unfold k. pose proof (Nat.div_mod_eq (length a) bs) as Hdm.
    pose proof (Nat.mod_upper_bound (length a) bs). nia. }
  assert (Hmap : map (fun index => slice a (index * Z.of_nat bs)
                                     ((index + 1) * Z.of_nat bs)) (range (Z.of_nat k))
                 = map (fun i => take bs (drop (i * bs) a)) (seq 0 k)).
  { unfold range. rewrite Nat2Z.id, map_map. apply map_ext. intros i.
    apply slice_batch. }
  rewrite Hmap, batches_concat. split; [|split].
  - apply List.Forall_forall. intros b Hb. apply in_map_iff in Hb as (i & <- & Hi).
    apply in_seq in Hi. rewrite length_take, length_drop. nia.
  - f_equal. lia.
  - nia.
Qed.

Lemma epoch_sweeps_data_witness :
  concat (map (fun index => slice [10; 11; 12; 13; 14; 15; 16; 17] (index * 3) ((index + 1) * 3))
              (range 2))
  = [10; 11; 12; 13; 14; 15].
Proof.
  destruct (epoch_sweeps_data (Examples.fresh 1 3 1) [10; 11; 12; 13; 14; 15; 16; 17] 2)
    as (_ & H & _); [reflexivity | reflexivity | reflexivity | exact H].
Defined.

(** ** The directory after a write *)

Lemma find_snoc {A} (p : A -> bool) (l : list A) (x : A) :
  find p (l ++ [x])
  = match find p l with
    | Some y => Some y
    | None => if p x then Some x else None
    end.
Proof.
  induction l as [|y l IH]; [reflexivity|]. cbn [app find].
  destruct (p y); [reflexivity | exact IH].
Qed.

Lemma find_replaced (name : string) (f : File) (dir : list File) :
  path f = name ->
  existsb (fun g => String.eqb (path g) name) dir = true ->
  find (fun g => String.eqb (path g) name)
       (map (fun g => if String.eqb (path g) name then f else g) dir)
  = Some f.
Proof.
  intros Hf. induction dir as [|g dir IH]; [discriminate|].
  cbn [existsb map find]. destruct (String.eqb (path g) name) eqn:Hg.
  - intros _. rewrite Hf, String.eqb_refl. reflexivity.
  - rewrite Hg. exact IH.
Qed.

Lemma find_not_replaced (name name' : string) (f : File) (dir : list File) :
  path f = name -> name' <> name ->
  find (fun g => String.eqb (path g) name')
       (map (fun g => if String.eqb (path g) name then f else g) dir)
  = find (fun g => String.eqb (path g) name') dir.
Proof.
  intros Hf Hne. induction dir as [|g dir IH]; [reflexivity|].
  cbn [map find]. destruct (String.eqb (path g) name) eqn:Hg.
  - apply String.eqb_eq in Hg. rewrite Hf, Hg.
    replace (String.eqb name name') with false
      by (symmetry; apply String.eqb_neq; congruence).
    exact IH.
  - rewrite IH. reflexivity.
Qed.

Lemma existsb_find_none (name : string) (dir : list File) :
  existsb (fun g => String.eqb (path g) name) dir = false ->
  find (fun g => String.eqb (path g) name) dir = None.
Proof.
  induction dir as [|g dir IH]; [reflexivity|]. cbn [existsb find].
  destruct (String.eqb (path g) name); [discriminate | exact IH].
Qed.

(** Reading back what was written. *)
Lemma stored_write_same (name : string) (c : Weights) (w : World) :
  stored (files (world (write_file name c w))) name c.
Proof.
  exists (mkFile name (clock w) c). split; [|reflexivity].
  cbn [write_file world files].
  destruct (existsb _ (files w)) eqn:Hex.
  - apply find_replaced; [reflexivity | exact Hex].
  - rewrite find_snoc, (existsb_find_none _ _ Hex). cbn [path].
    rewrite String.eqb_refl. reflexivity.
Qed.

(** A write leaves the files of other names as they are. *)
Lemma find_write_other (name name' : string) (c : Weights) (w : World) :
  name' <> name ->
  find (fun f => String.eqb (path f) name') (files (world (write_file name c w)))
  = find (fun f => String.eqb (path f) name') (files w).
Proof.
  intros Hne. cbn [write_file world files].
  destruct (existsb _ (files w)).
  - apply find_not_replaced; [reflexivity | exact Hne].
  - rewrite find_snoc. cbn [path].
    replace (String.eqb name name') with false
      by (symmetry; apply String.eqb_neq; congruence).
    destruct (find _ (files w)); reflexivity.
Qed.

Lemma stored_write_other (name name' : string) (c c' : Weights) (w : World) :
  name' <> name -> stored (files w) name' c' ->
  stored (files (world (write_file name c w))) name' c'.
Proof.
  intros Hne (f & Hf & Hc). exists f. rewrite find_write_other by exact Hne.
  split; assumption.
Qed.

Lemma stored_checkpointed (dir : list File) (name : string) (c : Weights) :
  stored dir name c -> checkpointed dir name = c.
Proof. intros (f & Hf & Hc). unfold checkpointed. rewrite Hf. exact Hc. Qed.

(** A stored file whose name matches itself as a pattern is found by
    [glob]. *)
Lemma stored_present (K : Collaborators) (dir : list File) (name : string) (c : Weights) :
  fnmatch K name name = true -> stored dir name c -> present K dir name.
Proof.
  intros Hmatch (f & Hf & _). split; [|exists f; exact Hf].
  apply find_some in Hf as (Hin & Hname). apply String.eqb_eq in Hname.
  intros Hglob.
  assert (Hf : f ∈ glob_entries K dir name).
  { apply list_elem_of_filter. split; [|apply list_elem_of_In; exact Hin].
    rewrite Hname, Hmatch. exact I. }
  rewrite Hglob in Hf. inversion Hf.
Qed.

(** ** Saving a checkpoint *)

Lemma last_app_nonempty {A} (l l' : list A) (d : A) :
  l' <> [] -> List.last (l ++ l') d = List.last l' d.
Proof.
  intros Hne. induction l as [|x l IH]; [reflexivity|].
  cbn [app]. destruct (l ++ l') eqn:Happ; [|exact IH].
  apply app_eq_nil in Happ as (_ & ->). congruence.
Qed.

(** The last character of a name is the last character of its
    extension. *)
Lemma checkpoint_name_last (pfx : string) (e r : Z) (ext : string) :
  ext <> EmptyString ->
  List.last (list_ascii_of_string (checkpoint_name pfx e r ext)) " "%char
  = List.last (list_ascii_of_string ext) " "%char.
Proof.
  intros Hext. unfold checkpoint_name.
  rewrite !list_ascii_of_string_app, !app_assoc. apply last_app_nonempty.
  destruct ext; [congruence | discriminate].
Qed.

Lemma weights_name_not_optimizer (pfx pfx' : string) (e e' r r' : Z) :
  checkpoint_name pfx e r ".weights" <> checkpoint_name pfx' e' r' ".optimizer".
Proof.
  intros Heq.
  apply (f_equal (fun s => List.last (list_ascii_of_string s) " "%char)) in Heq.
  rewrite !checkpoint_name_last in Heq by discriminate. discriminate Heq.
Qed.

Section Saving.
Context (cfg : Config).

(** Lines 737-757: nothing fails, no model changes, and the two weights
    files hold the weights of the models. *)
Lemma save_checkpoint_run (e : Z) (w : World) :
  g_pfx cfg <> d_pfx cfg ->
  exists w',
    save_checkpoint cfg e w = mkOutcome [] w' (Ok tt) /\
    models w' = models w /\
    stored (files w') (checkpoint_name (g_pfx cfg) e (hvd_rank cfg) ".weights")
           (generator_weights (models w)) /\
    stored (files w') (checkpoint_name (d_pfx cfg) e (hvd_rank cfg) ".weights")
           (discriminator_weights (models w)).
Proof.
  intros Hpfx.
  set (gW := checkpoint_name (g_pfx cfg) e (hvd_rank cfg) ".weights").
  set (dW := checkpoint_name (d_pfx cfg) e (hvd_rank cfg) ".weights").
  assert (Hgd : gW <> dW).
  { intros Heq. apply Hpfx. unfold gW, dW, checkpoint_name in Heq.
    apply append_inv_r in Heq. exact Heq. }
  unfold save_checkpoint. rewrite (bind_ok get_models _ w _ _ _ eq_refl).
  fold gW dW.
  set (w1 := world (write_file gW (generator_weights (models w)) w)).
  rewrite (bind_ok (write_file gW _) _ w [] w1 tt) by reflexivity.
  set (w2 := world (write_file dW (discriminator_weights (models w)) w1)).
  rewrite (bind_ok (write_file dW _) _ w1 [] w2 tt) by reflexivity.
  assert (Hg2 : stored (files w2) gW (generator_weights (models w))).
  { apply stored_write_other; [exact Hgd | apply stored_write_same]. }
  assert (Hd2 : stored (files w2) dW (discriminator_weights (models w))).
  { apply stored_write_same. }
  destruct (save_model cfg).
  - match goal with
    | |- context [bind (write_file ?n1 ?c1) (fun _ => bind (write_file ?n2 ?c2)
                                                       (fun _ => write_file ?n3 ?c3))] =>
        set (w3 := world (write_file n1 c1 w2));
        set (w4 := world (write_file n2 c2 w3));
        set (w5 := world (write_file n3 c3 w4));
        exists w5;
        rewrite (bind_ok (write_file n1 c1) _ w2 [] w3 tt) by reflexivity;
        rewrite (bind_ok (write_file n2 c2) _ w3 [] w4 tt) by reflexivity
    end.
    split; [reflexivity|]. split; [reflexivity|].
    split; repeat (apply stored_write_other; [apply weights_name_not_optimizer|]);
      assumption.
  - exists w2. split; [reflexivity|]. split; [reflexivity|]. split; assumption.
Qed.

End Saving.

(** ** When the epoch loop writes *)

Section Writes.
Context (K : Collaborators) (cfg : Config).

Lemma keeps_files_train_gan epoch n : keeps files (train_gan K cfg epoch n).
Proof. repeat keeps_step. Qed.

Lemma save_checkpoint_returns e w : res (save_checkpoint cfg e w) = Ok tt.
Proof. unfold save_checkpoint. destruct (save_model cfg); reflexivity. Qed.

(** An epoch whose saving condition (line 736) is false leaves the
    directory alone. *)
Lemma run_epoch_no_save last_epoch epoch w :
  ((hvd_rank cfg =? 0) || negb (process0 cfg))
  && (save_all_epochs cfg || (epoch =? nb_epochs cfg + last_epoch)) = false ->
  files (world (run_epoch K cfg last_epoch epoch tt w)) = files w.
Proof.
  intros Hcond. revert w. change (keeps files (run_epoch K cfg last_epoch epoch tt)).
  unfold run_epoch. rewrite Hcond.
  apply keeps_bind; [intros w; reflexivity | intros n].
  apply keeps_bind; [apply keeps_files_train_gan | intros _; apply keeps_ret].
Qed.

(** An epoch that fails has written nothing. *)
Lemma run_epoch_failed last_epoch epoch w x :
  res (run_epoch K cfg last_epoch epoch tt w) = Raise x ->
  files (world (run_epoch K cfg last_epoch epoch tt w)) = files w.
Proof.
  unfold run_epoch. destruct (nb_batches cfg) as [n|y]; [|intros _; reflexivity].
  rewrite (bind_ok (lift (Ok n)) _ w _ _ _ eq_refl).
  pose proof (keeps_files_train_gan epoch n w) as Hkeep.
  destruct (train_gan K cfg epoch n w) as [l w1 [loc|y]] eqn:Hgan.
  - rewrite (bind_ok _ _ _ _ _ _ Hgan). cbn [prepend res].
    destruct (_ && _); [rewrite save_checkpoint_returns|]; discriminate.
  - rewrite (bind_raise _ _ _ _ _ _ Hgan). intros _. exact Hkeep.
Qed.

End Writes.

(** X13.  The epoch loop writes files only where line 736 allows it: with
    [process0] a worker of non-zero rank never changes the directory during
    the loop; without [save_all_epochs] no epoch but the last one,
    [nb_epochs + last_epoch], changes it; and an epoch that ends with an
    exception (of line 730 or of [train_gan]) has written nothing, the
    saving block being the last thing an epoch does. *)
Theorem epoch_loop_writes_only (K : Collaborators) (cfg : Config) :
  (process0 cfg = true -> hvd_rank cfg <> 0 ->
   forall last_epoch w, files (world (run_epochs K cfg last_epoch w)) = files w) /\
  (save_all_epochs cfg = false ->
   forall last_epoch epoch w,
     epoch <> nb_epochs cfg + last_epoch ->
     files (world (run_epoch K cfg last_epoch epoch tt w)) = files w) /\
  (forall last_epoch epoch w x,
      res (run_epoch K cfg last_epoch epoch tt w) = Raise x ->
      files (world (run_epoch K cfg last_epoch epoch tt w)) = files w).
Proof.
  split; [|split].
  - intros Hp0 Hrank last_epoch.
    change (keeps files (run_epochs K cfg last_epoch)).
    unfold run_epochs. apply keeps_for_each. intros epoch [] w.
    apply run_epoch_no_save. rewrite Hp0.
    replace (hvd_rank cfg =? 0) with false by (symmetry; apply Z.eqb_neq; exact Hrank).
    reflexivity.
  - intros Hall last_epoch epoch w Hepoch. apply run_epoch_no_save. rewrite Hall.
    replace (epoch =? nb_epochs cfg + last_epoch) with false
      by (symmetry; apply Z.eqb_neq; exact Hepoch).
    apply andb_false_r.
  - intros last_epoch epoch w x. apply run_epoch_failed.
Qed.

Lemma epoch_loop_writes_only_witness :
  files (world (run_epochs Scenario.collaborators
                  (Examples.config 2 4 1 false false false true true true 0%Qc 1 2)
                  (-1) (Scenario.world [])))
  = [] /\
  files (world (run_epoch Scenario.collaborators (Examples.fresh 2 4 1) (-1) 0 tt
                  (Scenario.world [])))
  = [].
Proof.
  destruct (epoch_loop_writes_only Scenario.collaborators
              (Examples.config 2 4 1 false false false true true true 0%Qc 1 2))
    as (Hrank & _).
  destruct (epoch_loop_writes_only Scenario.collaborators (Examples.fresh 2 4 1))
    as (_ & Hlast & _).
  split.
  - apply (Hrank eq_refl); discriminate.
  - apply (Hlast eq_refl). discriminate.
Defined.

(** ** The checkpoint of the last epoch *)

Lemma bind_ret_l {A B} (a : A) (k : A -> M B) (w : World) : bind (ret a) k w = k a w.
Proof. unfold bind. cbn [ret res world log app]. symmetry. apply outcome_eta. Qed.

Lemma bind_ext {A B} (m : M A) (k k' : A -> M B) (w : World) :
  (forall a w', k a w' = k' a w') -> bind m k w = bind m k' w.
Proof. intros Hk. unfold bind. destruct (res (m w)); [rewrite Hk|]; reflexivity. Qed.

Lemma bind_inv_ok {A B} (m : M A) (k : A -> M B) (w : World) (b : B) :
  res (bind m k w) = Ok b ->
  exists a,
    res (m w) = Ok a /\
    world (bind m k w) = world (k a (world (m w))) /\
    res (k a (world (m w))) = Ok b.
Proof.
  unfold bind. destruct (res (m w)) as [a|e]; cbn [res world]; [|discriminate].
  intros Hres. exists a. repeat split. exact Hres.
Qed.

(** The last pass of a loop. *)
Lemma for_each_snoc {A S} (xs : list A) (x : A) (body : A -> S -> M S) (s : S)
      (w : World) :
  for_each (xs ++ [x]) body s w = bind (for_each xs body s) (body x) w.
Proof.
  revert s w. induction xs as [|y xs IH]; intros s w; cbn [app for_each].
  - rewrite bind_ret_l. unfold bind. destruct (body x s w) as [l w' [s'|e]]; cbn;
      [rewrite app_nil_r|]; reflexivity.
  - rewrite bind_assoc. apply bind_ext. intros s' w'. apply IH.
Qed.

Lemma epochs_last (cfg : Config) (last_epoch : Z) :
  0 < nb_epochs cfg ->
  exists init, epochs cfg last_epoch = init ++ [nb_epochs cfg + last_epoch].
Proof.
  intros Hn. unfold epochs, range.
  replace (Z.to_nat (nb_epochs cfg)) with (S (Z.to_nat (nb_epochs cfg) - 1)) by lia.
  rewrite seq_S, !map_app. cbn [map]. eexists. f_equal. f_equal. lia.
Qed.

Section LastEpoch.
Context (K : Collaborators) (cfg : Config).

(** An epoch that saves and returns leaves the weights of the models in
    the two weights files of the epoch. *)
Lemma run_epoch_saved last_epoch epoch w :
  ((hvd_rank cfg =? 0) || negb (process0 cfg))
  && (save_all_epochs cfg || (epoch =? nb_epochs cfg + last_epoch)) = true ->
  g_pfx cfg <> d_pfx cfg ->
  res (run_epoch K cfg last_epoch epoch tt w) = Ok tt ->
  stored (files (world (run_epoch K cfg last_epoch epoch tt w)))
         (checkpoint_name (g_pfx cfg) epoch (hvd_rank cfg) ".weights")
         (generator_weights (models (world (run_epoch K cfg last_epoch epoch tt w)))) /\
  stored (files (world (run_epoch K cfg last_epoch epoch tt w)))
         (checkpoint_name (d_pfx cfg) epoch (hvd_rank cfg) ".weights")
         (discriminator_weights (models (world (run_epoch K cfg last_epoch epoch tt w)))).
Proof.
  intros Hcond Hpfx. unfold run_epoch. rewrite Hcond.
  destruct (nb_batches cfg) as [n|y]; [|discriminate].
  rewrite (bind_ok (lift (Ok n)) _ w _ _ _ eq_refl).
  destruct (train_gan K cfg epoch n w) as [l w1 [loc|y]] eqn:Hgan.
  - rewrite (bind_ok _ _ _ _ _ _ Hgan).
    destruct (save_checkpoint_run cfg epoch w1 Hpfx) as (w2 & Hsave & Hm & Hg & Hd).
    rewrite Hsave. cbn [prepend world]. rewrite Hm. intros _. split; assumption.
  - rewrite (bind_raise _ _ _ _ _ _ Hgan). discriminate.
Qed.

End LastEpoch.

(** X14.  A run that completes leaves its final weights on disk: when the
    epoch loop returns (at least one epoch, on a worker that saves, with
    distinct prefixes for the two networks), the directory holds the files
    ['{g_pfx}{epoch:04d}_{rank:03d}.weights'] and
    ['{d_pfx}{epoch:04d}_{rank:03d}.weights'] of the last epoch
    [nb_epochs + last_epoch], and their contents are the weights the
    generator and the discriminator have at the end of the run. *)
Theorem last_checkpoint_holds_final_weights (K : Collaborators) (cfg : Config)
        (last_epoch : Z) (w : World) :
  0 < nb_epochs cfg ->
  hvd_rank cfg = 0 \/ process0 cfg = false ->
  g_pfx cfg <> d_pfx cfg ->
  res (run_epochs K cfg last_epoch w) = Ok tt ->
  stored (files (world (run_epochs K cfg last_epoch w)))
         (checkpoint_name (g_pfx cfg) (nb_epochs cfg + last_epoch) (hvd_rank cfg) ".weights")
         (generator_weights (models (world (run_epochs K cfg last_epoch w)))) /\
  stored (files (world (run_epochs K cfg last_epoch w)))
         (checkpoint_name (d_pfx cfg) (nb_epochs cfg + last_epoch) (hvd_rank cfg) ".weights")
         (discriminator_weights (models (world (run_epochs K cfg last_epoch w)))).
Proof.
  intros Hep Hrank Hpfx. unfold run_epochs.
  destruct (epochs_last cfg last_epoch Hep) as (init & ->).
  rewrite for_each_snoc. intros Hres.
  apply bind_inv_ok in Hres as ([] & _ & Hworld & Hlast). rewrite Hworld.
  apply run_epoch_saved; [|exact Hpfx | exact Hlast].
  rewrite Z.eqb_refl, orb_true_r, andb_true_r.
  destruct Hrank as [-> | ->]; [reflexivity | apply orb_true_r].
Qed.

Lemma last_checkpoint_holds_final_weights_witness :
  stored (files (world (run_epochs Scenario.collaborators (Examples.fresh 2 4 1) (-1)
                          (Scenario.world []))))
         "params_generator_epoch_0001_000.weights" [].
Proof.
  destruct (last_checkpoint_holds_final_weights Scenario.collaborators
              (Examples.fresh 2 4 1) (-1) (Scenario.world [])) as (Hg & _).
  - reflexivity.
  - left. reflexivity.
  - discriminate.
  - vm_compute. reflexivity.
  - exact Hg.
Defined.

(** ** Saving, then restoring *)

(** X15.  A checkpoint round trip: after [save_checkpoint] for epoch [e]
    (lines 737-757), a process that finds the directory as it was left and
    restores epoch [e] without averaging (lines 645-666, coefficient 0) ends
    with the generator and discriminator weights that the saving process
    held, whatever its own weights were before.  The two prefixes must
    differ, the worker must read the rank it wrote, and the two file names
    must match themselves as [glob] patterns. *)
Theorem checkpoint_round_trip (K : Collaborators) (cfg : Config) (e0 e : Z)
        (w w2 : World) :
  g_pfx cfg <> d_pfx cfg ->
  hvd_rank cfg = 0 \/ process0 cfg = false ->
  weights_averaging_coeff cfg = 0%Qc ->
  fnmatch K (checkpoint_name (g_pfx cfg) e (hvd_rank cfg) ".weights")
            (checkpoint_name (g_pfx cfg) e (hvd_rank cfg) ".weights") = true ->
  fnmatch K (checkpoint_name (d_pfx cfg) e (hvd_rank cfg) ".weights")
            (checkpoint_name (d_pfx cfg) e (hvd_rank cfg) ".weights") = true ->
  files w2 = files (world (save_checkpoint cfg e w)) ->
  (if load_model cfg then Ok e0
   else get_last_epoch K (files w2) (d_pfx cfg +:+ "*.weights")) = Ok e ->
  exists w',
    restore_weights K cfg e0 w2 = mkOutcome [] w' (Ok e) /\
    generator_weights (models w') = generator_weights (models w) /\
    discriminator_weights (models w') = discriminator_weights (models w).
Proof.
  intros Hpfx Hrank Hcoeff Hmg Hmd Hfiles Htarget.
  destruct (save_checkpoint_run cfg e w Hpfx) as (w1 & Hsave & _ & Hg & Hd).
  rewrite Hsave in Hfiles. cbn [world] in Hfiles. rewrite <- Hfiles in Hg, Hd.
  assert (Hload : rank_to_load cfg = hvd_rank cfg).
  { unfold rank_to_load. destruct Hrank as [-> | ->]; [destruct (process0 cfg)|];
      reflexivity. }
  destruct (restore_weights_run K cfg e0 e w2 Htarget) as (w' & Hrun & Hgen & Hdisc).
  - rewrite Hload. apply (stored_present K _ _ _ Hmg Hg).
  - rewrite Hload. apply (stored_present K _ _ _ Hmd Hd).
  - intros Hne. congruence.
  - exists w'. split; [exact Hrun|].
    rewrite Hgen, Hdisc, Hload, Hcoeff.
    rewrite bool_decide_eq_true_2 by reflexivity.
    rewrite (stored_checkpointed _ _ _ Hg), (stored_checkpointed _ _ _ Hd).
    split; reflexivity.
Qed.

Lemma checkpoint_round_trip_witness :
  exists w',
    restore_weights Scenario.collaborators
      (Examples.config 1 4 1 false false true false true false 0%Qc 0 1) 0
      (mkWorld Scenario.no_models
         (files (world (save_checkpoint
                          (Examples.config 1 4 1 false false true false true false 0%Qc 0 1)
                          5
                          (mkWorld (mkModels Scenario.generator_0 Scenario.discriminator_0
                                             [] [] [])
                                   [] 0 0 Globals.initial))))
         7 0 Globals.initial)
    = mkOutcome [] w' (Ok 5) /\
    generator_weights (models w') = Scenario.generator_0 /\
    discriminator_weights (models w') = Scenario.discriminator_0.
Proof.
  apply (checkpoint_round_trip Scenario.collaborators
           (Examples.config 1 4 1 false false true false true false 0%Qc 0 1) 0 5
           (mkWorld (mkModels Scenario.generator_0 Scenario.discriminator_0 [] [] [])
                    [] 0 0 Globals.initial)).
  - discriminate.
  - left. reflexivity.
  - reflexivity.
  - vm_compute. reflexivity.
  - vm_compute. reflexivity.
  - reflexivity.
  - vm_compute. reflexivity.
Defined.

(** ** Resuming without a checkpoint *)

Lemma getLastEpoch_none (K : Collaborators) (mask : string) (w : World) :
  glob_entries K (files w) mask = [] ->
  getLastEpoch K mask w = mkOutcome [] w (Ok (-1)).
Proof. intros Hglob. unfold getLastEpoch, get_last_epoch. rewrite Hglob. reflexivity. Qed.

(** X16.  A resume that finds no checkpoint is a silent fresh start.  With
    [load_model], when no combined-optimizer file of the rank matches, and
    with [load_weights] alone, when no discriminator weights file of the
    rank matches, [last_epoch] stays -1: nothing is loaded (with
    [load_model] not even weights files that are there), no exception is
    raised, no model is called, and the script goes on as if no flag had been
    given, training epochs [0 .. nb_epochs - 1]. *)
Theorem resume_without_checkpoint (K : Collaborators) (cfg : Config) (w : World) :
  (load_model cfg = true ->
   glob_entries K (files w)
     (checkpoint_mask (c_pfx cfg) (rank_to_load cfg) ".optimizer") = []) ->
  (load_model cfg = false -> load_weights cfg = true ->
   glob_entries K (files w)
     (checkpoint_mask (d_pfx cfg) (rank_to_load cfg) ".weights") = []) ->
  resume K cfg w = mkOutcome [] w (Ok (-1)) /\
  main K cfg w = (update_models (on_train_begin K) ;;; run_epochs K cfg (-1)) w.
Proof.
  intros Hopt Hweights.
  assert (Hresume : resume K cfg w = mkOutcome [] w (Ok (-1))).
  { unfold resume. cbv zeta. destruct (load_model cfg) eqn:Hlm.
    - rewrite (bind_ok _ _ _ _ _ _ (getLastEpoch_none K _ w (Hopt eq_refl))).
      rewrite andb_false_r. destruct (load_weights cfg); reflexivity.
    - rewrite (bind_ok (ret (-1)) _ w _ _ _ eq_refl). cbn [andb].
      rewrite (bind_ok (ret tt) _ w _ _ _ eq_refl).
      destruct (load_weights cfg) eqn:Hlw; [|reflexivity].
      cbn [andb negb].
      rewrite (bind_ok _ _ _ _ _ _ (getLastEpoch_none K _ w (Hweights eq_refl eq_refl))).
      reflexivity. }
  split; [exact Hresume|].
  unfold main. rewrite (bind_ok _ _ _ _ _ _ Hresume).
  cbn [prepend app]. symmetry. apply outcome_eta.
Qed.

Lemma resume_without_checkpoint_witness :
  resume Scenario.collaborators
    (Examples.config 1 4 1 true false true false true false 0%Qc 0 1)
    (Scenario.world Scenario.two_workers)
  = mkOutcome [] (Scenario.world Scenario.two_workers) (Ok (-1)).
Proof.
  apply (resume_without_checkpoint Scenario.collaborators
           (Examples.config 1 4 1 true false true false true false 0%Qc 0 1)
           (Scenario.world Scenario.two_workers)).
  - intros _. vm_compute. reflexivity.
  - discriminate.
Defined.

(** ** What a restore leaves in the directory *)

Lemma bind_keeps_ok {X A B} (f : World -> X) (m : M A) (k : A -> M B) (w : World) (b : B) :
  keeps f m -> res (bind m k w) = Ok b ->
  exists a w1,
    f w1 = f w /\ world (bind m k w) = world (k a w1) /\ res (k a w1) = Ok b.
Proof.
  intros Hkeep Hres. apply bind_inv_ok in Hres as (a & _ & Hworld & Hres).
  exists a, (world (m w)). split; [apply Hkeep|]. split; assumption.
Qed.

Lemma glob_after_rm_rf (K : Collaborators) (mask : string) (dir : list File) :
  glob_entries K (filter (fun f => ~ Is_true (fnmatch K mask (path f))) dir) mask = [].
Proof.
  unfold glob_entries. induction dir as [|f dir IH]; [reflexivity|].
  rewrite (filter_cons (fun f => ~ Is_true (fnmatch K mask (path f)))).
  destruct (decide (~ Is_true (fnmatch K mask (path f)))) as [Hno|Hyes]; [|exact IH].
  rewrite filter_cons. destruct (decide (Is_true (fnmatch K mask (path f)))); [|exact IH].
  contradiction.
Qed.

Section Cleanup.
Context (K : Collaborators) (cfg : Config).

Lemma keeps_files_load_artifact what name set : keeps files (load_artifact K what name set).
Proof. repeat keeps_step. Qed.

Lemma keeps_files_average_network what pfx e get set :
  keeps files (average_network K cfg what pfx e get set).
Proof. repeat keeps_step. Qed.

(** The directory after lines 645-706. *)
Lemma restore_weights_files e0 e w :
  res (restore_weights K cfg e0 w) = Ok e ->
  files (world (restore_weights K cfg e0 w))
  = if no_delete cfg then files w
    else filter (fun f => ~ Is_true (fnmatch K "*.weights" (path f))) (files w).
Proof.
  unfold restore_weights. intros Hres.
  apply (bind_keeps_ok files) in Hres as (le & w1 & Hf1 & -> & Hres);
    [|repeat keeps_step].
  apply (bind_keeps_ok files) in Hres as ([] & w2 & Hf2 & -> & Hres);
    [|apply keeps_files_load_artifact].
  apply (bind_keeps_ok files) in Hres as ([] & w3 & Hf3 & -> & Hres);
    [|apply keeps_files_load_artifact].
  apply (bind_keeps_ok files) in Hres as ([] & w4 & Hf4 & -> & _).
  2:{ destruct (bool_decide _); [apply keeps_ret|].
      apply keeps_bind; [|intros ?]; apply keeps_files_average_network. }
  assert (Hf : files w4 = files w) by congruence.
  destruct (no_delete cfg); cbn [bind ret rm_rf res world files set_files]; rewrite Hf;
    reflexivity.
Qed.

(** The directory after lines 604-637. *)
Lemma restore_optimizer_states_files e w :
  res (restore_optimizer_states K cfg e w) = Ok tt ->
  files (world (restore_optimizer_states K cfg e w))
  = if no_delete cfg then files w
    else filter (fun f => ~ Is_true (fnmatch K "*.optimizer" (path f))) (files w).
Proof.
  unfold restore_optimizer_states. intros Hres.
  apply (bind_keeps_ok files) in Hres as (loc & w1 & Hf1 & -> & Hres);
    [|apply keeps_files_train_gan].
  apply (bind_keeps_ok files) in Hres as ([] & w2 & Hf2 & -> & Hres);
    [|apply keeps_files_load_artifact].
  apply (bind_keeps_ok files) in Hres as ([] & w3 & Hf3 & -> & Hres);
    [|apply keeps_files_load_artifact].
  apply (bind_keeps_ok files) in Hres as ([] & w4 & Hf4 & -> & _);
    [|apply keeps_files_load_artifact].
  assert (Hf : files w4 = files w) by congruence.
  destruct (no_delete cfg); cbn [ret rm_rf res world files set_files]; rewrite Hf;
    reflexivity.
Qed.

End Cleanup.

(** X17.  A successful restore consumes the checkpoints unless
    [no_delete] is set: after the weights block (lines 645-706) has
    returned, the directory is the one before without the files matching
    ["*.weights"], of every epoch and every rank, and likewise without the
    files matching ["*.optimizer"] after the optimizer block (lines
    604-637); no file of either kind is found any more.  With [no_delete]
    the directory is unchanged. *)
Theorem restore_consumes_checkpoints (K : Collaborators) (cfg : Config) (w : World) :
  (forall e0 e,
      res (restore_weights K cfg e0 w) = Ok e ->
      (no_delete cfg = true -> files (world (restore_weights K cfg e0 w)) = files w) /\
      (no_delete cfg = false ->
       files (world (restore_weights K cfg e0 w))
       = filter (fun f => ~ Is_true (fnmatch K "*.weights" (path f))) (files w) /\
       glob_entries K (files (world (restore_weights K cfg e0 w))) "*.weights" = [])) /\
  (forall e,
      res (restore_optimizer_states K cfg e w) = Ok tt ->
      (no_delete cfg = true ->
       files (world (restore_optimizer_states K cfg e w)) = files w) /\
      (no_delete cfg = false ->
       files (world (restore_optimizer_states K cfg e w))
       = filter (fun f => ~ Is_true (fnmatch K "*.optimizer" (path f))) (files w) /\
       glob_entries K (files (world (restore_optimizer_states K cfg e w))) "*.optimizer"
       = [])).
Proof.
  split.
  - intros e0 e Hres. rewrite (restore_weights_files K cfg e0 e w Hres).
    split; intros ->; [reflexivity|]. split; [reflexivity | apply glob_after_rm_rf].
  - intros e Hres. rewrite (restore_optimizer_states_files K cfg e w Hres).
    split; intros ->; [reflexivity|]. split; [reflexivity | apply glob_after_rm_rf].
Qed.

Lemma restore_consumes_checkpoints_witness :
  map path
    (files (world (restore_weights Scenario.collaborators
                     (Examples.config 1 4 1 false false true false false false 0%Qc 0 2) 3
                     (Scenario.world
                        (Scenario.two_workers ++ [mkFile "notes.txt" 9 []])))))
  = ["notes.txt"].
Proof.
  destruct (restore_consumes_checkpoints Scenario.collaborators
              (Examples.config 1 4 1 false false true false false false 0%Qc 0 2)
              (Scenario.world (Scenario.two_workers ++ [mkFile "notes.txt" 9 []])))
    as (H & _).
  destruct (H 3 3) as (_ & Hdel).
  - vm_compute. reflexivity.
  - destruct (Hdel eq_refl) as (-> & _). vm_compute. reflexivity.
Defined.

(** ** The blend for any coefficient *)



Section Blend.
Context (K : Collaborators) (cfg : Config).


End Blend.



(** ** Runs that complete *)

Lemma save_checkpoint_outcome (cfg : Config) (e : Z) (w : World) :
  exists w',
    save_checkpoint cfg e w = mkOutcome [] w' (Ok tt) /\ globals w' = globals w.
Proof.
  exists (world (save_checkpoint cfg e w)).
  destruct (quiet_save_checkpoint cfg e w) as (Hlog & Hglobals).
  split; [|exact Hglobals].
  rewrite (outcome_eta (save_checkpoint cfg e w)) at 1.
  rewrite Hlog, save_checkpoint_returns. reflexivity.
Qed.

Section FreshRun.
Context (K : Collaborators) (cfg : Config) (kd kc : nat) (n : Z).
Hypothesis Hbs : 0 <= batch_size cfg.
Hypothesis Hls : 0 <= latent_size cfg.
Hypothesis Hcl : 0 < nb_classes cfg.
Hypothesis Hpasses : 0 < train_gen_per_epoch cfg.
Hypothesis Hkd0 : (0 < kd)%nat.
Hypothesis Hkc0 : (0 < kc)%nat.
Hypothesis Hkd : forall m x y sw, length (snd (discriminator_step K m x y sw)) = kd.
Hypothesis Hkc : forall m x y sw, length (snd (combined_step K m x y sw)) = kc.
Hypothesis Hnb : nb_batches cfg = Ok n.
Hypothesis Hn : 0 < n.

Lemma calls_of_steps_app (s1 s2 : nat) (l1 l2 : list call) :
  calls_of_steps cfg s1 l1 -> calls_of_steps cfg s2 l2 -> calls_of_steps cfg (s1 + s2) (l1 ++ l2).
Proof.
  unfold calls_of_steps, discriminator_calls, count_calls.
  intros (Hp1 & Hd1 & Hg1) (Hp2 & Hd2 & Hg2).
  rewrite !List.filter_app, !length_app, Hp1, Hp2, Hd1, Hd2, Hg1, Hg2.
  repeat split; lia.
Qed.

(** One epoch of the loop, gate open. *)
Lemma run_epoch_completes last_epoch epoch w :
  gate_open cfg (Globals.last_epoch_gen_loss (globals w)) epoch = true ->
  exists l w',
    run_epoch K cfg last_epoch epoch tt w = mkOutcome l w' (Ok tt) /\
    globals w' = globals w /\ calls_of_steps cfg (Z.to_nat n) l.
Proof.
  intros Hgate. unfold run_epoch. rewrite Hnb.
  rewrite (bind_ok (lift (Ok n)) _ w _ _ _ eq_refl).
  destruct (open_steps_run K cfg epoch (range n) Locals.initial w Hbs Hls Hcl Hgate)
    as (l & w1 & loc & Hrun & Hg1 & _ & Hp & Hd & Hg).
  destruct (train_gan_after_steps K cfg kd kc Hkd Hkc Hpasses epoch n w l w1 loc
              Hkd0 Hkc0 Hn Hrun) as (d & g & Hgan & _).
  rewrite (bind_ok _ _ _ _ _ _ Hgan). rewrite range_length in Hp, Hd, Hg.
  assert (Hend : exists w2,
             (if ((hvd_rank cfg =? 0) || negb (process0 cfg))
                 && (save_all_epochs cfg || (epoch =? nb_epochs cfg + last_epoch))
              then save_checkpoint cfg epoch else ret tt) w1
             = mkOutcome [] w2 (Ok tt) /\ globals w2 = globals w1).
  { destruct (_ && _); [apply save_checkpoint_outcome|].
    exists w1. split; reflexivity. }
  destruct Hend as (w2 & -> & Hg2).
  exists l, w2. cbn [prepend log world res]. rewrite app_nil_r.
  split; [reflexivity|]. split; [congruence|]. repeat split; assumption.
Qed.

(** The epochs of the loop, from a state in which no loss is recorded. *)
Lemma run_epochs_complete last_epoch (es : list Z) w :
  Globals.last_epoch_gen_loss (globals w) = None ->
  exists l w',
    for_each es (run_epoch K cfg last_epoch) tt w = mkOutcome l w' (Ok tt) /\
    calls_of_steps cfg (length es * Z.to_nat n) l.
Proof.
  revert w. induction es as [|epoch es IH]; intros w Hnone; cbn [for_each].
  - exists [], w. split; [reflexivity|]. repeat split.
  - destruct (run_epoch_completes last_epoch epoch w) as (l1 & w1 & Hrun & Hg & Hcalls).
    { rewrite Hnone. reflexivity. }
    rewrite (bind_ok _ _ _ _ _ _ Hrun).
    destruct (IH w1) as (l2 & w2 & Hrun2 & Hcalls2); [rewrite Hg; exact Hnone|].
    rewrite Hrun2. exists (l1 ++ l2), w2. split; [reflexivity|].
    apply (calls_of_steps_app _ _ _ _ Hcalls Hcalls2).
Qed.

End FreshRun.

(** X19.  A run from scratch completes, and its calls are counted by the
    sizes alone: without resume flags, from a state where no generator loss
    is recorded, with draws that succeed, [train_gen_per_epoch >= 1], at
    least one batch per epoch and models that report loss vectors of fixed
    non-zero lengths, the script returns normally after
    [nb_epochs * nb_batches] training steps: that many predictions, twice as
    many discriminator updates and [2 * train_gen_per_epoch] times as many
    generator updates. *)
Theorem fresh_run_completes (K : Collaborators) (cfg : Config) (kd kc : nat)
        (n : Z) (w : World) :
  0 <= batch_size cfg -> 0 <= latent_size cfg -> 0 < nb_classes cfg ->
  0 < train_gen_per_epoch cfg ->
  (0 < kd)%nat -> (0 < kc)%nat ->
  (forall m x y sw, length (snd (discriminator_step K m x y sw)) = kd) ->
  (forall m x y sw, length (snd (combined_step K m x y sw)) = kc) ->
  nb_batches cfg = Ok n -> 0 < n ->
  load_model cfg = false -> load_weights cfg = false ->
  Globals.last_epoch_gen_loss (globals w) = None ->
  res (main K cfg w) = Ok tt /\
  count_calls is_predict_call (log (main K cfg w))
  = (Z.to_nat (nb_epochs cfg) * Z.to_nat n)%nat /\
  length (discriminator_calls (log (main K cfg w)))
  = (2 * (Z.to_nat (nb_epochs cfg) * Z.to_nat n))%nat /\
  count_calls is_generator_call (log (main K cfg w))
  = (Z.to_nat (nb_epochs cfg) * Z.to_nat n
     * (1 + Z.to_nat (2 * train_gen_per_epoch cfg)))%nat.
Proof.
  intros Hbs Hls Hcl Hpasses Hkd0 Hkc0 Hkd Hkc Hnb Hn Hlm Hlw Hnone.
  unfold main. rewrite (bind_ok _ _ _ _ _ _ (resume_off K cfg w Hlm Hlw)).
  rewrite (bind_ok (update_models _) _ w _ _ _ eq_refl).
  unfold run_epochs.
  destruct (run_epochs_complete K cfg kd kc n Hbs Hls Hcl Hpasses Hkd0 Hkc0 Hkd Hkc
              Hnb Hn (-1) (epochs cfg (-1))
              (set_models w (on_train_begin K (models w))) Hnone)
    as (l & w' & -> & Hp & Hd & Hg).
  cbn [prepend log res app].
  assert (Hlen : length (epochs cfg (-1)) = Z.to_nat (nb_epochs cfg)).
  { unfold epochs. rewrite length_map. apply range_length. }
  rewrite Hlen in Hp, Hd, Hg. repeat split; assumption.
Qed.

Lemma fresh_run_completes_witness :
  res (main Scenario.collaborators (Examples.fresh 12 2 3) (Scenario.world [])) = Ok tt /\
  count_calls is_generator_call
    (log (main Scenario.collaborators (Examples.fresh 12 2 3) (Scenario.world [])))
  = 336%nat.
Proof.
  destruct (fresh_run_completes Scenario.collaborators (Examples.fresh 12 2 3) 4 4 4
              (Scenario.world [])) as (Hres & _ & _ & Hg).
  - vm_compute. discriminate.
  - vm_compute. discriminate.
  - reflexivity.
  - reflexivity.
  - lia.
  - lia.
  - intros. reflexivity.
  - intros. reflexivity.
  - reflexivity.
  - reflexivity.
  - reflexivity.
  - reflexivity.
  - reflexivity.
  - split; [exact Hres | exact Hg].
Defined.

(** ** A resume that restores optimizer states and weights *)

Section FullResume.
Context (K : Collaborators) (cfg : Config).

Lemma keeps_optimizer_states_restore_weights e :
  keeps optimizer_states (restore_weights K cfg e).
Proof. repeat keeps_step. Qed.

(** Lines 604-637 when the three files are there and the warm-up epoch
    returns. *)
Lemma restore_optimizer_states_run e w loc :
  res (train_gan K cfg 0 1 w) = Ok loc ->
  Forall (present K (files w)) (optimizer_artifacts cfg e) ->
  exists w',
    restore_optimizer_states K cfg e w
    = mkOutcome (log (train_gan K cfg 0 1 w)) w' (Ok tt) /\
    optimizer_states w'
    = (checkpointed (files w)
         (checkpoint_name (g_pfx cfg) e (rank_to_load cfg) ".optimizer"),
       checkpointed (files w)
         (checkpoint_name (d_pfx cfg) e (rank_to_load cfg) ".optimizer"),
       checkpointed (files w)
         (checkpoint_name (c_pfx cfg) e (rank_to_load cfg) ".optimizer")) /\
    files w' = after_optimizer_cleanup K cfg (files w).
Proof.
  intros Htrain Hall. unfold optimizer_artifacts in Hall.
  apply Forall_cons_1 in Hall as (Hg & Hall).
  apply Forall_cons_1 in Hall as (Hd & Hall).
  apply Forall_cons_1 in Hall as (Hc & _).
  pose proof (keeps_files_train_gan K cfg 0 1 w) as Hfiles.
  destruct (train_gan K cfg 0 1 w) as [l w1 r] eqn:Hgan.
  cbn [res world log] in *. subst r.
  unfold restore_optimizer_states. rewrite (bind_ok _ _ _ _ _ _ Hgan).
  rewrite <- Hfiles in Hg, Hd, Hc.
  destruct (load_artifact_found K "Generator optimizer state file " _
              set_generator_optimizer w1 Hg) as (fg & Hfg & Hload1).
  rewrite (bind_ok _ _ _ _ _ _ Hload1).
  set (w2 := set_models w1 (set_generator_optimizer (content fg) (models w1))).
  destruct (load_artifact_found K "Discriminator optimizer state file " _
              set_discriminator_optimizer w2 Hd) as (fd & Hfd & Hload2).
  rewrite (bind_ok _ _ _ _ _ _ Hload2).
  set (w3 := set_models w2 (set_discriminator_optimizer (content fd) (models w2))).
  destruct (load_artifact_found K "Combined optimizer state file " _
              set_combined_optimizer w3 Hc) as (fc & Hfc & Hload3).
  rewrite (bind_ok _ _ _ _ _ _ Hload3).
  set (w4 := set_models w3 (set_combined_optimizer (content fc) (models w3))).
  change (files w2) with (files w1) in Hfd. change (files w3) with (files w1) in Hfc.
  rewrite Hfiles in Hfg, Hfd, Hfc.
  rewrite <- (checkpointed_found _ _ _ Hfg), <- (checkpointed_found _ _ _ Hfd),
          <- (checkpointed_found _ _ _ Hfc).
  unfold after_optimizer_cleanup. rewrite <- Hfiles.
  destruct (no_delete cfg); eexists; cbn [prepend ret rm_rf log world res app];
    rewrite app_nil_r; (split; [reflexivity|]); split; reflexivity.
Qed.

End FullResume.

(** X20.  A resume with [load_model] leaves in the models exactly what the
    files hold.  When the newest combined-optimizer file of the rank names
    epoch [e > -1], the warm-up call [train_gan(0, 1)] returns, the three
    optimizer files of epoch [e] are found, and the two weights files are
    found once the optimizer files have been dealt with (removed unless
    [no_delete]), then with averaging coefficient 0 the resume returns [e];
    its only calls on the models are those of the warm-up step; the three
    optimizer states and the generator and discriminator weights are the
    contents of the five files: nothing of what the warm-up step has trained
    survives. *)
Theorem resume_restores_state (K : Collaborators) (cfg : Config) (e : Z)
        (loc : Locals.t) (w : World) :
  load_model cfg = true ->
  get_last_epoch K (files w)
    (checkpoint_mask (c_pfx cfg) (rank_to_load cfg) ".optimizer") = Ok e ->
  -1 < e ->
  res (train_gan K cfg 0 1 w) = Ok loc ->
  Forall (present K (files w)) (optimizer_artifacts cfg e) ->
  Forall (present K (after_optimizer_cleanup K cfg (files w))) (weights_artifacts cfg e) ->
  weights_averaging_coeff cfg = 0%Qc ->
  exists w',
    resume K cfg w = mkOutcome (log (train_gan K cfg 0 1 w)) w' (Ok e) /\
    models w'
    = mkModels
        (checkpointed (after_optimizer_cleanup K cfg (files w))
           (checkpoint_name (g_pfx cfg) e (rank_to_load cfg) ".weights"))
        (checkpointed (after_optimizer_cleanup K cfg (files w))
           (checkpoint_name (d_pfx cfg) e (rank_to_load cfg) ".weights"))
        (checkpointed (files w)
           (checkpoint_name (g_pfx cfg) e (rank_to_load cfg) ".optimizer"))
        (checkpointed (files w)
           (checkpoint_name (d_pfx cfg) e (rank_to_load cfg) ".optimizer"))
        (checkpointed (files w)
           (checkpoint_name (c_pfx cfg) e (rank_to_load cfg) ".optimizer")).
Proof.
  intros Hlm Hge He Htrain Hopt Hweights Hcoeff.
  destruct (restore_optimizer_states_run K cfg e w loc Htrain Hopt)
    as (w1 & Hrun1 & Hstates1 & Hfiles1).
  unfold weights_artifacts in Hweights.
  apply Forall_cons_1 in Hweights as (Hg & Hweights).
  apply Forall_cons_1 in Hweights as (Hd & _).
  rewrite <- Hfiles1 in Hg, Hd.
  destruct (restore_weights_run K cfg e e w1) as (w2 & Hrun2 & Hgen & Hdisc);
    [rewrite Hlm; reflexivity | exact Hg | exact Hd | intros Hne; congruence |].
  rewrite bool_decide_eq_true_2 in Hgen, Hdisc by exact Hcoeff.
  pose proof (keeps_optimizer_states_restore_weights K cfg e w1) as Hkeep.
  rewrite Hrun2 in Hkeep. cbn [world] in Hkeep. rewrite Hstates1 in Hkeep.
  exists w2. split.
  - unfold resume. cbv zeta. rewrite Hlm.
    assert (Hfirst : getLastEpoch K
              (checkpoint_mask (c_pfx cfg) (rank_to_load cfg) ".optimizer") w
            = mkOutcome [] w (Ok e)).
    { unfold getLastEpoch. rewrite Hge. reflexivity. }
    assert (Hlt : (-1 <? e) = true) by (apply Z.ltb_lt; exact He).
    rewrite (bind_ok _ _ _ _ _ _ Hfirst). cbv beta. rewrite Hlt.
    cbn [andb]. rewrite (bind_ok _ _ _ _ _ _ Hrun1).
    rewrite andb_false_r. rewrite (bind_ok (ret e) _ w1 _ _ _ eq_refl).
    cbv beta. rewrite orb_true_r, Hlt. cbn [andb]. rewrite Hrun2.
    cbn [prepend log world res app]. rewrite !app_nil_r. reflexivity.
  - rewrite <- Hfiles1, <- Hgen, <- Hdisc.
    unfold optimizer_states in Hkeep. injection Hkeep as <- <- <-.
    destruct (models w2). reflexivity.
Qed.

Lemma resume_restores_state_witness :
  exists w',
    resume Scenario.collaborators
      (Examples.config 1 4 1 true false false false false false 0%Qc 0 1)
      (Scenario.world full_checkpoint)
    = mkOutcome
        (log (train_gan Scenario.collaborators
                (Examples.config 1 4 1 true false false false false false 0%Qc 0 1)
                0 1 (Scenario.world full_checkpoint)))
        w' (Ok 2) /\
    models w'
    = mkModels Scenario.generator_0 Scenario.discriminator_0
               [[[Q2Qc 1]]] [[[Q2Qc 2]]] [[[Q2Qc 3]]].
Proof.
  destruct (res (train_gan Scenario.collaborators
                   (Examples.config 1 4 1 true false false false false false 0%Qc 0 1)
                   0 1 (Scenario.world full_checkpoint))) as [loc|x] eqn:Htrain;
    [|vm_compute in Htrain; discriminate Htrain].
  destruct (resume_restores_state Scenario.collaborators
              (Examples.config 1 4 1 true false false false false false 0%Qc 0 1)
              2 loc (Scenario.world full_checkpoint)) as (w' & Hrun & Hmodels).
  - reflexivity.
  - vm_compute. reflexivity.
  - lia.
  - exact Htrain.
  - repeat constructor; first [vm_compute; discriminate | eexists; vm_compute; reflexivity].
  - repeat constructor; first [vm_compute; discriminate | eexists; vm_compute; reflexivity].
  - reflexivity.
  - exists w'. split; [exact Hrun|]. rewrite Hmodels. vm_compute. reflexivity.
Defined.

(** ** The epoch of a weights-only resume *)

(** X21.  With [load_weights] alone the epoch is discovered twice (lines
    641 and 647): the newest discriminator weights file of the worker's own
    rank only decides whether there is a resume ([e1 > -1]); the epoch that
    is restored, returned and continued from is [e2], the one named by the
    newest discriminator weights file of any rank.  When the worker's files
    of epoch [e2] are there, the weights restored (coefficient 0) are theirs,
    also when [e1] is another epoch, and the epoch loop starts at
    [e2 + 1]. *)
Theorem weights_only_resume_epoch (K : Collaborators) (cfg : Config) (e1 e2 : Z)
        (w : World) :
  load_model cfg = false -> load_weights cfg = true ->
  get_last_epoch K (files w)
    (checkpoint_mask (d_pfx cfg) (rank_to_load cfg) ".weights") = Ok e1 ->
  -1 < e1 ->
  get_last_epoch K (files w) (d_pfx cfg +:+ "*.weights") = Ok e2 ->
  Forall (present K (files w)) (weights_artifacts cfg e2) ->
  weights_averaging_coeff cfg = 0%Qc ->
  exists w',
    resume K cfg w = mkOutcome [] w' (Ok e2) /\
    generator_weights (models w')
    = checkpointed (files w)
        (checkpoint_name (g_pfx cfg) e2 (rank_to_load cfg) ".weights") /\
    discriminator_weights (models w')
    = checkpointed (files w)
        (checkpoint_name (d_pfx cfg) e2 (rank_to_load cfg) ".weights") /\
    main K cfg w
    = (update_models (on_train_begin K) ;;; run_epochs K cfg e2) w'.
Proof.
  intros Hlm Hlw Hge1 He1 Hge2 Hfiles Hcoeff.
  unfold weights_artifacts in Hfiles.
  apply Forall_cons_1 in Hfiles as (Hg & Hfiles).
  apply Forall_cons_1 in Hfiles as (Hd & _).
  destruct (restore_weights_run K cfg e1 e2 w) as (w' & Hrun & Hgen & Hdisc);
    [rewrite Hlm; exact Hge2 | exact Hg | exact Hd | intros Hne; congruence |].
  rewrite bool_decide_eq_true_2 in Hgen, Hdisc by exact Hcoeff.
  assert (Hresume : resume K cfg w = mkOutcome [] w' (Ok e2)).
  { unfold resume. cbv zeta. rewrite Hlm, Hlw.
    rewrite (bind_ok (ret (-1)) _ w _ _ _ eq_refl). cbn [andb negb orb].
    rewrite (bind_ok (ret tt) _ w _ _ _ eq_refl).
    assert (Hfirst : getLastEpoch K
              (checkpoint_mask (d_pfx cfg) (rank_to_load cfg) ".weights") w
            = mkOutcome [] w (Ok e1)).
    { unfold getLastEpoch. rewrite Hge1. reflexivity. }
    rewrite (bind_ok _ _ _ _ _ _ Hfirst). cbv beta.
    replace (-1 <? e1) with true by (symmetry; apply Z.ltb_lt; exact He1).
    rewrite Hrun. reflexivity. }
  exists w'. split; [exact Hresume|]. split; [exact Hgen|]. split; [exact Hdisc|].
  unfold main. rewrite (bind_ok _ _ _ _ _ _ Hresume).
  cbn [prepend app]. symmetry. apply outcome_eta.
Qed.

Lemma weights_only_resume_epoch_witness :
  get_last_epoch Scenario.collaborators mixed_epochs
    "params_discriminator_epoch_*_000.weights" = Ok 3 /\
  exists w',
    resume Scenario.collaborators (Scenario.config_with 1 false true 0%Qc 2)
           (Scenario.world mixed_epochs)
    = mkOutcome [] w' (Ok 4) /\
    generator_weights (models w') = Scenario.generator_1.
Proof.
  split; [vm_compute; reflexivity|].
  destruct (weights_only_resume_epoch Scenario.collaborators
              (Scenario.config_with 1 false true 0%Qc 2) 3 4
              (Scenario.world mixed_epochs)) as (w' & Hrun & Hgen & _).
  - reflexivity.
  - reflexivity.
  - vm_compute. reflexivity.
  - lia.
  - vm_compute. reflexivity.
  - repeat constructor; first [vm_compute; discriminate | eexists; vm_compute; reflexivity].
  - reflexivity.
  - exists w'. split; [exact Hrun|]. rewrite Hgen. reflexivity.
Defined.

(** ** What the models are asked *)

Section Requests.
Context (K : Collaborators) (cfg : Config).

Hypothesis uniform_unit : forall i, (0 <= uniform_draw K i)%Qc /\ (uniform_draw K i < 1)%Qc.
Hypothesis randint_below :
  forall i high, 0 < high -> 0 <= randint_draw K i high < high.
Hypothesis data_labels : Forall (class_index cfg) (y cfg).

Lemma energy_range (u : Qc) :
  (0 <= u)%Qc -> (u < 1)%Qc ->
  (1 <= 1 + (Q2Qc 100 - 1) * u)%Qc /\ (1 + (Q2Qc 100 - 1) * u < Q2Qc 100)%Qc.
Proof.
  intros H0 H1. unfold Qcle, Qclt in *.
  cbn [this Qcplus Qcminus Qcmult Qcopp Q2Qc] in *.
  rewrite ?Qred_correct in *.
  split; lra.
Qed.

Lemma noise_shape rows cols :
  always (well_asked cfg)
         (fun v => length v = Z.to_nat rows /\
                   Forall (fun row => length row = Z.to_nat cols) v)
         (np_random_normal K rows cols).
Proof.
  unfold np_random_normal. destruct (_ || _); [apply always_raise|].
  intros w. split; [constructor|]. cbn [res]. intros v [= <-]. split.
  - rewrite length_map, length_seq. reflexivity.
  - apply List.Forall_forall. intros row Hrow. apply in_map_iff in Hrow as (i & <- & _).
    rewrite length_map, length_seq. reflexivity.
Qed.

Lemma energies_shape n :
  always (well_asked cfg)
         (fun v => length v = Z.to_nat n /\
                   Forall (fun row => exists x, row = [x] /\ (1 <= x)%Qc /\
                                                (x < Q2Qc 100)%Qc) v)
         (np_random_uniform_column K 1%Qc (Q2Qc 100) n).
Proof.
  unfold np_random_uniform_column, np_random_uniform.
  destruct (n <? 0); [intros w; split; [constructor | discriminate]|].
  intros w. split; [constructor|]. cbn [bind ret res world log].
  intros v [= <-]. split.
  - rewrite !length_map, length_seq. reflexivity.
  - apply List.Forall_forall. intros row Hrow.
    apply in_map_iff in Hrow as (x & <- & Hx).
    apply in_map_iff in Hx as (i & <- & _).
    eexists. split; [reflexivity|].
    apply energy_range; apply uniform_unit.
Qed.

Lemma labels_shape n :
  always (well_asked cfg)
         (fun v => length v = Z.to_nat n /\ Forall (class_index cfg) v)
         (np_random_randint K (nb_classes cfg) n).
Proof.
  unfold np_random_randint.
  destruct (nb_classes cfg <=? 0) eqn:Hhigh; [apply always_raise|].
  destruct (n <? 0); [apply always_raise|]. cbn [orb].
  apply Z.leb_gt in Hhigh.
  intros w. split; [constructor|]. cbn [res]. intros v [= <-]. split.
  - rewrite length_map, length_seq. reflexivity.
  - apply List.Forall_forall. intros l Hl. apply in_map_iff in Hl as (i & <- & _).
    apply randint_below, Hhigh.
Qed.

(** A flip of class indices gives class indices, when there are two
    classes at least. *)
Lemma flipped_labels x prob :
  acgan cfg = true -> Forall (class_index cfg) x ->
  always (well_asked cfg) (Forall (class_index cfg)) (bit_flip K x prob).
Proof.
  intros Hac Hx w.
  destruct (bit_flip_run K x prob w) as (u & w' & Hrun & _).
  rewrite Hrun. split; [constructor|]. cbn [res]. intros v [= <-].
  unfold acgan in Hac. apply Z.ltb_lt in Hac.
  unfold bit_flip_values. generalize (selection u prob). intros sel.
  assert (Hnot : forall l,
             Forall (class_index cfg) l -> Forall (class_index cfg) (map logical_not l)).
  { intros l Hl. apply List.Forall_forall. intros v Hv.
    apply in_map_iff in Hv as (v0 & <- & _). unfold class_index, logical_not.
    destruct (v0 =? 0); lia. }
  assert (Hassign : forall l s new,
             Forall (class_index cfg) l -> Forall (class_index cfg) new ->
             Forall (class_index cfg) (masked_assign l s new)).
  { intros l. induction l as [|v l IH]; intros s new Hl Hnew;
      [destruct s; constructor|].
    apply Forall_cons_1 in Hl as (Hv & Hl).
    destruct s as [|[] s]; cbn [masked_assign].
    - constructor; assumption.
    - destruct Hnew as [|n new Hn Hnew].
      + constructor; [exact Hv | apply IH; [exact Hl | constructor]].
      + constructor; [exact Hn | apply IH; assumption].
    - constructor; [exact Hv | apply IH; assumption]. }
  apply Hassign; [exact Hx|]. apply Hnot.
  clear -Hx. revert sel. induction Hx as [|v l Hv Hl IH]; intros [|[] sel];
    cbn [masked_select]; try constructor; auto.
Qed.

End Requests.

Section RequestsOfRun.
Context (K : Collaborators) (cfg : Config).
Hypothesis uniform_unit : forall i, (0 <= uniform_draw K i)%Qc /\ (uniform_draw K i < 1)%Qc.
Hypothesis randint_below :
  forall i high, 0 < high -> 0 <= randint_draw K i high < high.
Hypothesis data_labels : Forall (class_index cfg) (y cfg).

Let P := well_asked cfg.

Lemma asked_generator_predict x :
  well_formed_request cfg x -> always P (fun _ => True) (generator_predict K x).
Proof. intros Hx w. split; [repeat constructor; exact Hx | trivial]. Qed.

Lemma asked_discriminator x t sw :
  class_labels_valid cfg t ->
  always P (fun _ => True) (discriminator_train_on_batch K x t sw).
Proof. intros Ht w. split; [repeat constructor; exact Ht | trivial]. Qed.

Lemma asked_combined x t sw :
  well_formed_request cfg x -> class_labels_valid cfg t ->
  always P (fun _ => True) (combined_train_on_batch K x t sw).
Proof. intros Hx Ht w. split; [repeat constructor; assumption | trivial]. Qed.

Lemma no_labels (a b : ndarray) :
  (forall l, a <> Int1 l) -> (forall l, b <> Int1 l) -> class_labels_valid cfg [a; b].
Proof. intros Ha Hb l [H|[H|[]]]; [destruct (Ha l) | destruct (Hb l)]; congruence. Qed.

Lemma with_labels (a b : ndarray) (labels : list Z) :
  (forall l, a <> Int1 l) -> (forall l, b <> Int1 l) ->
  Forall (class_index cfg) labels ->
  class_labels_valid cfg ([a; b] ++ [Int1 labels]).
Proof.
  intros Ha Hb Hl l [H|[H|[H|[]]]];
    [destruct (Ha l); congruence | destruct (Hb l); congruence |].
  injection H as <-. exact Hl.
Qed.

Lemma asked_generator_update trick lw gl :
  always P (fun _ => True) (generator_update K cfg trick lw gl).
Proof.
  unfold generator_update. cbv zeta.
  eapply always_bind; [apply noise_shape | intros noise (Hn1 & Hn2)].
  eapply always_bind;
    [apply energies_shape, uniform_unit | intros energies (He1 & He2)].
  eapply always_bind
    with (Q := fun io => well_formed_request cfg (fst io) /\
                         class_labels_valid cfg (snd io)).
  - destruct (acgan cfg) eqn:Hac.
    + eapply always_bind; [apply labels_shape, randint_below | intros labels (Hl1 & Hl2)].
      apply always_ret. cbn [fst snd]. split.
      * exists noise, energies, labels. rewrite Hac. repeat split; assumption.
      * apply with_labels; [discriminate.. | exact Hl2].
    + apply always_ret. cbn [fst snd]. split.
      * exists noise, energies, []. rewrite Hac.
        repeat split; try assumption; discriminate.
      * apply no_labels; discriminate.
  - intros io (Hx & Ht).
    eapply always_bind with (Q := fun _ => True);
      [apply asked_combined; assumption | intros l _].
    apply always_ret. exact I.
Qed.

Lemma slice_labels (lo hi : Z) : Forall (class_index cfg) (slice (y cfg) lo hi).
Proof. unfold slice. apply Forall_take, Forall_drop, data_labels. Qed.

Lemma asked_train_step epoch index loc :
  always P (fun _ => True) (train_step K cfg epoch index loc).
Proof.
  unfold train_step. cbv zeta.
  eapply always_bind; [apply noise_shape | intros noise (Hn1 & Hn2)].
  eapply always_bind; [apply labels_shape, randint_below | intros labels (Hl1 & Hl2)].
  eapply always_bind;
    [apply energies_shape, uniform_unit | intros energies (He1 & He2)].
  eapply always_bind with (Q := fun _ => True).
  { apply asked_generator_predict. exists noise, energies, labels.
    repeat split; assumption. }
  intros generated _.
  eapply always_bind
    with (Q := fun t => class_labels_valid cfg (fst (fst t)) /\
                        class_labels_valid cfg (snd (fst t))).
  - destruct (acgan cfg) eqn:Hac.
    + eapply always_bind; [apply (flipped_labels K cfg _ _ Hac Hl2) | intros flipped Hf].
      apply always_ret. cbn [fst snd]. split.
      * apply with_labels; [discriminate.. | apply slice_labels].
      * apply with_labels; [discriminate.. | exact Hf].
    + apply always_ret. cbn [fst snd]. split; apply no_labels; discriminate.
  - intros targets (Hreal & Hfake).
    eapply always_bind with (Q := fun _ => True);
      [apply always_quiet; auto with quiet | intros g _].
    eapply always_bind with (Q := fun _ => True).
    { destruct (gate_open cfg _ epoch); [|apply always_ret; exact I].
      eapply always_bind with (Q := fun _ => True);
        [apply asked_discriminator, Hreal | intros ? _].
      eapply always_bind with (Q := fun _ => True);
        [apply asked_discriminator, Hfake | intros ? _].
      apply always_ret. exact I. }
    intros loc' _.
    eapply always_bind with (Q := fun _ => True);
      [destruct (Locals.fake_batch_loss loc'); [apply always_ret; exact I | apply always_raise]
      | intros fake _].
    eapply always_bind with (Q := fun _ => True);
      [destruct (Locals.real_batch_loss loc'); [apply always_ret; exact I | apply always_raise]
      | intros real _].
    eapply always_bind with (Q := fun _ => True).
    + apply always_for_each with (Q := fun _ => True); [|exact I].
      intros ? gl _. apply asked_generator_update.
    + intros gl _. apply always_ret. exact I.
Qed.

Hint Resolve asked_train_step : always.

Lemma asked_train_gan epoch n : always P (fun _ => True) (train_gan K cfg epoch n).
Proof. unfold train_gan. repeat always_step. Qed.

Hint Resolve asked_train_gan : always.

Lemma asked_main : always P (fun _ => True) (main K cfg).
Proof.
  unfold main, resume, restore_optimizer_states, run_epochs, run_epoch. cbv zeta.
  repeat always_step.
Qed.

End RequestsOfRun.

(** X22.  Whatever the run does, the models are asked well-formed
    questions.  With uniform draws in [0, 1), integer draws below their
    bound and class indices in the data, every [generator.predict] and every
    [combined.train_on_batch] of the whole script (warm-up step of a resume
    included) receives [batch_size] noise vectors of [latent_size] entries,
    [batch_size] requested energies in [1, 100) and, with several classes,
    [batch_size] class indices in [0, nb_classes); and every array of labels
    among the targets of a discriminator or generator update, the flipped
    labels of the fake batch included, holds class indices in
    [0, nb_classes). *)
Theorem run_asks_well (K : Collaborators) (cfg : Config) (w : World) :
  (forall i, (0 <= uniform_draw K i)%Qc /\ (uniform_draw K i < 1)%Qc) ->
  (forall i high, 0 < high -> 0 <= randint_draw K i high < high) ->
  Forall (class_index cfg) (y cfg) ->
  Forall (well_asked cfg) (log (main K cfg w)) /\
  (forall epoch n, Forall (well_asked cfg) (log (train_gan K cfg epoch n w))).
Proof.
  intros Hu Hr Hy. split.
  - apply (asked_main K cfg Hu Hr Hy w).
  - intros epoch n. apply (asked_train_gan K cfg Hu Hr Hy epoch n w).
Qed.

Lemma run_asks_well_witness :
  Forall (well_asked (Scenario.config 1))
         (log (main Scenario.collaborators (Scenario.config 1) (Scenario.world []))).
Proof.
  destruct (run_asks_well Scenario.collaborators (Scenario.config 1) (Scenario.world []))
    as (H & _).
  - intros i. split; [discriminate | reflexivity].
  - intros i high Hhigh. apply Z.mod_pos_bound. exact Hhigh.
  - unfold class_index.
    repeat (apply List.Forall_cons; [split; [discriminate | reflexivity]|]).
    apply List.Forall_nil.
  - exact H.
Defined.

(** ** Averaging needs the files of every worker *)

Lemma bind_for_each_app {A S B} (xs ys : list A) (body : A -> S -> M S) (s : S)
      (k : S -> M B) (w : World) :
  bind (for_each (xs ++ ys) body s) k w
  = bind (for_each xs body s) (fun s' => bind (for_each ys body s') k) w.
Proof.
  revert s w. induction xs as [|x xs IH]; intros s w; cbn [app for_each].
  - rewrite bind_ret_l. reflexivity.
  - rewrite !bind_assoc. apply bind_ext. intros s' w'. apply IH.
Qed.

Lemma range_split (size r : Z) :
  0 <= r < size ->
  exists after, range size = range r ++ r :: after.
Proof.
  intros Hr. unfold range.
  replace (Z.to_nat size) with (Z.to_nat r + S (Z.to_nat size - Z.to_nat r - 1))%nat by lia.
  rewrite seq_app, map_app. cbn [seq map plus]. rewrite Z2Nat.id by lia.
  eexists. reflexivity.
Qed.

Section AveragingFails.
Context (K : Collaborators) (cfg : Config).

(** The loop of lines 671-677 stops at the first rank whose file [glob]
    does not find. *)
Lemma average_network_missing what pfx e (get other : Models -> Weights)
      (set : Weights -> Models -> Models) (r : Z) w :
  (forall v m, get (set v m) = v) ->
  (forall v m, other (set v m) = other m) ->
  0 <= r < hvd_size cfg ->
  (forall r', 0 <= r' < r ->
              present K (files w) (checkpoint_name pfx e r' ".weights")) ->
  glob_entries K (files w) (checkpoint_name pfx e r ".weights") = [] ->
  exists w',
    average_network K cfg what pfx e get set w
    = mkOutcome [] w'
        (Raise (Exception (what +:+ checkpoint_name pfx e r ".weights" +:+ " not found"))) /\
    files w' = files w /\ other (models w') = other (models w).
Proof.
  intros Hget Hother Hr Hbefore Hmissing. unfold average_network.
  rewrite (bind_ok get_models _ w _ _ _ eq_refl). cbv zeta.
  destruct (range_split (hvd_size cfg) r Hr) as (after & ->).
  destruct (average_loop_run K what pfx e get other set (range r) [] w w
              Hget Hother eq_refl eq_refl) as (w1 & Hrun & Hfiles & Hframe).
  { intros r' Hr'. apply Hbefore, in_range, Hr'. }
  exists w1. split; [|split; assumption].
  rewrite bind_for_each_app, (bind_ok _ _ _ _ _ _ Hrun). cbv beta. cbn [for_each].
  rewrite <- Hfiles in Hmissing.
  rewrite !bind_assoc.
  rewrite (bind_raise _ _ _ _ _ _ (load_artifact_missing K what _ set w1 Hmissing)).
  reflexivity.
Qed.

End AveragingFails.

(** X23.  With a non-zero averaging coefficient the restore needs the
    weights files of every worker [0 .. size - 1] for the epoch, not only the
    worker's own: after the own files have been loaded, the first rank whose
    generator file [glob] does not find ends the restore with
    [Exception("Generator weights file <name> not found")]; when all the
    generator files are there, the first rank whose discriminator file is
    missing does, with a message that also starts with "Generator weights
    file" (line 692).  In particular checkpoints written under [process0]
    (rank 0 only) cannot be restored with averaging on several workers. *)
Theorem averaging_needs_every_rank (K : Collaborators) (cfg : Config)
        (e0 e r : Z) (w : World) :
  (if load_model cfg then Ok e0
   else get_last_epoch K (files w) (d_pfx cfg +:+ "*.weights")) = Ok e ->
  present K (files w) (checkpoint_name (g_pfx cfg) e (rank_to_load cfg) ".weights") ->
  present K (files w) (checkpoint_name (d_pfx cfg) e (rank_to_load cfg) ".weights") ->
  weights_averaging_coeff cfg <> 0%Qc ->
  0 <= r < hvd_size cfg ->
  ((forall r', 0 <= r' < r ->
      present K (files w) (checkpoint_name (g_pfx cfg) e r' ".weights")) ->
   glob_entries K (files w) (checkpoint_name (g_pfx cfg) e r ".weights") = [] ->
   log (restore_weights K cfg e0 w) = [] /\
   res (restore_weights K cfg e0 w)
   = Raise (Exception ("Generator weights file "
                       +:+ checkpoint_name (g_pfx cfg) e r ".weights"
                       +:+ " not found"))) /\
  ((forall r', 0 <= r' < hvd_size cfg ->
      present K (files w) (checkpoint_name (g_pfx cfg) e r' ".weights")) ->
   (forall r', 0 <= r' < r ->
      present K (files w) (checkpoint_name (d_pfx cfg) e r' ".weights")) ->
   glob_entries K (files w) (checkpoint_name (d_pfx cfg) e r ".weights") = [] ->
   log (restore_weights K cfg e0 w) = [] /\
   res (restore_weights K cfg e0 w)
   = Raise (Exception ("Generator weights file "
                       +:+ checkpoint_name (d_pfx cfg) e r ".weights"
                       +:+ " not found"))).
Proof.
  intros Htarget Hg Hd Hcoeff Hr. unfold restore_weights.
  assert (Hfirst : (if load_model cfg then ret e0
                    else getLastEpoch K (d_pfx cfg +:+ "*.weights")) w
                   = mkOutcome [] w (Ok e)).
  { destruct (load_model cfg).
    - injection Htarget as <-. reflexivity.
    - unfold getLastEpoch. rewrite Htarget. reflexivity. }
  rewrite (bind_ok _ _ _ _ _ _ Hfirst).
  destruct (load_artifact_found K "Generator weights file " _ set_generator_weights w Hg)
    as (fg & _ & Hload1).
  rewrite (bind_ok _ _ _ _ _ _ Hload1).
  set (w1 := set_models w (set_generator_weights (content fg) (models w))).
  destruct (load_artifact_found K "Generator weights file " _
              set_discriminator_weights w1 Hd) as (fd & _ & Hload2).
  rewrite (bind_ok _ _ _ _ _ _ Hload2).
  set (w2 := set_models w1 (set_discriminator_weights (content fd) (models w1))).
  rewrite (bool_decide_eq_false_2 _ Hcoeff).
  split.
  - intros Hbefore Hmissing.
    destruct (average_network_missing K cfg "Generator weights file " (g_pfx cfg) e
                generator_weights discriminator_weights set_generator_weights r w2)
      as (w3 & Hrun & _); [reflexivity | reflexivity | exact Hr | exact Hbefore
                           | exact Hmissing |].
    rewrite !bind_assoc, (bind_raise _ _ _ _ _ _ Hrun). split; reflexivity.
  - intros Hgen Hbefore Hmissing.
    destruct (average_network_run K cfg "Generator weights file " (g_pfx cfg) e
                generator_weights discriminator_weights set_generator_weights w2)
      as (w3 & Hrun3 & Hfiles3 & _); [reflexivity | reflexivity | exact Hgen |].
    destruct (average_network_missing K cfg "Generator weights file " (d_pfx cfg) e
                discriminator_weights generator_weights set_discriminator_weights r w3)
      as (w4 & Hrun4 & _);
      [reflexivity | reflexivity | exact Hr
       | intros r' Hr'; rewrite Hfiles3; apply Hbefore, Hr'
       | rewrite Hfiles3; exact Hmissing |].
    rewrite !bind_assoc, (bind_ok _ _ _ _ _ _ Hrun3).
    rewrite (bind_raise _ _ _ _ _ _ Hrun4). split; reflexivity.
Qed.

Lemma averaging_needs_every_rank_witness :
  res (restore_weights Scenario.collaborators
         (Scenario.config_with 1 false true 1%Qc 3) 3
         (Scenario.world Scenario.two_workers))
  = Raise (Exception
             "Generator weights file params_generator_epoch_0003_002.weights not found").
Proof.
  destruct (averaging_needs_every_rank Scenario.collaborators
              (Scenario.config_with 1 false true 1%Qc 3) 3 3 2
              (Scenario.world Scenario.two_workers)) as (Hgen & _).
  - vm_compute. reflexivity.
  - split; [vm_compute; discriminate | eexists; vm_compute; reflexivity].
  - split; [vm_compute; discriminate | eexists; vm_compute; reflexivity].
  - vm_compute. discriminate.
  - split; [lia | reflexivity].
  - destruct Hgen as (_ & Hres).
    + intros r Hr. assert (Hcases : r = 0 \/ r = 1) by lia.
      destruct Hcases as [-> | ->];
        (split; [vm_compute; discriminate | eexists; vm_compute; reflexivity]).
    + vm_compute. reflexivity.
    + exact Hres.
Defined.

(** ** Saving every epoch *)

Lemma has_file_write (name name' : string) (c : Weights) (w : World) :
  has_file (files w) name' \/ name' = name ->
  has_file (files (world (write_file name c w))) name'.
Proof.
  intros H. destruct (String.eqb_spec name' name) as [-> | Hne].
  - exists c. apply stored_write_same.
  - destruct H as [(c' & Hc') | Heq]; [|congruence].
    exists c'. apply stored_write_other; assumption.
Qed.

Section EveryEpoch.
Context (K : Collaborators) (cfg : Config).

(** No file disappears in the epoch loop. *)
Lemma has_file_save_checkpoint e name w :
  has_file (files w) name -> has_file (files (world (save_checkpoint cfg e w))) name.
Proof.
  intros H. unfold save_checkpoint.
  rewrite (bind_ok get_models _ w _ _ _ eq_refl). cbn [prepend world].
  destruct (save_model cfg); unfold bind; cbn [res world write_file ret];
    repeat (apply has_file_write; left); exact H.
Qed.

Lemma save_checkpoint_has_files e w :
  has_file (files (world (save_checkpoint cfg e w)))
           (checkpoint_name (g_pfx cfg) e (hvd_rank cfg) ".weights") /\
  has_file (files (world (save_checkpoint cfg e w)))
           (checkpoint_name (d_pfx cfg) e (hvd_rank cfg) ".weights").
Proof.
  unfold save_checkpoint.
  rewrite (bind_ok get_models _ w _ _ _ eq_refl). cbn [prepend world].
  destruct (save_model cfg); unfold bind; cbn [res world write_file ret]; split;
    repeat first [apply has_file_write; right; reflexivity
                 | apply has_file_write; left].
Qed.

Lemma has_file_run_epoch last_epoch epoch name w :
  has_file (files w) name ->
  has_file (files (world (run_epoch K cfg last_epoch epoch tt w))) name.
Proof.
  intros H. unfold run_epoch.
  destruct (nb_batches cfg) as [n|x]; [|exact H].
  rewrite (bind_ok (lift (Ok n)) _ w _ _ _ eq_refl). cbn [prepend world].
  pose proof (keeps_files_train_gan K cfg epoch n w) as Hkeep.
  destruct (train_gan K cfg epoch n w) as [l w1 [loc|x]] eqn:Hgan; cbn [world] in Hkeep.
  - rewrite (bind_ok _ _ _ _ _ _ Hgan). cbn [prepend world]. rewrite <- Hkeep in H.
    destruct (_ && _); [apply has_file_save_checkpoint, H | exact H].
  - rewrite (bind_raise _ _ _ _ _ _ Hgan). cbn [world]. rewrite Hkeep. exact H.
Qed.

Lemma run_epoch_has_files last_epoch epoch w :
  ((hvd_rank cfg =? 0) || negb (process0 cfg))
  && (save_all_epochs cfg || (epoch =? nb_epochs cfg + last_epoch)) = true ->
  res (run_epoch K cfg last_epoch epoch tt w) = Ok tt ->
  has_file (files (world (run_epoch K cfg last_epoch epoch tt w)))
           (checkpoint_name (g_pfx cfg) epoch (hvd_rank cfg) ".weights") /\
  has_file (files (world (run_epoch K cfg last_epoch epoch tt w)))
           (checkpoint_name (d_pfx cfg) epoch (hvd_rank cfg) ".weights").
Proof.
  intros Hcond. unfold run_epoch. rewrite Hcond.
  destruct (nb_batches cfg) as [n|x]; [|discriminate].
  rewrite (bind_ok (lift (Ok n)) _ w _ _ _ eq_refl).
  destruct (train_gan K cfg epoch n w) as [l w1 [loc|x]] eqn:Hgan.
  - rewrite (bind_ok _ _ _ _ _ _ Hgan). cbn [prepend world]. intros _.
    apply save_checkpoint_has_files.
  - rewrite (bind_raise _ _ _ _ _ _ Hgan). discriminate.
Qed.

Lemma has_file_epochs last_epoch (es : list Z) name w :
  has_file (files w) name ->
  has_file (files (world (for_each es (run_epoch K cfg last_epoch) tt w))) name.
Proof.
  revert w. induction es as [|e es IH]; intros w H; cbn [for_each]; [exact H|].
  unfold bind. destruct (res (run_epoch K cfg last_epoch e tt w)) as [[]|x] eqn:Hres;
    cbn [world].
  - apply IH, has_file_run_epoch, H.
  - apply has_file_run_epoch, H.
Qed.

Lemma epochs_have_files last_epoch (es : list Z) w :
  (hvd_rank cfg =? 0) || negb (process0 cfg) = true ->
  save_all_epochs cfg = true ->
  res (for_each es (run_epoch K cfg last_epoch) tt w) = Ok tt ->
  forall epoch, In epoch es ->
    has_file (files (world (for_each es (run_epoch K cfg last_epoch) tt w)))
             (checkpoint_name (g_pfx cfg) epoch (hvd_rank cfg) ".weights") /\
    has_file (files (world (for_each es (run_epoch K cfg last_epoch) tt w)))
             (checkpoint_name (d_pfx cfg) epoch (hvd_rank cfg) ".weights").
Proof.
  intros Hrank Hall. revert w. induction es as [|e es IH]; intros w Hres epoch Hin;
    [destruct Hin|].
  cbn [for_each] in *.
  apply bind_inv_ok in Hres as ([] & Hfirst & Hworld & Hrest). rewrite Hworld.
  destruct Hin as [<- | Hin].
  - destruct (run_epoch_has_files last_epoch e w) as (Hg & Hd);
      [rewrite Hrank, Hall; reflexivity | exact Hfirst |].
    split; apply has_file_epochs; assumption.
  - apply IH; assumption.
Qed.

End EveryEpoch.

(** X24.  With [save_all_epochs], a run that completes leaves the weights
    files of every epoch it has trained: for each [epoch] with
    [last_epoch < epoch <= last_epoch + nb_epochs] the directory holds, at
    the end of the loop, the generator and the discriminator weights file of
    that epoch for the worker's rank (on a worker that saves); and no file
    that was there before the loop has disappeared. *)
Theorem every_epoch_is_saved (K : Collaborators) (cfg : Config) (last_epoch : Z)
        (w : World) :
  save_all_epochs cfg = true ->
  hvd_rank cfg = 0 \/ process0 cfg = false ->
  res (run_epochs K cfg last_epoch w) = Ok tt ->
  (forall epoch,
      last_epoch < epoch <= last_epoch + nb_epochs cfg ->
      has_file (files (world (run_epochs K cfg last_epoch w)))
               (checkpoint_name (g_pfx cfg) epoch (hvd_rank cfg) ".weights") /\
      has_file (files (world (run_epochs K cfg last_epoch w)))
               (checkpoint_name (d_pfx cfg) epoch (hvd_rank cfg) ".weights")) /\
  (forall name,
      has_file (files w) name ->
      has_file (files (world (run_epochs K cfg last_epoch w))) name).
Proof.
  intros Hall Hrank Hres. split.
  - intros epoch Hepoch. unfold run_epochs in *.
    apply (epochs_have_files K cfg last_epoch (epochs cfg last_epoch) w); try assumption.
    + destruct Hrank as [-> | ->]; [reflexivity | apply orb_true_r].
    + unfold epochs. apply in_map_iff. exists (epoch - last_epoch - 1).
      split; [lia | apply in_range; lia].
  - intros name Hname. apply has_file_epochs, Hname.
Qed.

Lemma every_epoch_is_saved_witness :
  has_file
    (files (world (run_epochs Scenario.collaborators
                     (Examples.config 3 4 1 false false false false true true 0%Qc 0 1)
                     6 (Scenario.world []))))
    "params_generator_epoch_0008_000.weights".
Proof.
  destruct (every_epoch_is_saved Scenario.collaborators
              (Examples.config 3 4 1 false false false false true true 0%Qc 0 1)
              6 (Scenario.world [])) as (H & _).
  - reflexivity.
  - left. reflexivity.
  - vm_compute. reflexivity.
  - destruct (H 8) as (Hg & _); [split; [reflexivity | vm_compute; discriminate]|].
    exact Hg.
Defined.
